(** * GridPath: constraint rules of the capacity and operational types

  A shallow embedding of the model-building code of GridPath: the
  binary-retirement capacity type ([gen_ret_bin]), the generic-storage and
  demand-response operational types, the local-capacity balance and the
  total-cost objective.

  The Python code builds a Pyomo model: index sets, parameters, decision
  variables and constraint rules.  A rule is a function of the model and an
  index which either returns an expression relation, returns
  [Constraint.Skip], or raises.  Expressions are kept as trees over the
  rationals; a solution is a valuation of the variable references. *)

From Stdlib Require Import ZArith QArith Lqa Ascii String List Lia Sorting.Sorted.
From stdpp Require Import base option list gmap strings.

Local Open Scope string_scope.
Local Open Scope list_scope.
Local Open Scope Z_scope.

(* ================================================================== *)
(** * The part of Pyomo the rules use *)
(* ================================================================== *)

Module Pyomo.

(** Every two-dimensional index of the sources is a (name, integer) tuple:
    (project, period), (project, timepoint), (project, horizon) or
    (zone, period). *)
Definition index : Type := string * Z.

(** The exceptions the modelled code can raise. *)
Inductive exn : Type :=
| KeyError (component : string)
| AttributeError (name : string)
| ZeroDivisionError
| ValueError (message : string)
| TypeError (message : string).

Inductive result (A : Type) : Type :=
| Ok (a : A)
| Raise (e : exn).
Arguments Ok {A} a.
Arguments Raise {A} e.

Definition bind {A B : Type} (r : result A) (k : A -> result B) : result B :=
  match r with
  | Ok a => k a
  | Raise e => Raise e
  end.

Notation "x <- r ;; k" := (bind r (fun x => k))
  (at level 100, r at next level, right associativity).

(** A generator or comprehension whose body can raise: the first exception
    aborts the iteration. *)
Fixpoint mapM {A B : Type} (f : A -> result B) (l : list A) : result (list B) :=
  match l with
  | [] => Ok []
  | x :: l' => y <- f x ;; ys <- mapM f l' ;; Ok (y :: ys)
  end.

(** What an expression tree can refer to: an item [component[i]] of an
    indexed component, or a scalar attribute of the model. *)
Inductive ref : Type :=
| Item (component : string) (i : index)
| Attr (component : string).

#[global] Instance ref_eq_dec : EqDecision ref.
Proof. solve_decision. Defined.

Inductive expr : Type :=
| Num (q : Q)
| Ref (r : ref)
| Add (a b : expr)
| Sub (a b : expr)
| Mul (a b : expr)
| Div (a b : expr).

(** Python's [sum(...)]: starts from 0 and adds from the left. *)
Definition py_sum (es : list expr) : expr := foldl Add (Num 0) es.

Inductive relation : Type :=
| Ge (l r : expr)
| Le (l r : expr)
| Eq (l r : expr).

(** What a constraint rule returns. *)
Inductive outcome : Type :=
| Skip
| Enforce (c : relation).

Definition valuation : Type := ref -> Q.

Fixpoint eval (v : valuation) (e : expr) : Q :=
  match e with
  | Num q => q
  | Ref r => v r
  | Add a b => eval v a + eval v b
  | Sub a b => eval v a - eval v b
  | Mul a b => eval v a * eval v b
  | Div a b => eval v a / eval v b
  end%Q.

Definition holds (v : valuation) (c : relation) : Prop :=
  match c with
  | Ge l r => (eval v r <= eval v l)%Q
  | Le l r => (eval v l <= eval v r)%Q
  | Eq l r => (eval v l == eval v r)%Q
  end.

Definition holdsb (v : valuation) (c : relation) : bool :=
  match c with
  | Ge l r => Qle_bool (eval v r) (eval v l)
  | Le l r => Qle_bool (eval v l) (eval v r)
  | Eq l r => Qeq_bool (eval v l) (eval v r)
  end.

(** Domains of variables and parameters. *)
Inductive domain : Type :=
| NonNegativeReals
| Binary.

Definition within (d : domain) (q : Q) : Prop :=
  match d with
  | NonNegativeReals => (0 <= q)%Q
  | Binary => (q == 0)%Q \/ (q == 1)%Q
  end.

(** [Var(index_set, within=domain)]. *)
Record var_decl : Type := Var {
  var_name : string;
  var_index : list index;
  var_within : domain
}.

(** [x[i]] on a variable or an indexed expression: a [KeyError] outside the
    index set. *)
Definition getitem (name : string) (idx : list index) (i : index) : result expr :=
  if bool_decide (i ∈ idx) then Ok (Ref (Item name i)) else Raise (KeyError name).

Definition var_getitem (x : var_decl) (i : index) : result expr :=
  getitem (var_name x) (var_index x) i.

(** [p[k]] on a parameter or a dict. *)
Definition param `{Countable K} {V : Type}
    (name : string) (p : gmap K V) (k : K) : result V :=
  match p !! k with
  | Some q => Ok q
  | None => Raise (KeyError name)
  end.

(** [Constraint(index_set, rule=...)]: the rule is called at every index
    in order; a skipped index contributes nothing; an exception aborts the
    construction. *)
Definition enforced (o : outcome) : option relation :=
  match o with
  | Skip => None
  | Enforce c => Some c
  end.

Definition Constraint {I : Type} (idx : list I) (rule : I -> result outcome)
    : result (list relation) :=
  outs <- mapM rule idx ;; Ok (omap enforced outs).

(** The components a module adds to the model. *)
Record components : Type := Components {
  variables : list var_decl;
  constraints : list relation
}.

Definition respects (v : valuation) (x : var_decl) : Prop :=
  forall i, i ∈ var_index x -> within (var_within x) (v (Item (var_name x) i)).

(** A valuation is feasible when every variable is in its domain and every
    constraint holds. *)
Definition feasible (v : valuation) (c : components) : Prop :=
  Forall (respects v) (variables c) /\ Forall (holds v) (constraints c).

(** The sum of a list of rationals, from the left as Python adds. *)
Definition Qsum (qs : list Q) : Q := foldl Qplus 0%Q qs.

(** Decidable feasibility, for concrete models and valuations. *)
Definition withinb (d : domain) (q : Q) : bool :=
  match d with
  | NonNegativeReals => Qle_bool 0 q
  | Binary => Qeq_bool q 0 || Qeq_bool q 1
  end.

Definition respectsb (v : valuation) (x : var_decl) : bool :=
  forallb (fun i => withinb (var_within x) (v (Item (var_name x) i)))
    (var_index x).

Definition feasibleb (v : valuation) (c : components) : bool :=
  forallb (respectsb v) (variables c) && forallb (holdsb v) (constraints c).

(** [Param(index_set, within=domain)] with the data given for it: when the
    parameter is built every entry of the data is checked, its key against
    the index set and its value against the domain.  An index without data
    is not an error until it is read.  The data is a map, so the entries are
    checked in the order of its keys; the order only decides which of
    several invalid entries is reported. *)
Definition Param `{Countable K} (name : string) (idx : list K) (d : domain)
    (data : gmap K Q) : result unit :=
  checked <- mapM (fun kv : K * Q =>
                     if bool_decide (kv.1 ∈ idx) then
                       if withinb d kv.2 then Ok tt
                       else Raise (ValueError "Value not in parameter domain")
                     else Raise (KeyError name))
               (map_to_list data) ;;
  Ok tt.

(** [v] with the value of one reference replaced. *)
Definition update (v : valuation) (r : ref) (q : Q) : valuation :=
  fun r' => if bool_decide (r' = r) then q else v r'.

End Pyomo.

Import Pyomo.

(* ================================================================== *)
(** * The temporal index *)
(* ================================================================== *)

Module Temporal.

(** The element just before [x] in an ordered sequence, when there is one. *)
Fixpoint predecessor (l : list Z) (x : Z) : option Z :=
  match l with
  | a :: rest =>
      match rest with
      | b :: _ => if bool_decide (b = x) then Some a else predecessor rest x
      | [] => None
      end
  | [] => None
  end.

(** Modelled from the spec: the investment periods of the temporal index
    (the module that defines [first_period] and [prev_period] is not among
    the sources).  Periods are kept in their order; the first period is the
    head of the sequence. *)
Definition first_period (periods : list Z) : result Z :=
  match periods with
  | [] => Raise (KeyError "first_period")
  | p :: _ => Ok p
  end.

(** Modelled from the spec: the previous period is the predecessor in the
    ordered sequence of periods, and is undefined for the first. *)
Definition prev_period (periods : list Z) (p : Z) : result Z :=
  match predecessor periods p with
  | Some q => Ok q
  | None => Raise (KeyError "prev_period")
  end.

(** Modelled from the spec: building the index validates that the periods
    are strictly ordered. *)
Definition valid_periods (periods : list Z) : Prop :=
  StronglySorted Z.lt periods.

(** Modelled from the spec: the timepoints of the temporal index.  A horizon
    is an ordered sequence of timepoints with a boundary mode, ["circular"]
    or ["linear"]; a timepoint has a period and a duration in hours. *)
Record index : Type := Index {
  TIMEPOINTS_ON_HORIZON : gmap Z (list Z);
  boundary : gmap Z string;
  period : gmap Z Z;
  number_of_hours_in_timepoint : gmap Z Q
}.

(** Modelled from the spec: the first and the last timepoint of a horizon. *)
Definition first_horizon_timepoint (T : index) (h : Z) : result Z :=
  tmps <- param "TIMEPOINTS_ON_HORIZON" (TIMEPOINTS_ON_HORIZON T) h ;;
  match tmps with
  | [] => Raise (KeyError "first_horizon_timepoint")
  | t :: _ => Ok t
  end.

Definition last_horizon_timepoint (T : index) (h : Z) : result Z :=
  tmps <- param "TIMEPOINTS_ON_HORIZON" (TIMEPOINTS_ON_HORIZON T) h ;;
  match last tmps with
  | None => Raise (KeyError "last_horizon_timepoint")
  | Some t => Ok t
  end.

(** Modelled from the spec: the previous timepoint of [tmp] on its horizon
    [h].  The first timepoint of a circular horizon wraps to the horizon's
    last timepoint; the first timepoint of a linear horizon has none. *)
Definition previous_timepoint (T : index) (h tmp : Z) : result (option Z) :=
  first <- first_horizon_timepoint T h ;;
  if bool_decide (tmp = first) then
    b <- param "boundary" (boundary T) h ;;
    if bool_decide (b = "circular") then
      t <- last_horizon_timepoint T h ;; Ok (Some t)
    else if bool_decide (b = "linear") then Ok None
    else Raise (ValueError "invalid boundary")
  else
    tmps <- param "TIMEPOINTS_ON_HORIZON" (TIMEPOINTS_ON_HORIZON T) h ;;
    match predecessor tmps tmp with
    | Some t => Ok (Some t)
    | None => Raise (KeyError "previous_timepoint")
    end.

End Temporal.


(* ================================================================== *)
(** * gridpath/project/capacity/capacity_types/gen_ret_bin.py *)
(* ================================================================== *)

Module GenRetBin.

(** The model components the module reads.  [PERIODS] belongs to the temporal
    index; the other three are the module's own set and required parameters,
    filled from the input files. *)
Record model : Type := Model {
  PERIODS : list Z;
  GEN_RET_BIN_OPR_PRDS : list index;
  gen_ret_bin_capacity_mw : gmap index Q;
  gen_ret_bin_fixed_cost_per_mw_yr : gmap index Q
}.

(** [list(set(g for (g, p) in mod.GEN_RET_BIN_OPR_PRDS))]; the set's
    iteration order is not specified, the first occurrences are kept here. *)
Definition GEN_RET_BIN (m : model) : list string :=
  remove_dups (GEN_RET_BIN_OPR_PRDS m).*1.

(** [list(set(period for (project, period) in mod.GEN_RET_BIN_OPR_PRDS
    if project == prj))]. *)
Definition OPR_PRDS_BY_GEN_RET_BIN (m : model) (prj : string) : list Z :=
  remove_dups (filter (fun gp => gp.1 = prj) (GEN_RET_BIN_OPR_PRDS m)).*2.

(** Python's [min] over a generator. *)
Definition py_min (l : list Z) : result Z :=
  match l with
  | [] => Raise (ValueError "min() arg is an empty sequence")
  | p :: ps => Ok (foldl Z.min p ps)
  end.

(** The derived parameter [gen_ret_bin_first_period], indexed by
    [GEN_RET_BIN]. *)
Definition gen_ret_bin_first_period (m : model) (g : string) : result Z :=
  if bool_decide (g ∈ GEN_RET_BIN m)
  then py_min (OPR_PRDS_BY_GEN_RET_BIN m g)
  else Raise (KeyError "gen_ret_bin_first_period").

Definition GenRetBin_Retire (m : model) : var_decl :=
  Var "GenRetBin_Retire" (GEN_RET_BIN_OPR_PRDS m) Binary.

(** [retire_forever_rule(mod, g, p)]. *)
Definition retire_forever_rule (m : model) (g : string) (p : Z) : result outcome :=
  first <- Temporal.first_period (PERIODS m) ;;
  if bool_decide (p = first) then Ok Skip
  else
    gfirst <- gen_ret_bin_first_period m g ;;
    if bool_decide (p = gfirst) then Ok Skip
    else
      lhs <- var_getitem (GenRetBin_Retire m) (g, p) ;;
      prev <- Temporal.prev_period (PERIODS m) p ;;
      rhs <- var_getitem (GenRetBin_Retire m) (g, prev) ;;
      Ok (Enforce (Ge lhs rhs)).

(** [capacity_rule(mod, g, p)]. *)
Definition capacity_rule (m : model) (g : string) (p : Z) : result expr :=
  cap <- param "gen_ret_bin_capacity_mw" (gen_ret_bin_capacity_mw m) (g, p) ;;
  retire <- var_getitem (GenRetBin_Retire m) (g, p) ;;
  Ok (Mul (Num cap) (Sub (Num 1) retire)).

(** [capacity_cost_rule(mod, g, p)]. *)
Definition capacity_cost_rule (m : model) (g : string) (p : Z) : result expr :=
  cost <- param "gen_ret_bin_fixed_cost_per_mw_yr"
            (gen_ret_bin_fixed_cost_per_mw_yr m) (g, p) ;;
  cap <- param "gen_ret_bin_capacity_mw" (gen_ret_bin_capacity_mw m) (g, p) ;;
  retire <- var_getitem (GenRetBin_Retire m) (g, p) ;;
  Ok (Mul (Mul (Num cost) (Num cap)) (Sub (Num 1) retire)).

(** [new_capacity_rule(mod, g, p)]. *)
Definition new_capacity_rule (m : model) (g : string) (p : Z) : result expr :=
  Ok (Num 0).

(** [add_model_components(m, d, ...)]: the two required parameters, the
    variable and the constraint the module declares, in that order, and the
    name it appends to the list [capacity_type_operational_period_sets] of
    the dynamic components. *)
Definition add_model_components (m : model) (d : list string)
    : result (components * list string) :=
  capacity <- Param "gen_ret_bin_capacity_mw" (GEN_RET_BIN_OPR_PRDS m)
                NonNegativeReals (gen_ret_bin_capacity_mw m) ;;
  fixed_cost <- Param "gen_ret_bin_fixed_cost_per_mw_yr" (GEN_RET_BIN_OPR_PRDS m)
                  NonNegativeReals (gen_ret_bin_fixed_cost_per_mw_yr m) ;;
  forever <- Constraint (GEN_RET_BIN_OPR_PRDS m)
               (fun gp => retire_forever_rule m gp.1 gp.2) ;;
  Ok (Components [GenRetBin_Retire m] forever,
      d ++ ["GEN_RET_BIN_OPR_PRDS"]).

(** One row of [projects.tab] and of
    [specified_generation_period_params.tab]. *)
Record project_row : Type := ProjectRow {
  pr_project : string;
  pr_capacity_type : string
}.

Record period_params_row : Type := PeriodParamsRow {
  pp_project : string;
  pp_period : Z;
  pp_specified_capacity_mw : Q;
  pp_fixed_cost_per_mw_yr : Q
}.

(** [determine_gen_ret_bin_projects()]. *)
Definition determine_gen_ret_bin_projects (projects : list project_row)
    : list string :=
  foldl (fun acc row =>
           if bool_decide (pr_capacity_type row = "gen_ret_bin")
           then acc ++ [pr_project row] else acc)
        [] projects.

(** The three accumulators of the loop of [determine_period_params]. *)
Record period_params : Type := PeriodParams {
  generator_period_list : list index;
  gen_ret_bin_capacity_mw_dict : gmap index Q;
  gen_ret_bin_fixed_cost_per_mw_yr_dict : gmap index Q
}.

Definition period_params_step (generators_list : list string)
    (acc : period_params) (row : period_params_row) : period_params :=
  if bool_decide (pp_project row ∈ generators_list)
  then
    let key := (pp_project row, pp_period row) in
    PeriodParams
      (generator_period_list acc ++ [key])
      (<[key := pp_specified_capacity_mw row]> (gen_ret_bin_capacity_mw_dict acc))
      (<[key := pp_fixed_cost_per_mw_yr row]>
         (gen_ret_bin_fixed_cost_per_mw_yr_dict acc))
  else acc.

(** What the module raises for projects without inputs: the message text and
    the list that is formatted into it. *)
Definition missing_inputs_message : string :=
  "Missing capacity/fixed cost inputs for the following gen_ret_bin projects: ".

(** [list(set(generators_list) - set(gen_w_params))], in the order of
    [generators_list] (a Python set has no specified order). *)
Definition missing_projects (generators_list gen_w_params : list string)
    : list string :=
  remove_dups (filter (fun g => g ∉ gen_w_params) generators_list).

(** The outcome of [determine_period_params()]: the three results, or the
    [ValueError] with the projects formatted into its message. *)
Inductive load_result : Type :=
| Loaded (r : period_params)
| MissingInputs (message : string) (diff : list string).

Definition determine_period_params (projects : list project_row)
    (rows : list period_params_row) : load_result :=
  let generators_list := determine_gen_ret_bin_projects projects in
  let acc := foldl (period_params_step generators_list)
               (PeriodParams [] ∅ ∅) rows in
  let gen_w_params := (generator_period_list acc).*1 in
  let diff := missing_projects generators_list gen_w_params in
  match diff with
  | [] => Loaded acc
  | _ :: _ => MissingInputs missing_inputs_message diff
  end.

(** [load_module_specific_data(m, data_portal, ...)]: the three entries it
    writes to the data portal are the set and the two parameters of the
    model; [determine_period_params()] is called once for each, on the same
    two input files, and each call can raise. *)
Definition load_module_specific_data (m : model) (projects : list project_row)
    (rows : list period_params_row) : load_result + model :=
  match determine_period_params projects rows with
  | MissingInputs message diff => inl (MissingInputs message diff)
  | Loaded r0 =>
      match determine_period_params projects rows with
      | MissingInputs message diff => inl (MissingInputs message diff)
      | Loaded r1 =>
          match determine_period_params projects rows with
          | MissingInputs message diff => inl (MissingInputs message diff)
          | Loaded r2 =>
              inr (Model (PERIODS m)
                     (generator_period_list r0)
                     (gen_ret_bin_capacity_mw_dict r1)
                     (gen_ret_bin_fixed_cost_per_mw_yr_dict r2))
          end
      end
  end.

(** One data row of [capacity_gen_ret_bin.csv]. *)
Record results_row : Type := ResultsRow {
  rr_project : string;
  rr_period : Z;
  rr_technology : string;
  rr_load_zone : string;
  rr_retired_mw : Q;
  rr_retired_binary : Q
}.

Definition results_header : list string :=
  ["project"; "period"; "technology"; "load_zone"; "retired_mw";
   "retired_binary"].

(** [export_module_specific_results(..., m, d)]: the rows written after the
    header, one for every operational period; [technology] and [load_zone]
    are parameters of the projects, and [value] reads the solution [v]. *)
Definition export_module_specific_results (m : model)
    (technology load_zone : gmap string string) (v : valuation)
    : result (list results_row) :=
  mapM (fun gp : index =>
          tech <- param "technology" technology gp.1 ;;
          zone <- param "load_zone" load_zone gp.1 ;;
          retire <- var_getitem (GenRetBin_Retire m) gp ;;
          cap <- param "gen_ret_bin_capacity_mw" (gen_ret_bin_capacity_mw m) gp ;;
          retire' <- var_getitem (GenRetBin_Retire m) gp ;;
          Ok (ResultsRow gp.1 gp.2 tech zone
                (eval v (Mul retire (Num cap))) (eval v retire')))
       (GEN_RET_BIN_OPR_PRDS m).

End GenRetBin.


(* ================================================================== *)
(** * gridpath/project/operations/operational_types/storage_generic.py *)
(* ================================================================== *)

Module StorageGeneric.

(** The model components the module reads.  [Capacity_MW] and
    [Energy_Capacity_MWh] are expressions of the capacity modules, indexed by
    [PROJECT_OPERATIONAL_PERIODS]; [indexed_components] gives the index set
    of every component that [getattr(mod, c)] can reach. *)
Record model : Type := Model {
  tix : Temporal.index;
  horizon : gmap Z Z;
  PROJECT_OPERATIONAL_TIMEPOINTS : list index;
  PROJECT_OPERATIONAL_PERIODS : list index;
  STORAGE_GENERIC_PROJECTS : list string;
  storage_generic_charging_efficiency : gmap string Q;
  storage_generic_discharging_efficiency : gmap string Q;
  indexed_components : gmap string (list index)
}.

(** The dynamic components [d] the rules close over: for every project, the
    names of its registered headroom and footroom reserve variables. *)
Record dynamic_components : Type := Dynamic {
  headroom_variables : gmap string (list string);
  footroom_variables : gmap string (list string)
}.

Definition STORAGE_GENERIC_PROJECT_OPERATIONAL_TIMEPOINTS (m : model) : list index :=
  remove_dups
    (filter (fun gt => gt.1 ∈ STORAGE_GENERIC_PROJECTS m)
       (PROJECT_OPERATIONAL_TIMEPOINTS m)).

Definition Generic_Storage_Discharge_MW (m : model) : var_decl :=
  Var "Generic_Storage_Discharge_MW"
    (STORAGE_GENERIC_PROJECT_OPERATIONAL_TIMEPOINTS m) NonNegativeReals.

Definition Generic_Storage_Charge_MW (m : model) : var_decl :=
  Var "Generic_Storage_Charge_MW"
    (STORAGE_GENERIC_PROJECT_OPERATIONAL_TIMEPOINTS m) NonNegativeReals.

Definition Starting_Energy_in_Generic_Storage_MWh (m : model) : var_decl :=
  Var "Starting_Energy_in_Generic_Storage_MWh"
    (STORAGE_GENERIC_PROJECT_OPERATIONAL_TIMEPOINTS m) NonNegativeReals.

Definition Capacity_MW (m : model) (i : index) : result expr :=
  getitem "Capacity_MW" (PROJECT_OPERATIONAL_PERIODS m) i.

Definition Energy_Capacity_MWh (m : model) (i : index) : result expr :=
  getitem "Energy_Capacity_MWh" (PROJECT_OPERATIONAL_PERIODS m) i.

Definition period (m : model) (tmp : Z) : result Z :=
  param "period" (Temporal.period (tix m)) tmp.

Definition number_of_hours_in_timepoint (m : model) (tmp : Z) : result Q :=
  param "number_of_hours_in_timepoint"
    (Temporal.number_of_hours_in_timepoint (tix m)) tmp.

Definition charging_efficiency (m : model) (s : string) : result Q :=
  param "storage_generic_charging_efficiency"
    (storage_generic_charging_efficiency m) s.

Definition discharging_efficiency (m : model) (s : string) : result Q :=
  param "storage_generic_discharging_efficiency"
    (storage_generic_discharging_efficiency m) s.

(** [mod.previous_timepoint[tmp]], from the temporal index; an index built
    from a missing previous timepoint is not in any index set. *)
Definition previous_timepoint (m : model) (tmp : Z) : result Z :=
  h <- param "horizon" (horizon m) tmp ;;
  prev <- Temporal.previous_timepoint (tix m) h tmp ;;
  match prev with
  | Some t => Ok t
  | None => Raise (KeyError "previous_timepoint")
  end.

(** [getattr(mod, c)[i]]. *)
Definition getattr_item (m : model) (c : string) (i : index) : result expr :=
  match indexed_components m !! c with
  | Some idx => getitem c idx i
  | None => Raise (AttributeError c)
  end.

(** [e / q] for a parameter value [q]. *)
Definition div_by (e : expr) (q : Q) : result expr :=
  if Qeq_bool q 0 then Raise ZeroDivisionError else Ok (Div e (Num q)).

(** [sum(getattr(mod, c)[s, tmp] for c in names)]. *)
Definition sum_of_components (m : model) (names : list string) (i : index)
    : result expr :=
  es <- mapM (fun c => getattr_item m c i) names ;; Ok (py_sum es).

Definition max_discharge_rule (m : model) (s : string) (tmp : Z) : result outcome :=
  dis <- var_getitem (Generic_Storage_Discharge_MW m) (s, tmp) ;;
  p <- period m tmp ;;
  cap <- Capacity_MW m (s, p) ;;
  Ok (Enforce (Le dis cap)).

Definition max_charge_rule (m : model) (s : string) (tmp : Z) : result outcome :=
  ch <- var_getitem (Generic_Storage_Charge_MW m) (s, tmp) ;;
  p <- period m tmp ;;
  cap <- Capacity_MW m (s, p) ;;
  Ok (Enforce (Le ch cap)).

Definition max_headroom_power_rule (m : model) (d : dynamic_components)
    (s : string) (tmp : Z) : result outcome :=
  names <- param "headroom_variables" (headroom_variables d) s ;;
  reserves <- sum_of_components m names (s, tmp) ;;
  p <- period m tmp ;;
  cap <- Capacity_MW m (s, p) ;;
  dis <- var_getitem (Generic_Storage_Discharge_MW m) (s, tmp) ;;
  ch <- var_getitem (Generic_Storage_Charge_MW m) (s, tmp) ;;
  Ok (Enforce (Le reserves (Add (Sub cap dis) ch))).

Definition max_footroom_power_rule (m : model) (d : dynamic_components)
    (s : string) (tmp : Z) : result outcome :=
  names <- param "footroom_variables" (footroom_variables d) s ;;
  reserves <- sum_of_components m names (s, tmp) ;;
  dis <- var_getitem (Generic_Storage_Discharge_MW m) (s, tmp) ;;
  p <- period m tmp ;;
  cap <- Capacity_MW m (s, p) ;;
  ch <- var_getitem (Generic_Storage_Charge_MW m) (s, tmp) ;;
  Ok (Enforce (Le reserves (Sub (Add dis cap) ch))).

Definition max_headroom_energy_rule (m : model) (d : dynamic_components)
    (s : string) (tmp : Z) : result outcome :=
  names <- param "headroom_variables" (headroom_variables d) s ;;
  reserves <- sum_of_components m names (s, tmp) ;;
  hours <- number_of_hours_in_timepoint m tmp ;;
  dis_eff <- discharging_efficiency m s ;;
  lhs <- div_by (Mul reserves (Num hours)) dis_eff ;;
  soc <- var_getitem (Starting_Energy_in_Generic_Storage_MWh m) (s, tmp) ;;
  ch <- var_getitem (Generic_Storage_Charge_MW m) (s, tmp) ;;
  ch_eff <- charging_efficiency m s ;;
  dis <- var_getitem (Generic_Storage_Discharge_MW m) (s, tmp) ;;
  discharged <- div_by (Mul dis (Num hours)) dis_eff ;;
  Ok (Enforce
        (Le lhs
           (Sub (Add soc (Mul (Mul ch (Num hours)) (Num ch_eff))) discharged))).

Definition max_footroom_energy_rule (m : model) (d : dynamic_components)
    (s : string) (tmp : Z) : result outcome :=
  names <- param "headroom_variables" (headroom_variables d) s ;;
  reserves <- sum_of_components m names (s, tmp) ;;
  hours <- number_of_hours_in_timepoint m tmp ;;
  ch_eff <- charging_efficiency m s ;;
  p <- period m tmp ;;
  cap <- Capacity_MW m (s, p) ;;
  soc <- var_getitem (Starting_Energy_in_Generic_Storage_MWh m) (s, tmp) ;;
  ch <- var_getitem (Generic_Storage_Charge_MW m) (s, tmp) ;;
  dis <- var_getitem (Generic_Storage_Discharge_MW m) (s, tmp) ;;
  dis_eff <- discharging_efficiency m s ;;
  discharged <- div_by (Mul dis (Num hours)) dis_eff ;;
  Ok (Enforce
        (Le (Mul (Mul reserves (Num hours)) (Num ch_eff))
           (Add (Sub (Sub cap soc) (Mul (Mul ch (Num hours)) (Num ch_eff)))
              discharged))).

(** The test of [energy_tracking_rule]: the first timepoint of a horizon
    whose boundary is ["linear"]; [and] does not read the boundary of a
    timepoint that is not first. *)
Definition first_of_linear_horizon (m : model) (tmp : Z) : result bool :=
  h <- param "horizon" (horizon m) tmp ;;
  first <- Temporal.first_horizon_timepoint (tix m) h ;;
  if bool_decide (tmp = first) then
    b <- param "boundary" (Temporal.boundary (tix m)) h ;;
    Ok (bool_decide (b = "linear"))
  else Ok false.

Definition energy_tracking_rule (m : model) (s : string) (tmp : Z) : result outcome :=
  skip <- first_of_linear_horizon m tmp ;;
  if skip then Ok Skip
  else
    soc <- var_getitem (Starting_Energy_in_Generic_Storage_MWh m) (s, tmp) ;;
    prev <- previous_timepoint m tmp ;;
    soc_prev <- var_getitem (Starting_Energy_in_Generic_Storage_MWh m) (s, prev) ;;
    ch_prev <- var_getitem (Generic_Storage_Charge_MW m) (s, prev) ;;
    hours <- number_of_hours_in_timepoint m prev ;;
    ch_eff <- charging_efficiency m s ;;
    dis_prev <- var_getitem (Generic_Storage_Discharge_MW m) (s, prev) ;;
    dis_eff <- discharging_efficiency m s ;;
    discharged <- div_by (Mul dis_prev (Num hours)) dis_eff ;;
    Ok (Enforce
          (Eq soc
             (Sub (Add soc_prev (Mul (Mul ch_prev (Num hours)) (Num ch_eff)))
                discharged))).

Definition max_energy_in_storage_rule (m : model) (s : string) (tmp : Z)
    : result outcome :=
  soc <- var_getitem (Starting_Energy_in_Generic_Storage_MWh m) (s, tmp) ;;
  p <- period m tmp ;;
  cap <- Energy_Capacity_MWh m (s, p) ;;
  Ok (Enforce (Le soc cap)).

(** [power_provision_rule(mod, s, tmp)]. *)
Definition power_provision_rule (m : model) (s : string) (tmp : Z) : result expr :=
  dis <- var_getitem (Generic_Storage_Discharge_MW m) (s, tmp) ;;
  ch <- var_getitem (Generic_Storage_Charge_MW m) (s, tmp) ;;
  Ok (Sub dis ch).

(** [add_module_specific_components(m, d)]: three variables and eight
    constraints, all over the storage projects' operational timepoints. *)
Definition add_module_specific_components (m : model) (d : dynamic_components)
    : result components :=
  let over rule :=
    Constraint (STORAGE_GENERIC_PROJECT_OPERATIONAL_TIMEPOINTS m)
      (fun st : index => rule st.1 st.2) in
  c1 <- over (max_discharge_rule m) ;;
  c2 <- over (max_charge_rule m) ;;
  c3 <- over (max_headroom_power_rule m d) ;;
  c4 <- over (max_footroom_power_rule m d) ;;
  c5 <- over (max_headroom_energy_rule m d) ;;
  c6 <- over (max_footroom_energy_rule m d) ;;
  c7 <- over (energy_tracking_rule m) ;;
  c8 <- over (max_energy_in_storage_rule m) ;;
  Ok (Components
        [Generic_Storage_Discharge_MW m; Generic_Storage_Charge_MW m;
         Starting_Energy_in_Generic_Storage_MWh m]
        (c1 ++ c2 ++ c3 ++ c4 ++ c5 ++ c6 ++ c7 ++ c8)).

(** One row of [projects.tab], with the columns [determine_efficiencies]
    reads. *)
Record projects_row : Type := ProjectsRow {
  sp_project : string;
  sp_operational_type : string;
  sp_charging_efficiency : Q;
  sp_discharging_efficiency : Q
}.

(** [determine_efficiencies()]: the two dicts it fills in one pass over the
    rows. *)
Definition determine_efficiencies (rows : list projects_row)
    : gmap string Q * gmap string Q :=
  foldl (fun acc row =>
           if bool_decide (sp_operational_type row = "storage_generic")
           then (<[sp_project row := sp_charging_efficiency row]> acc.1,
                 <[sp_project row := sp_discharging_efficiency row]> acc.2)
           else acc)
        (∅, ∅) rows.

(** [load_module_specific_data(mod, data_portal, ...)]: the two parameters
    it writes to the data portal, each from its own call of
    [determine_efficiencies()]. *)
Definition load_module_specific_data (m : model) (rows : list projects_row)
    : model :=
  Model (tix m) (horizon m) (PROJECT_OPERATIONAL_TIMEPOINTS m)
    (PROJECT_OPERATIONAL_PERIODS m) (STORAGE_GENERIC_PROJECTS m)
    (determine_efficiencies rows).1
    (determine_efficiencies rows).2
    (indexed_components m).

End StorageGeneric.


(* ================================================================== *)
(** * gridpath/project/operations/operational_types/dr.py *)
(* ================================================================== *)

Module DR.

(** The model components the module reads.  In this module a timepoint has
    one horizon per balancing type, and a project has one balancing type. *)
Record model : Type := Model {
  tix : Temporal.index;
  horizon : gmap (Z * string) Z;
  balancing_type_project : gmap string string;
  PROJECT_OPERATIONAL_TIMEPOINTS : list index;
  PROJECT_OPERATIONAL_PERIODS : list index;
  DR : list string;
  FUEL_PROJECTS : list string
}.

Definition DR_OPR_TMPS (m : model) : list index :=
  remove_dups
    (filter (fun gt => gt.1 ∈ DR m) (PROJECT_OPERATIONAL_TIMEPOINTS m)).

(** [set((g, mod.horizon[tmp, mod.balancing_type_project[g]])
    for (g, tmp) in mod.PROJECT_OPERATIONAL_TIMEPOINTS if g in mod.DR)]. *)
Definition DR_OPR_HRZS (m : model) : result (list index) :=
  hs <- mapM (fun gt : index =>
                bt <- param "balancing_type_project"
                        (balancing_type_project m) gt.1 ;;
                h <- param "horizon" (horizon m) (gt.2, bt) ;;
                Ok (gt.1, h))
          (filter (fun gt => gt.1 ∈ DR m) (PROJECT_OPERATIONAL_TIMEPOINTS m)) ;;
  Ok (remove_dups hs).

Definition DR_Shift_Up_MW (m : model) : var_decl :=
  Var "DR_Shift_Up_MW" (DR_OPR_TMPS m) NonNegativeReals.

Definition DR_Shift_Down_MW (m : model) : var_decl :=
  Var "DR_Shift_Down_MW" (DR_OPR_TMPS m) NonNegativeReals.

Definition Capacity_MW (m : model) (i : index) : result expr :=
  getitem "Capacity_MW" (PROJECT_OPERATIONAL_PERIODS m) i.

Definition Energy_Capacity_MWh (m : model) (i : index) : result expr :=
  getitem "Energy_Capacity_MWh" (PROJECT_OPERATIONAL_PERIODS m) i.

Definition period (m : model) (tmp : Z) : result Z :=
  param "period" (Temporal.period (tix m)) tmp.

Definition number_of_hours_in_timepoint (m : model) (tmp : Z) : result Q :=
  param "number_of_hours_in_timepoint"
    (Temporal.number_of_hours_in_timepoint (tix m)) tmp.

Definition TIMEPOINTS_ON_HORIZON (m : model) (h : Z) : result (list Z) :=
  param "TIMEPOINTS_ON_HORIZON" (Temporal.TIMEPOINTS_ON_HORIZON (tix m)) h.

Definition max_shift_up_rule (m : model) (p : string) (tmp : Z) : result outcome :=
  up <- var_getitem (DR_Shift_Up_MW m) (p, tmp) ;;
  prd <- period m tmp ;;
  cap <- Capacity_MW m (p, prd) ;;
  Ok (Enforce (Le up cap)).

Definition max_shift_down_rule (m : model) (p : string) (tmp : Z) : result outcome :=
  down <- var_getitem (DR_Shift_Down_MW m) (p, tmp) ;;
  prd <- period m tmp ;;
  cap <- Capacity_MW m (p, prd) ;;
  Ok (Enforce (Le down cap)).

(** [energy_balance_rule(mod, p, h)]. *)
Definition energy_balance_rule (m : model) (p : string) (h : Z) : result outcome :=
  tmps <- TIMEPOINTS_ON_HORIZON m h ;;
  ups <- mapM (fun tmp => var_getitem (DR_Shift_Up_MW m) (p, tmp)) tmps ;;
  tmps' <- TIMEPOINTS_ON_HORIZON m h ;;
  downs <- mapM (fun tmp => var_getitem (DR_Shift_Down_MW m) (p, tmp)) tmps' ;;
  Ok (Enforce (Eq (py_sum ups) (py_sum downs))).

(** [energy_budget_rule(mod, p, h)]. *)
Definition energy_budget_rule (m : model) (p : string) (h : Z) : result outcome :=
  tmps <- TIMEPOINTS_ON_HORIZON m h ;;
  shifted <- mapM (fun tmp =>
                     up <- var_getitem (DR_Shift_Up_MW m) (p, tmp) ;;
                     hours <- number_of_hours_in_timepoint m tmp ;;
                     Ok (Mul up (Num hours)))
               tmps ;;
  first <- Temporal.first_horizon_timepoint (tix m) h ;;
  prd <- period m first ;;
  budget <- Energy_Capacity_MWh m (p, prd) ;;
  Ok (Enforce (Eq (py_sum shifted) budget)).

(** [power_provision_rule(mod, p, tmp)]. *)
Definition power_provision_rule (m : model) (p : string) (tmp : Z) : result expr :=
  down <- var_getitem (DR_Shift_Down_MW m) (p, tmp) ;;
  up <- var_getitem (DR_Shift_Up_MW m) (p, tmp) ;;
  Ok (Sub down up).

Definition newline : string := String "010"%char EmptyString.

(** ["Check input data for project '{}'".format(p)], for a project name. *)
Definition check_input_data (p : string) : string :=
  "Check input data for project '" +:+ p +:+ "'".

Definition fuel_message (p : string) : string :=
  "ERROR! Shiftable load projects should not use fuel." +:+ newline +:+
  check_input_data p +:+ newline +:+
  "and change its fuel to '.' (no value).".

Definition startup_shutdown_message (p : string) : string :=
  "ERROR! Shiftable load projects should not incur startup/shutdown costs."
  +:+ newline +:+
  check_input_data p +:+ newline +:+
  "and change its startup/shutdown costs to '.' (no value).".

(** [fuel_burn_rule(mod, p, tmp, error_message)]. *)
Definition fuel_burn_rule (m : model) (p : string) (tmp : Z)
    (error_message : string) : result expr :=
  if bool_decide (p ∈ FUEL_PROJECTS m)
  then Raise (ValueError (fuel_message p))
  else Raise (ValueError error_message).

(** [startup_shutdown_rule(mod, p, tmp)]. *)
Definition startup_shutdown_rule (m : model) (p : string) (tmp : Z) : result expr :=
  Raise (ValueError (startup_shutdown_message p)).

(** [add_module_specific_components(m, d)]. *)
Definition add_module_specific_components (m : model) : result components :=
  hrzs <- DR_OPR_HRZS m ;;
  c1 <- Constraint (DR_OPR_TMPS m)
          (fun pt : index => max_shift_up_rule m pt.1 pt.2) ;;
  c2 <- Constraint (DR_OPR_TMPS m)
          (fun pt : index => max_shift_down_rule m pt.1 pt.2) ;;
  c3 <- Constraint hrzs (fun ph : index => energy_balance_rule m ph.1 ph.2) ;;
  c4 <- Constraint hrzs (fun ph : index => energy_budget_rule m ph.1 ph.2) ;;
  Ok (Components [DR_Shift_Up_MW m; DR_Shift_Down_MW m]
        (c1 ++ c2 ++ c3 ++ c4)).

(** [mod.previous_timepoint[tmp, balancing_type]], from the temporal index:
    the previous timepoint of [tmp] on its horizon of that balancing type. *)
Definition previous_timepoint (m : model) (tmp : Z) (bt : string) : result Z :=
  h <- param "horizon" (horizon m) (tmp, bt) ;;
  prev <- Temporal.previous_timepoint (tix m) h tmp ;;
  match prev with
  | Some t => Ok t
  | None => Raise (KeyError "previous_timepoint")
  end.

(** [power_delta_rule(mod, p, tmp)]: [pass] at the first timepoint of a
    linear horizon, where the function returns [None]; the change of the net
    shift from the previous timepoint otherwise. *)
Definition power_delta_rule (m : model) (p : string) (tmp : Z)
    : result (option expr) :=
  bt <- param "balancing_type_project" (balancing_type_project m) p ;;
  h <- param "horizon" (horizon m) (tmp, bt) ;;
  first <- Temporal.first_horizon_timepoint (tix m) h ;;
  linear <- (if bool_decide (tmp = first) then
               bt' <- param "balancing_type_project" (balancing_type_project m) p ;;
               h' <- param "horizon" (horizon m) (tmp, bt') ;;
               b <- param "boundary" (Temporal.boundary (tix m)) h' ;;
               Ok (bool_decide (b = "linear"))
             else Ok false) ;;
  if linear : bool then Ok None
  else
    up <- var_getitem (DR_Shift_Up_MW m) (p, tmp) ;;
    down <- var_getitem (DR_Shift_Down_MW m) (p, tmp) ;;
    bt1 <- param "balancing_type_project" (balancing_type_project m) p ;;
    prev1 <- previous_timepoint m tmp bt1 ;;
    up_prev <- var_getitem (DR_Shift_Up_MW m) (p, prev1) ;;
    bt2 <- param "balancing_type_project" (balancing_type_project m) p ;;
    prev2 <- previous_timepoint m tmp bt2 ;;
    down_prev <- var_getitem (DR_Shift_Down_MW m) (p, prev2) ;;
    Ok (Some (Sub (Sub up down) (Sub up_prev down_prev))).

End DR.


(* ================================================================== *)
(** * gridpath/system/reliability/local_capacity/local_capacity_balance.py *)
(* ================================================================== *)

Module LocalCapacityBalance.

(** The model components the module reads, and the data of the parameter
    it declares.  [indexed_components] gives the index set of every
    component of the model that [getattr(mod, component)] can reach; a
    scalar component has no item at a (zone, period).  [other_attributes]
    names the attributes of the model that are not components (methods and
    the like), which cannot be subscripted. *)
Record model : Type := Model {
  LOCAL_CAPACITY_ZONES : list string;
  LOCAL_CAPACITY_ZONE_PERIODS_WITH_REQUIREMENT : list index;
  local_capacity_requirement_mw : gmap index Q;
  local_capacity_shortage_penalty_per_mw : gmap string Q;
  indexed_components : gmap string (list index);
  other_attributes : list string
}.

Definition Local_Capacity_Shortage_MW (m : model) : var_decl :=
  Var "Local_Capacity_Shortage_MW"
    (LOCAL_CAPACITY_ZONE_PERIODS_WITH_REQUIREMENT m) NonNegativeReals.

(** [getattr(mod, component)[z, p]]: an [AttributeError] when the model has
    no attribute of that name, a [TypeError] when the attribute cannot be
    subscripted, a [KeyError] when the component has no such item. *)
Definition getattr_item (m : model) (c : string) (i : index) : result expr :=
  match indexed_components m !! c with
  | Some idx => getitem c idx i
  | None =>
      if bool_decide (c ∈ other_attributes m)
      then Raise (TypeError "object is not subscriptable")
      else Raise (AttributeError c)
  end.

(** The rule of [Total_Local_Capacity_from_All_Sources_Expression_MW]; [d]
    is the list [local_capacity_balance_provision_components] of the dynamic
    components. *)
Definition total_local_capacity_rule (m : model) (d : list string) (i : index)
    : result expr :=
  es <- mapM (fun component => getattr_item m component i) d ;;
  Ok (py_sum es).

(** An item of the indexed expression. *)
Definition Total_Local_Capacity_from_All_Sources_Expression_MW
    (m : model) (d : list string) (i : index) : result expr :=
  if bool_decide (i ∈ LOCAL_CAPACITY_ZONE_PERIODS_WITH_REQUIREMENT m)
  then total_local_capacity_rule m d i
  else Raise (KeyError "Total_Local_Capacity_from_All_Sources_Expression_MW").

(** [local_capacity_requirement_rule(mod, z, p)]. *)
Definition local_capacity_requirement_rule (m : model) (d : list string)
    (z : string) (p : Z) : result outcome :=
  total <- Total_Local_Capacity_from_All_Sources_Expression_MW m d (z, p) ;;
  shortage <- var_getitem (Local_Capacity_Shortage_MW m) (z, p) ;;
  req <- param "local_capacity_requirement_mw"
           (local_capacity_requirement_mw m) (z, p) ;;
  Ok (Enforce (Ge (Add total shortage) (Num req))).

(** [add_model_components(m, d)]: the penalty parameter, the shortage
    variable, the indexed expression, whose rule runs at every index when
    the expression is built, and the constraint, in that order. *)
Definition add_model_components (m : model) (d : list string) : result components :=
  penalty <- Param "local_capacity_shortage_penalty_per_mw"
               (LOCAL_CAPACITY_ZONES m) NonNegativeReals
               (local_capacity_shortage_penalty_per_mw m) ;;
  totals <- mapM (total_local_capacity_rule m d)
              (LOCAL_CAPACITY_ZONE_PERIODS_WITH_REQUIREMENT m) ;;
  c <- Constraint (LOCAL_CAPACITY_ZONE_PERIODS_WITH_REQUIREMENT m)
         (fun zp : index => local_capacity_requirement_rule m d zp.1 zp.2) ;;
  Ok (Components [Local_Capacity_Shortage_MW m] c).

End LocalCapacityBalance.


(* ================================================================== *)
(** * modules/objective/min_total_cost.py and
      gridpath/objective/system/reserve_violation_penalties/frequency_response.py *)
(* ================================================================== *)

Module Objective.

(** What [getattr(mod, c)] finds under a name that is not a scalar
    expression of the model: a scalar variable or parameter, which [sum]
    adds like an expression, or another attribute (an indexed component, a
    set, a method), which [sum] cannot add. *)
Inductive attribute : Type :=
| Scalar
| NotSummable.

(** The scalar expressions of the model, by name, the list
    [total_cost_components] of the dynamic components [d], and the other
    attributes of the model.  The list is one shared object: every module
    appends to it, and the objective rule reads it when it is called.  A
    name that is defined as an expression replaces an attribute of the same
    name: a name is looked up among the expressions first. *)
Record state : Type := State {
  expressions : list string;
  total_cost_components : list string;
  other_attributes : gmap string attribute
}.

(** [m.<name> = Expression(rule=...)] followed by
    [d.total_cost_components.append("<name>")]. *)
Definition add_expression (name : string) (s : state) : state :=
  State (expressions s ++ [name]) (total_cost_components s) (other_attributes s).

Definition append_cost_component (name : string) (s : state) : state :=
  State (expressions s) (total_cost_components s ++ [name]) (other_attributes s).

Inductive sense : Type :=
| minimize
| maximize.

Record objective : Type := Objective {
  objective_expr : expr;
  objective_sense : sense
}.

(** [getattr(mod, c)]: the attribute named [c], as a term of a sum when it
    can be one; an [AttributeError] when the model has no such attribute. *)
Definition getattr (s : state) (c : string) : result (option expr) :=
  if bool_decide (c ∈ expressions s) then Ok (Some (Ref (Attr c)))
  else
    match other_attributes s !! c with
    | Some Scalar => Ok (Some (Ref (Attr c)))
    | Some NotSummable => Ok None
    | None => Raise (AttributeError c)
    end.

(** One addition of [sum]: a [TypeError] for an attribute it cannot add. *)
Definition summand (x : option expr) : result expr :=
  match x with
  | Some e => Ok e
  | None => Raise (TypeError "unsupported operand type(s) for +")
  end.

(** [total_cost_rule(mod)]: [sum] takes the attributes one by one from the
    generator and adds each before it asks for the next. *)
Definition total_cost_rule (s : state) : result expr :=
  es <- mapM (fun c => x <- getattr s c ;; summand x) (total_cost_components s) ;;
  Ok (py_sum es).

(** [m.Total_Cost = Objective(rule=total_cost_rule, sense=minimize)]; the
    rule runs when the objective is built. *)
Definition Total_Cost (s : state) : result objective :=
  e <- total_cost_rule s ;; Ok (Objective e minimize).

(** [add_model_components(m, d)] of [min_total_cost]. *)
Definition min_total_cost_add_model_components (s : state) : state :=
  let s1 := append_cost_component "Penalty_Costs"
              (add_expression "Penalty_Costs" s) in
  let s2 := append_cost_component "Total_Generation_Cost"
              (add_expression "Total_Generation_Cost" s1) in
  let s3 := append_cost_component "Total_Startup_Cost"
              (add_expression "Total_Startup_Cost" s2) in
  append_cost_component "Total_Shutdown_Cost"
    (add_expression "Total_Shutdown_Cost" s3).

Section FrequencyResponse.

(** [generic_add_model_components] is imported from
    [aggregate_reserve_violation_penalties], which is not among the sources;
    it is called with five component names. *)
Variable generic_add_model_components :
  state -> string -> string -> string -> string -> string -> state.

(** [add_model_components(m, d)] of [frequency_response]. *)
Definition frequency_response_add_model_components (s : state) : state :=
  let s1 := generic_add_model_components s
              "FREQUENCY_RESPONSE_BAS"
              "FREQUENCY_RESPONSE_BA_TIMEPOINTS"
              "Frequency_Response_Violation_MW"
              "frequency_response_violation_penalty_per_mw"
              "Frequency_Response_Penalty_Costs" in
  append_cost_component "Frequency_Response_Partial_Penalty_Costs"
    (add_expression "Frequency_Response_Partial_Penalty_Costs" s1).

End FrequencyResponse.

End Objective.


(* ================================================================== *)
(** * Small scenarios *)
(* ================================================================== *)

Module Examples.

(** One binary-retirement project, operational in three periods. *)
Definition fleet : GenRetBin.model :=
  GenRetBin.Model [2020; 2030; 2040]
    [("Coal", 2020); ("Coal", 2030); ("Coal", 2040)]
    (list_to_map [(("Coal", 2020), 100%Q); (("Coal", 2030), 100%Q);
                  (("Coal", 2040), 100%Q)])
    (list_to_map [(("Coal", 2020), 10%Q); (("Coal", 2030), 10%Q);
                  (("Coal", 2040), 10%Q)]).

(** The end-to-end scenario of the specification: two periods, one
    binary-retirement project with 100 MW and a fixed cost of 10 per MW-year
    in both periods. *)
Definition two_periods : GenRetBin.model :=
  GenRetBin.Model [1; 2]
    [("Gas", 1); ("Gas", 2)]
    (list_to_map [(("Gas", 1), 100%Q); (("Gas", 2), 100%Q)])
    (list_to_map [(("Gas", 1), 10%Q); (("Gas", 2), 10%Q)]).

(** One horizon of four one-hour timepoints in period 2020. *)
Definition one_day (boundary : string) : Temporal.index :=
  Temporal.Index
    {[ 1 := [1; 2; 3; 4] ]}
    {[ 1 := boundary ]}
    (list_to_map [(1, 2020); (2, 2020); (3, 2020); (4, 2020)])
    (list_to_map [(1, 1%Q); (2, 1%Q); (3, 1%Q); (4, 1%Q)]).

(** One storage project with one upward and one downward reserve variable. *)
Definition battery (boundary : string) : StorageGeneric.model :=
  StorageGeneric.Model (one_day boundary)
    (list_to_map [(1, 1); (2, 1); (3, 1); (4, 1)])
    [("Battery", 1); ("Battery", 2); ("Battery", 3); ("Battery", 4)]
    [("Battery", 2020)]
    ["Battery"]
    {[ "Battery" := 0.9%Q ]}
    {[ "Battery" := 0.9%Q ]}
    (list_to_map
       [("Reg_Up", [("Battery", 1); ("Battery", 2); ("Battery", 3); ("Battery", 4)]);
        ("Reg_Down", [("Battery", 1); ("Battery", 2); ("Battery", 3); ("Battery", 4)])]).

Definition battery_reserves : StorageGeneric.dynamic_components :=
  StorageGeneric.Dynamic {[ "Battery" := ["Reg_Up"] ]} {[ "Battery" := ["Reg_Down"] ]}.

(** Everything at rest. *)
Definition idle : valuation := fun _ => 0%Q.

(** The battery is empty and idle, has an energy capacity of 4 MWh and a
    power capacity of 10 MW, and offers 100 MW of downward reserve in every
    timepoint. *)
Definition overcommitted : valuation :=
  fun r =>
    match r with
    | Item "Reg_Down" _ => 100%Q
    | Item "Capacity_MW" _ => 10%Q
    | Item "Energy_Capacity_MWh" _ => 4%Q
    | _ => 0%Q
    end.

(** The battery, with a power capacity of 1 MW and an energy capacity of
    1 MWh, charges 1 MW in timepoint 1 and discharges 0.81 MW in timepoint
    2: after the losses, 0.9 MWh go in and 0.9 MWh come out. *)
Definition cycling : valuation :=
  fun r =>
    match r with
    | Item "Generic_Storage_Charge_MW" (_, 1) => 1%Q
    | Item "Generic_Storage_Discharge_MW" (_, 2) => 0.81%Q
    | Item "Starting_Energy_in_Generic_Storage_MWh" (_, 2) => 0.9%Q
    | Item "Capacity_MW" _ => 1%Q
    | Item "Energy_Capacity_MWh" _ => 1%Q
    | _ => 0%Q
    end.

(** A load of 2 MW is shifted up in timepoint 1 and down in timepoint 3, by
    a project with a capacity of 2 MW and an energy capacity of 2 MWh. *)
Definition shifting : valuation :=
  fun r =>
    match r with
    | Item "DR_Shift_Up_MW" (_, 1) => 2%Q
    | Item "DR_Shift_Down_MW" (_, 3) => 2%Q
    | Item "Capacity_MW" _ => 2%Q
    | Item "Energy_Capacity_MWh" _ => 2%Q
    | _ => 0%Q
    end.

(** One demand-response project on the same horizon. *)
Definition shifter : DR.model :=
  DR.Model (one_day "circular")
    (list_to_map [((1, "day"), 1); ((2, "day"), 1); ((3, "day"), 1);
                  ((4, "day"), 1)])
    {[ "Shift" := "day" ]}
    [("Shift", 1); ("Shift", 2); ("Shift", 3); ("Shift", 4)]
    [("Shift", 2020)]
    ["Shift"]
    [].

(** One local-capacity zone with a requirement of 50 MW, a shortage penalty
    of 1000 per MW and two registered contributions. *)
Definition zone : LocalCapacityBalance.model :=
  LocalCapacityBalance.Model ["Basin"] [("Basin", 2020)]
    {[ ("Basin", 2020) := 50%Q ]}
    {[ "Basin" := 1000%Q ]}
    (list_to_map
       [("Local_Capacity_Contribution_MW", [("Basin", 2020)]);
        ("Local_Capacity_Imports_MW", [("Basin", 2020)])])
    [].

Definition zone_provision : list string :=
  ["Local_Capacity_Contribution_MW"; "Local_Capacity_Imports_MW"].

(** A portfolio with one binary-retirement project, and period parameters
    for only one of the two periods 2020 and 2030 of the scenario. *)
Definition portfolio : list GenRetBin.project_row :=
  [GenRetBin.ProjectRow "Coal" "gen_ret_bin";
   GenRetBin.ProjectRow "Wind" "gen_new_lin"].

Definition only_2020 : list GenRetBin.period_params_row :=
  [GenRetBin.PeriodParamsRow "Coal" 2020 100 10].

End Examples.


(* ================================================================== *)
(** * Facts about the Pyomo layer *)
(* ================================================================== *)

Section PyomoFacts.

Lemma bind_Ok {A B : Type} (r : result A) (k : A -> result B) (b : B) :
  bind r k = Ok b -> exists a, r = Ok a /\ k a = Ok b.
Proof. destruct r as [a|e]; simpl; intros H; [eauto | discriminate]. Qed.

Lemma mapM_Ok_elem {A B : Type} (f : A -> result B) (l : list A) (ys : list B) (x : A) :
  mapM f l = Ok ys -> x ∈ l -> exists y, f x = Ok y /\ y ∈ ys.
Proof.
  revert ys. induction l as [|a l IH]; intros ys Hm Hx.
  - inversion Hx.
  - simpl in Hm.
    apply bind_Ok in Hm as (y & Hy & Hm).
    apply bind_Ok in Hm as (ys' & Hys & Hm).
    injection Hm as <-.
    apply elem_of_cons in Hx as [->|Hx].
    + exists y. split; [done | apply list_elem_of_here].
    + destruct (IH ys' Hys Hx) as (y' & ? & ?).
      exists y'. split; [done | by apply list_elem_of_further].
Qed.

Lemma mapM_Ok_fmap {A B : Type} (f : A -> result B) (g : A -> B) (l : list A) :
  (forall x, x ∈ l -> f x = Ok (g x)) -> mapM f l = Ok (g <$> l).
Proof.
  induction l as [|a l IH]; intros Hf; [done|].
  simpl. rewrite (Hf a) by apply list_elem_of_here. simpl.
  rewrite IH; [done|].
  intros x Hx. apply Hf. by apply list_elem_of_further.
Qed.

(** A constraint that was built holds the relation of every index whose rule
    did not skip. *)
Lemma Constraint_elem {I : Type} (idx : list I) (rule : I -> result outcome)
    (cs : list relation) (i : I) :
  Constraint idx rule = Ok cs -> i ∈ idx ->
  exists o, rule i = Ok o /\ forall c, o = Enforce c -> c ∈ cs.
Proof.
  unfold Constraint. intros H Hi.
  apply bind_Ok in H as (outs & Hm & H). injection H as <-.
  destruct (mapM_Ok_elem _ _ _ _ Hm Hi) as (o & Ho & Hin).
  exists o. split; [done|].
  intros c ->. apply list_elem_of_omap. exists (Enforce c). by split.
Qed.

Lemma foldl_Qplus_shift (a : Q) (qs : list Q) :
  (foldl Qplus a qs == a + foldl Qplus 0 qs)%Q.
Proof.
  revert a. induction qs as [|q qs IH]; intros a; simpl.
  - ring.
  - rewrite (IH (a + q)%Q), (IH (0 + q)%Q). ring.
Qed.

Lemma Qsum_cons (q : Q) (qs : list Q) : (Qsum (q :: qs) == q + Qsum qs)%Q.
Proof.
  unfold Qsum. simpl. rewrite foldl_Qplus_shift. ring.
Qed.

Lemma eval_foldl_Add (v : valuation) (a : expr) (es : list expr) :
  eval v (foldl Add a es) = foldl Qplus (eval v a) (eval v <$> es).
Proof.
  revert a. induction es as [|e es IH]; intros a; [done|].
  simpl. by rewrite IH.
Qed.

Lemma eval_py_sum (v : valuation) (es : list expr) :
  eval v (py_sum es) = Qsum (eval v <$> es).
Proof. unfold py_sum, Qsum. by rewrite eval_foldl_Add. Qed.

Lemma getitem_Ok (name : string) (idx : list index) (i : index) :
  i ∈ idx -> getitem name idx i = Ok (Ref (Item name i)).
Proof. intros H. unfold getitem. by rewrite bool_decide_eq_true_2. Qed.

Lemma getitem_Ok_inv (name : string) (idx : list index) (i : index) (e : expr) :
  getitem name idx i = Ok e -> i ∈ idx /\ e = Ref (Item name i).
Proof.
  unfold getitem. case_bool_decide as Hin; [|discriminate].
  intros E. injection E as <-. done.
Qed.

Lemma param_Ok `{Countable K} {V : Type} (name : string) (p : gmap K V) (k : K) (x : V) :
  param name p k = Ok x <-> p !! k = Some x.
Proof.
  unfold param. destruct (p !! k); split; intros E; try discriminate; congruence.
Qed.

Lemma mapM_Raise {A B : Type} (f : A -> result B) (l : list A) (e : exn) :
  mapM f l = Raise e -> exists x, x ∈ l /\ f x = Raise e.
Proof.
  induction l as [|a l IH]; simpl; [discriminate|].
  destruct (f a) as [y|e'] eqn:Ha; simpl.
  - destruct (mapM f l) as [ys|e'']; simpl; [discriminate|].
    intros E. destruct (IH E) as (x & Hx & Hfx).
    exists x. split; [by apply list_elem_of_further | done].
  - intros E. injection E as <-. exists a.
    split; [apply list_elem_of_here | done].
Qed.

Lemma mapM_Ok_all {A B : Type} (f : A -> result B) (l : list A) :
  (forall x, x ∈ l -> exists y, f x = Ok y) -> exists ys, mapM f l = Ok ys.
Proof.
  intros Hf. destruct (mapM f l) as [ys|e] eqn:E; [by exists ys|].
  apply mapM_Raise in E as (x & Hx & Hfx).
  destruct (Hf x Hx) as (y & Hy). congruence.
Qed.

Lemma mapM_Ok_elem_inv {A B : Type} (f : A -> result B) (l : list A)
    (ys : list B) (y : B) :
  mapM f l = Ok ys -> y ∈ ys -> exists x, x ∈ l /\ f x = Ok y.
Proof.
  revert ys. induction l as [|a l IH]; intros ys Hm Hy; simpl in Hm.
  - injection Hm as <-. inversion Hy.
  - apply bind_Ok in Hm as (b & Hb & Hm).
    apply bind_Ok in Hm as (ys' & Hys & Hm). injection Hm as <-.
    apply elem_of_cons in Hy as [->|Hy].
    + exists a. split; [apply list_elem_of_here | done].
    + destruct (IH ys' Hys Hy) as (x & Hx & Hfx).
      exists x. split; [by apply list_elem_of_further | done].
Qed.

Lemma Constraint_Raise {I : Type} (idx : list I) (rule : I -> result outcome)
    (e : exn) :
  Constraint idx rule = Raise e -> exists i, i ∈ idx /\ rule i = Raise e.
Proof.
  unfold Constraint. destruct (mapM rule idx) as [outs|e'] eqn:E; simpl;
    [discriminate|].
  intros E'. injection E' as <-. by apply mapM_Raise.
Qed.

Lemma Constraint_Ok_all {I : Type} (idx : list I) (rule : I -> result outcome) :
  (forall i, i ∈ idx -> exists o, rule i = Ok o) ->
  exists cs, Constraint idx rule = Ok cs.
Proof.
  intros H. unfold Constraint.
  destruct (mapM_Ok_all rule idx H) as (outs & ->). simpl. eauto.
Qed.

Lemma withinb_iff (d : domain) (q : Q) : withinb d q = true <-> within d q.
Proof.
  destruct d; simpl.
  - apply Qle_bool_iff.
  - rewrite orb_true_iff, !Qeq_bool_iff. done.
Qed.

(** A parameter is built exactly when every entry of its data has its key in
    the index set and its value in the domain. *)
Lemma Param_Ok `{Countable K} (name : string) (idx : list K) (d : domain)
    (data : gmap K Q) :
  Param name idx d data = Ok tt <->
  forall k q, data !! k = Some q -> k ∈ idx /\ within d q.
Proof.
  unfold Param. split.
  - intros Hb k q Hkq. apply bind_Ok in Hb as (us & Hus & _).
    assert ((k, q) ∈ map_to_list data) as Hin by (by apply elem_of_map_to_list).
    destruct (mapM_Ok_elem _ _ _ _ Hus Hin) as (u & Hu & _). simpl in Hu.
    case_bool_decide; [|discriminate].
    destruct (withinb d q) eqn:E; [|discriminate].
    split; [done | by apply withinb_iff].
  - intros Hall.
    destruct (mapM_Ok_all
                (fun kv : K * Q =>
                   if bool_decide (kv.1 ∈ idx) then
                     if withinb d kv.2 then Ok tt
                     else Raise (ValueError "Value not in parameter domain")
                   else Raise (KeyError name))
                (map_to_list data)) as (us & ->); [|done].
    intros [k q] Hin. apply elem_of_map_to_list in Hin.
    destruct (Hall k q Hin) as [Hk Hq]. simpl.
    rewrite bool_decide_eq_true_2 by done.
    rewrite (proj2 (withinb_iff d q) Hq). eauto.
Qed.

End PyomoFacts.

(** Membership in a concrete list, by evaluation. *)
Ltac decide_elem := apply (bool_decide_unpack _); vm_compute; exact I.

(** Splits a hypothesis [x <- r ;; k = Ok b] into its two steps. *)
Ltac inv_bind H :=
  let a := fresh "a" in
  let Ha := fresh "Ha" in
  apply bind_Ok in H as (a & Ha & H).


(* ================================================================== *)
(** * The periods of the temporal index *)
(* ================================================================== *)

Section TemporalFacts.

Lemma sorted_head_le (a : Z) (l : list Z) (x : Z) :
  StronglySorted Z.lt (a :: l) -> x ∈ a :: l -> a <= x.
Proof.
  intros Hs Hx. apply StronglySorted_inv in Hs as [_ Ha].
  rewrite Forall_forall in Ha.
  apply elem_of_cons in Hx as [->|Hx]; [lia|].
  specialize (Ha x Hx). lia.
Qed.

(** In a strictly ordered sequence every element but the head has a
    predecessor: the greatest element below it. *)
Lemma predecessor_sorted (l : list Z) (p : Z) :
  StronglySorted Z.lt l -> p ∈ l -> head l <> Some p ->
  exists q, Temporal.predecessor l p = Some q /\ q ∈ l /\ q < p /\
            forall x, x ∈ l -> x < p -> x <= q.
Proof.
  induction l as [|a rest IH]; intros Hs Hp Hh.
  - inversion Hp.
  - pose proof Hs as Hs0.
    apply StronglySorted_inv in Hs as [Hs Ha].
    rewrite Forall_forall in Ha.
    apply elem_of_cons in Hp as [->|Hp]; [by destruct Hh|].
    destruct rest as [|b r]; [inversion Hp|].
    simpl. case_bool_decide as Hb.
    + subst b. exists a. split; [done|].
      split; [apply list_elem_of_here|].
      split; [apply Ha, list_elem_of_here|].
      intros x Hx Hlt. apply elem_of_cons in Hx as [->|Hx]; [lia|].
      pose proof (sorted_head_le p r x Hs Hx). lia.
    + destruct IH as (q & Hq & Hqin & Hqlt & Hmax);
        [done | done | simpl; congruence |].
      exists q. split; [done|].
      split; [by apply list_elem_of_further|].
      split; [done|].
      intros x Hx Hlt. apply elem_of_cons in Hx as [->|Hx]; [|auto].
      specialize (Ha q Hqin). lia.
Qed.

End TemporalFacts.


(* ================================================================== *)
(** * Binary retirement *)
(* ================================================================== *)

Section GenRetBinFacts.

Import GenRetBin.

Lemma foldl_min_spec (a : Z) (l : list Z) :
  foldl Z.min a l ∈ a :: l /\ forall y, y ∈ a :: l -> foldl Z.min a l <= y.
Proof.
  revert a. induction l as [|b l IH]; intros a; simpl.
  - split; [apply list_elem_of_here|].
    intros y Hy. apply list_elem_of_singleton in Hy. lia.
  - destruct (IH (Z.min a b)) as [Hin Hle]. split.
    + apply elem_of_cons in Hin as [Hin|Hin].
      * rewrite Hin.
        destruct (Z.min_spec a b) as [[_ ->]|[_ ->]];
          [apply list_elem_of_here
          | apply list_elem_of_further, list_elem_of_here].
      * by do 2 apply list_elem_of_further.
    + intros y Hy.
      assert (foldl Z.min (Z.min a b) l <= Z.min a b) as Hm
        by apply Hle, list_elem_of_here.
      apply elem_of_cons in Hy as [->|Hy]; [lia|].
      apply elem_of_cons in Hy as [->|Hy]; [lia|].
      apply Hle. by apply list_elem_of_further.
Qed.

Lemma elem_of_OPR_PRDS_BY_GEN_RET_BIN (m : model) (g : string) (p : Z) :
  p ∈ OPR_PRDS_BY_GEN_RET_BIN m g <-> (g, p) ∈ GEN_RET_BIN_OPR_PRDS m.
Proof.
  unfold OPR_PRDS_BY_GEN_RET_BIN.
  rewrite elem_of_remove_dups, list_elem_of_fmap. split.
  - intros ([g' p'] & -> & H).
    apply list_elem_of_filter in H as [Hg H]. simpl in *. by subst.
  - intros H. exists (g, p). split; [done|].
    by apply list_elem_of_filter.
Qed.

Lemma elem_of_GEN_RET_BIN (m : model) (g : string) (p : Z) :
  (g, p) ∈ GEN_RET_BIN_OPR_PRDS m -> g ∈ GEN_RET_BIN m.
Proof.
  intros H. unfold GEN_RET_BIN.
  rewrite elem_of_remove_dups, list_elem_of_fmap. by exists (g, p).
Qed.

(** The first period of a project is the least of its operational periods. *)
Lemma gen_ret_bin_first_period_least (m : model) (g : string) (p : Z) :
  (g, p) ∈ GEN_RET_BIN_OPR_PRDS m ->
  exists gfirst,
    gen_ret_bin_first_period m g = Ok gfirst /\
    (g, gfirst) ∈ GEN_RET_BIN_OPR_PRDS m /\
    forall p', (g, p') ∈ GEN_RET_BIN_OPR_PRDS m -> gfirst <= p'.
Proof.
  intros Hp. unfold gen_ret_bin_first_period.
  rewrite bool_decide_eq_true_2 by (by eapply elem_of_GEN_RET_BIN).
  pose proof (elem_of_OPR_PRDS_BY_GEN_RET_BIN m g) as Hiff.
  destruct (OPR_PRDS_BY_GEN_RET_BIN m g) as [|q qs].
  - apply Hiff in Hp. inversion Hp.
  - simpl. destruct (foldl_min_spec q qs) as [Hin Hle].
    exists (foldl Z.min q qs). split; [done|].
    split; [by apply Hiff|].
    intros p' Hp'. by apply Hle, Hiff.
Qed.

Lemma first_period_least (periods : list Z) (x : Z) :
  Temporal.valid_periods periods -> x ∈ periods ->
  exists first, Temporal.first_period periods = Ok first /\
                head periods = Some first /\ first <= x.
Proof.
  intros Hs Hx. destruct periods as [|a l]; [inversion Hx|].
  exists a. repeat split. by eapply sorted_head_le.
Qed.

(** What [retire_forever_rule] returns at an operational period that is
    neither the first period nor the project's first period. *)
Lemma retire_forever_rule_enforced (m : model) (g : string) (p first gfirst prev : Z) :
  Temporal.first_period (PERIODS m) = Ok first ->
  gen_ret_bin_first_period m g = Ok gfirst ->
  (g, p) ∈ GEN_RET_BIN_OPR_PRDS m ->
  p <> first -> p <> gfirst ->
  Temporal.predecessor (PERIODS m) p = Some prev ->
  retire_forever_rule m g p =
    (rhs <- var_getitem (GenRetBin_Retire m) (g, prev) ;;
     Ok (Enforce (Ge (Ref (Item "GenRetBin_Retire" (g, p))) rhs))).
Proof.
  intros Hf Hg Hp Hnf Hng Hprev. unfold retire_forever_rule.
  rewrite Hf. simpl. rewrite bool_decide_eq_false_2 by done.
  rewrite Hg. simpl. rewrite bool_decide_eq_false_2 by done.
  unfold var_getitem at 1. simpl. rewrite getitem_Ok by done. simpl.
  unfold Temporal.prev_period. rewrite Hprev. done.
Qed.

(** What a binary-retirement module that was built consists of. *)
Lemma gen_ret_bin_built (m : model) (d d' : list string) (cm : components) :
  add_model_components m d = Ok (cm, d') ->
  Param "gen_ret_bin_capacity_mw" (GEN_RET_BIN_OPR_PRDS m) NonNegativeReals
    (gen_ret_bin_capacity_mw m) = Ok tt /\
  Param "gen_ret_bin_fixed_cost_per_mw_yr" (GEN_RET_BIN_OPR_PRDS m)
    NonNegativeReals (gen_ret_bin_fixed_cost_per_mw_yr m) = Ok tt /\
  exists forever,
    Constraint (GEN_RET_BIN_OPR_PRDS m)
      (fun gp => retire_forever_rule m gp.1 gp.2) = Ok forever /\
    cm = Components [GenRetBin_Retire m] forever.
Proof.
  intros Hb. unfold add_model_components in Hb.
  apply bind_Ok in Hb as ([] & Hcap & Hb).
  apply bind_Ok in Hb as ([] & Hcost & Hb).
  apply bind_Ok in Hb as (forever & Hf & Hb).
  injection Hb as <- _. eauto.
Qed.

End GenRetBinFacts.

Section RetireForever.

Import GenRetBin.

Variable m : model.
Variable g : string.

Hypothesis periods_ordered : Temporal.valid_periods (PERIODS m).
Hypothesis operational_periods_are_periods :
  forall q, (g, q) ∈ GEN_RET_BIN_OPR_PRDS m -> q ∈ PERIODS m.

Let retire (p : Z) : ref := Item "GenRetBin_Retire" (g, p).

(** The global first period, when operational, is the project's first. *)
Lemma first_period_is_project_first (p first gfirst : Z) :
  (g, p) ∈ GEN_RET_BIN_OPR_PRDS m ->
  Temporal.first_period (PERIODS m) = Ok first ->
  gen_ret_bin_first_period m g = Ok gfirst ->
  p = first -> p = gfirst.
Proof using periods_ordered operational_periods_are_periods.
  intros Hp Hf Hg ->.
  destruct (gen_ret_bin_first_period_least m g first Hp)
    as (gf & Hgf & Hin & Hle).
  assert (gf = gfirst) as -> by congruence.
  destruct (first_period_least (PERIODS m) gfirst periods_ordered
              (operational_periods_are_periods _ Hin)) as (f & Hf' & _ & Hfle).
  assert (f = first) as -> by congruence.
  specialize (Hle first Hp). lia.
Qed.

Variable cm : components.
Variable d d' : list string.
Variable v : valuation.

Hypothesis built : add_model_components m d = Ok (cm, d').
Hypothesis solution : feasible v cm.

(** In a model that was built, a period after the project's first has its
    predecessor among the project's operational periods, and retirement does
    not decrease from the predecessor. *)
Lemma retire_step (p : Z) :
  (g, p) ∈ GEN_RET_BIN_OPR_PRDS m ->
  (exists k, (g, k) ∈ GEN_RET_BIN_OPR_PRDS m /\ k < p) ->
  exists prev,
    (g, prev) ∈ GEN_RET_BIN_OPR_PRDS m /\ prev < p /\
    (forall x, x ∈ PERIODS m -> x < p -> x <= prev) /\
    (v (retire prev) <= v (retire p))%Q.
Proof using periods_ordered operational_periods_are_periods built solution.
  intros Hp (k & Hk & Hkp).
  destruct (gen_ret_bin_first_period_least m g p Hp) as (gfirst & Hg & Hgin & Hgle).
  destruct (first_period_least (PERIODS m) p periods_ordered
              (operational_periods_are_periods _ Hp)) as (first & Hf & Hhd & _).
  assert (p <> gfirst) as Hng by (specialize (Hgle k Hk); lia).
  assert (p <> first) as Hnf.
  { intros E. apply Hng. by eapply first_period_is_project_first. }
  destruct (predecessor_sorted (PERIODS m) p periods_ordered
              (operational_periods_are_periods _ Hp))
    as (prev & Hprev & Hin & Hlt & Hmax).
  { rewrite Hhd. congruence. }
  destruct (gen_ret_bin_built m d d' cm built) as (_ & _ & forever & Ha & Hcm).
  destruct (Constraint_elem _ _ _ (g, p) Ha Hp) as (o & Ho & Hcs).
  simpl in Ho.
  rewrite (retire_forever_rule_enforced m g p first gfirst prev) in Ho by done.
  apply bind_Ok in Ho as (rhs & Hrhs & Ho).
  apply getitem_Ok_inv in Hrhs as [Hprevin ->].
  exists prev. split; [done|]. split; [done|]. split; [done|].
  pose proof solution as [_ Hall]. rewrite Hcm in Hall. simpl in Hall.
  rewrite Forall_forall in Hall.
  injection Ho as <-.
  exact (Hall _ (Hcs _ eq_refl)).
Qed.

Lemma retire_monotone_bounded (n : nat) (k k' : Z) :
  (Z.to_nat (k' - k) <= n)%nat ->
  (g, k) ∈ GEN_RET_BIN_OPR_PRDS m -> (g, k') ∈ GEN_RET_BIN_OPR_PRDS m ->
  k < k' -> (v (retire k) <= v (retire k'))%Q.
Proof using periods_ordered operational_periods_are_periods built solution.
  revert k'. induction n as [|n IH]; intros k' Hn Hk Hk' Hlt; [lia|].
  destruct (retire_step k' Hk') as (prev & Hin & Hplt & Hmax & Hle);
    [by exists k|].
  specialize (Hmax k (operational_periods_are_periods _ Hk) Hlt).
  destruct (decide (k = prev)) as [->|Hne]; [done|].
  apply Qle_trans with (v (retire prev)); [|done].
  apply IH; [lia | done | done | lia].
Qed.

Lemma retire_binary (p : Z) :
  (g, p) ∈ GEN_RET_BIN_OPR_PRDS m ->
  (v (retire p) == 0)%Q \/ (v (retire p) == 1)%Q.
Proof using built solution.
  intros Hp.
  destruct (gen_ret_bin_built m d d' cm built) as (_ & _ & forever & _ & Hcm).
  pose proof solution as [Hvars _]. rewrite Hcm in Hvars. simpl in Hvars.
  apply Forall_cons_1 in Hvars as [Hr _].
  exact (Hr (g, p) Hp).
Qed.

Lemma retired_stays_retired (k k' : Z) :
  (g, k) ∈ GEN_RET_BIN_OPR_PRDS m -> (g, k') ∈ GEN_RET_BIN_OPR_PRDS m ->
  k < k' -> (v (retire k) == 1)%Q -> (v (retire k') == 1)%Q.
Proof using periods_ordered operational_periods_are_periods built solution.
  intros Hk Hk' Hlt H1.
  pose proof (retire_monotone_bounded (Z.to_nat (k' - k)) k k'
                (le_n _) Hk Hk' Hlt) as Hle.
  destruct (retire_binary k' Hk') as [H0|H]; [|done].
  rewrite H1, H0 in Hle. by compute in Hle.
Qed.

End RetireForever.




(* ================================================================== *)
(** * Capacity and cost of a binary-retirement project *)
(* ================================================================== *)

(** C2.  For a [gen_ret_bin] project and an operational period with
    specified capacity [cap] and fixed cost [cost], [capacity_rule] returns
    an expression whose value is [cap * (1 - retire)] and
    [capacity_cost_rule] one whose value is [cost * cap * (1 - retire)].  In
    the two-period scenario with 100 MW and a cost of 10 in both periods, a
    retirement that is 0 in period 1 and 1 in period 2 gives capacities 100
    and 0 and annualized costs 1000 and 0. *)
Theorem capacity_scaled_by_retirement (m : GenRetBin.model) (g : string) (p : Z)
    (cap cost : Q) :
  (g, p) ∈ GenRetBin.GEN_RET_BIN_OPR_PRDS m ->
  GenRetBin.gen_ret_bin_capacity_mw m !! (g, p) = Some cap ->
  GenRetBin.gen_ret_bin_fixed_cost_per_mw_yr m !! (g, p) = Some cost ->
  (exists capacity capacity_cost,
     GenRetBin.capacity_rule m g p = Ok capacity /\
     GenRetBin.capacity_cost_rule m g p = Ok capacity_cost /\
     forall v,
       (eval v capacity == cap * (1 - v (Item "GenRetBin_Retire" (g, p))))%Q /\
       (eval v capacity_cost
        == cost * cap * (1 - v (Item "GenRetBin_Retire" (g, p))))%Q) /\
  (exists capacity1 capacity2 cost1 cost2,
     GenRetBin.capacity_rule Examples.two_periods "Gas" 1 = Ok capacity1 /\
     GenRetBin.capacity_rule Examples.two_periods "Gas" 2 = Ok capacity2 /\
     GenRetBin.capacity_cost_rule Examples.two_periods "Gas" 1 = Ok cost1 /\
     GenRetBin.capacity_cost_rule Examples.two_periods "Gas" 2 = Ok cost2 /\
     forall v,
       (v (Item "GenRetBin_Retire" ("Gas", 1%Z)) == 0)%Q ->
       (v (Item "GenRetBin_Retire" ("Gas", 2%Z)) == 1)%Q ->
       (eval v capacity1 == 100)%Q /\ (eval v capacity2 == 0)%Q /\
       (eval v cost1 == 1000)%Q /\ (eval v cost2 == 0)%Q).
Proof.
  intros Hp Hcap Hcost. split.
  - exists (Mul (Num cap) (Sub (Num 1) (Ref (Item "GenRetBin_Retire" (g, p))))),
      (Mul (Mul (Num cost) (Num cap))
         (Sub (Num 1) (Ref (Item "GenRetBin_Retire" (g, p))))).
    unfold GenRetBin.capacity_rule, GenRetBin.capacity_cost_rule, var_getitem.
    rewrite (proj2 (param_Ok _ _ _ _) Hcap), (proj2 (param_Ok _ _ _ _) Hcost).
    simpl. rewrite getitem_Ok by done. simpl.
    split; [done|]. split; [done|].
    intros v. split; reflexivity.
  - do 4 eexists.
    split; [vm_compute; reflexivity|].
    split; [vm_compute; reflexivity|].
    split; [vm_compute; reflexivity|].
    split; [vm_compute; reflexivity|].
    intros v H1 H2. simpl. rewrite H1, H2.
    repeat split; reflexivity.
Qed.

Lemma capacity_scaled_by_retirement_witness :
  exists capacity capacity_cost,
    GenRetBin.capacity_rule Examples.two_periods "Gas" 2 = Ok capacity /\
    GenRetBin.capacity_cost_rule Examples.two_periods "Gas" 2 = Ok capacity_cost /\
    forall v,
      (eval v capacity == 100 * (1 - v (Item "GenRetBin_Retire" ("Gas", 2%Z))))%Q /\
      (eval v capacity_cost
       == 10 * 100 * (1 - v (Item "GenRetBin_Retire" ("Gas", 2%Z))))%Q.
Proof.
  apply (capacity_scaled_by_retirement Examples.two_periods "Gas" 2 100 10).
  - decide_elem.
  - vm_compute. reflexivity.
  - vm_compute. reflexivity.
Defined.


(* ================================================================== *)
(** * Generic storage *)
(* ================================================================== *)

Section StorageFacts.

Import StorageGeneric.

(** Every element of a sequence but its head has a predecessor in it. *)
Lemma predecessor_exists (l : list Z) (x : Z) :
  x ∈ l -> head l <> Some x ->
  exists q, Temporal.predecessor l x = Some q /\ q ∈ l.
Proof.
  induction l as [|a rest IH]; intros Hx Hh.
  - inversion Hx.
  - apply elem_of_cons in Hx as [->|Hx]; [by destruct Hh|].
    destruct rest as [|b r]; [inversion Hx|].
    simpl. case_bool_decide as Hb.
    + exists a. split; [done | apply list_elem_of_here].
    + destruct IH as (q & Hq & Hin); [done | simpl; congruence |].
      exists q. split; [done | by apply list_elem_of_further].
Qed.

Lemma div_by_Ok (e : expr) (q : Q) :
  ~ (q == 0)%Q -> div_by e q = Ok (Div e (Num q)).
Proof.
  intros Hq. unfold div_by.
  destruct (Qeq_bool q 0) eqn:E; [|done].
  by apply Qeq_bool_eq in E.
Qed.

Variable m : model.
Variable s : string.
Variable tmp h : Z.
Variable tmps : list Z.
Variable b : string.
Variable hours : Z -> Q.
Variable ch_eff dis_eff : Q.

Hypothesis horizon_of_tmp : horizon m !! tmp = Some h.
Hypothesis timepoints_of_h : Temporal.TIMEPOINTS_ON_HORIZON (tix m) !! h = Some tmps.
Hypothesis tmp_on_h : tmp ∈ tmps.
Hypothesis boundary_of_h : Temporal.boundary (tix m) !! h = Some b.

Lemma horizon_first_last :
  exists first last_, head tmps = Some first /\ last tmps = Some last_ /\
    Temporal.first_horizon_timepoint (tix m) h = Ok first /\
    Temporal.last_horizon_timepoint (tix m) h = Ok last_.
Proof using timepoints_of_h tmp_on_h.
  unfold Temporal.first_horizon_timepoint, Temporal.last_horizon_timepoint.
  rewrite (proj2 (param_Ok _ _ _ _) timepoints_of_h). simpl.
  destruct tmps as [|t ts] eqn:E; [inversion tmp_on_h|].
  destruct (last (t :: ts)) as [l|] eqn:El.
  - by exists t, l.
  - by apply last_None in El.
Qed.

Lemma first_of_linear_horizon_eq (first : Z) :
  head tmps = Some first ->
  first_of_linear_horizon m tmp =
    Ok (bool_decide (tmp = first) && bool_decide (b = "linear")).
Proof using horizon_of_tmp timepoints_of_h tmp_on_h boundary_of_h.
  intros Hh. unfold first_of_linear_horizon, Temporal.first_horizon_timepoint.
  rewrite (proj2 (param_Ok _ _ _ _) horizon_of_tmp). simpl.
  rewrite (proj2 (param_Ok _ _ _ _) timepoints_of_h). simpl.
  destruct tmps as [|t ts]; [discriminate|].
  injection Hh as ->. simpl.
  case_bool_decide; [|done].
  by rewrite (proj2 (param_Ok _ _ _ _) boundary_of_h).
Qed.

(** The previous timepoint of a timepoint that is not the first of a linear
    horizon: the last timepoint of the horizon for the first timepoint of a
    circular horizon, the predecessor on the horizon otherwise. *)
Lemma previous_timepoint_defined (first last_ : Z) :
  head tmps = Some first -> last tmps = Some last_ ->
  b = "circular" \/ b = "linear" ->
  ~ (tmp = first /\ b = "linear") ->
  exists prev,
    previous_timepoint m tmp = Ok prev /\ prev ∈ tmps /\
    (tmp = first -> prev = last_) /\
    (tmp <> first -> Temporal.predecessor tmps tmp = Some prev).
Proof using horizon_of_tmp timepoints_of_h tmp_on_h boundary_of_h.
  intros Hh Hl Hb Hn.
  destruct horizon_first_last as (f & l & Hh' & Hl' & Hfirst & Hlast).
  assert (f = first) as -> by congruence.
  assert (l = last_) as -> by congruence.
  unfold previous_timepoint, Temporal.previous_timepoint.
  rewrite (proj2 (param_Ok _ _ _ _) horizon_of_tmp). cbn [bind].
  rewrite Hfirst. cbn [bind].
  case_bool_decide as Hf.
  - rewrite (proj2 (param_Ok _ _ _ _) boundary_of_h). cbn [bind].
    destruct Hb as [-> | ->]; [|by destruct Hn].
    rewrite bool_decide_eq_true_2 by done.
    rewrite Hlast. cbn [bind]. exists last_.
    split; [done|]. split; [by apply last_Some_elem_of|]. by split.
  - rewrite (proj2 (param_Ok _ _ _ _) timepoints_of_h). cbn [bind].
    destruct (predecessor_exists tmps tmp) as (q & Hq & Hin);
      [done | rewrite Hh; congruence |].
    rewrite Hq. exists q. by repeat split.
Qed.

Hypothesis operational_on_h :
  forall t, t ∈ tmps -> (s, t) ∈ STORAGE_GENERIC_PROJECT_OPERATIONAL_TIMEPOINTS m.
Hypothesis hours_on_h :
  forall t, t ∈ tmps ->
    Temporal.number_of_hours_in_timepoint (tix m) !! t = Some (hours t).
Hypothesis charging :
  storage_generic_charging_efficiency m !! s = Some ch_eff.
Hypothesis discharging :
  storage_generic_discharging_efficiency m !! s = Some dis_eff.
Hypothesis discharging_nonzero : ~ (dis_eff == 0)%Q.

Lemma energy_tracking_rule_enforced (first prev : Z) :
  head tmps = Some first ->
  ~ (tmp = first /\ b = "linear") ->
  previous_timepoint m tmp = Ok prev -> prev ∈ tmps ->
  energy_tracking_rule m s tmp =
    Ok (Enforce
          (Eq (Ref (Item "Starting_Energy_in_Generic_Storage_MWh" (s, tmp)))
             (Sub (Add (Ref (Item "Starting_Energy_in_Generic_Storage_MWh"
                               (s, prev)))
                     (Mul (Mul (Ref (Item "Generic_Storage_Charge_MW" (s, prev)))
                             (Num (hours prev)))
                        (Num ch_eff)))
                (Div (Mul (Ref (Item "Generic_Storage_Discharge_MW" (s, prev)))
                        (Num (hours prev)))
                   (Num dis_eff))))).
Proof using All.
  intros Hh Hn Hprev Hin. unfold energy_tracking_rule.
  rewrite (first_of_linear_horizon_eq first Hh). simpl.
  destruct (bool_decide (tmp = first) && bool_decide (b = "linear")) eqn:E.
  - apply andb_true_iff in E as [E1 E2].
    apply bool_decide_eq_true_1 in E1, E2. by destruct Hn.
  - unfold var_getitem. simpl.
    rewrite Hprev. simpl.
    rewrite !getitem_Ok by auto. simpl.
    unfold number_of_hours_in_timepoint, charging_efficiency,
      discharging_efficiency.
    rewrite (proj2 (param_Ok _ _ _ _) (hours_on_h prev Hin)). simpl.
    rewrite (proj2 (param_Ok _ _ _ _) charging). simpl.
    rewrite (proj2 (param_Ok _ _ _ _) discharging). simpl.
    rewrite div_by_Ok by done. done.
Qed.

End StorageFacts.

(** What a storage module that was built consists of. *)
Lemma storage_built (m : StorageGeneric.model)
    (d : StorageGeneric.dynamic_components) (cm : components) :
  StorageGeneric.add_module_specific_components m d = Ok cm ->
  exists c1 c2 c3 c4 c5 c6 c7 c8,
    Constraint (StorageGeneric.STORAGE_GENERIC_PROJECT_OPERATIONAL_TIMEPOINTS m)
      (fun st : index => StorageGeneric.energy_tracking_rule m st.1 st.2) = Ok c7 /\
    Constraint (StorageGeneric.STORAGE_GENERIC_PROJECT_OPERATIONAL_TIMEPOINTS m)
      (fun st : index => StorageGeneric.max_energy_in_storage_rule m st.1 st.2)
    = Ok c8 /\
    cm = Components
           [StorageGeneric.Generic_Storage_Discharge_MW m;
            StorageGeneric.Generic_Storage_Charge_MW m;
            StorageGeneric.Starting_Energy_in_Generic_Storage_MWh m]
           (c1 ++ c2 ++ c3 ++ c4 ++ c5 ++ c6 ++ c7 ++ c8).
Proof.
  intros Hb. unfold StorageGeneric.add_module_specific_components in Hb.
  apply bind_Ok in Hb as (c1 & H1 & Hb). apply bind_Ok in Hb as (c2 & H2 & Hb).
  apply bind_Ok in Hb as (c3 & H3 & Hb). apply bind_Ok in Hb as (c4 & H4 & Hb).
  apply bind_Ok in Hb as (c5 & H5 & Hb). apply bind_Ok in Hb as (c6 & H6 & Hb).
  apply bind_Ok in Hb as (c7 & H7 & Hb). apply bind_Ok in Hb as (c8 & H8 & Hb).
  injection Hb as <-. by exists c1, c2, c3, c4, c5, c6, c7, c8.
Qed.

(** C3.  For a storage project [s] operational on the whole horizon [h] of
    the timepoint [tmp]: [energy_tracking_rule] skips exactly when [tmp] is
    the first timepoint of [h] and the boundary of [h] is linear; otherwise
    it returns the relation [soc[tmp] = soc[prev] + charge[prev] *
    hours[prev] * charging_efficiency - discharge[prev] * hours[prev] /
    discharging_efficiency], where [prev] is the previous timepoint of
    [tmp]: the predecessor of [tmp] on the horizon, and the last timepoint
    of the horizon when [tmp] is the first timepoint (of a circular
    horizon).  A storage module that was built has that relation among its
    constraints, so the recurrence holds in every feasible solution. *)
Theorem energy_tracking_recurrence (m : StorageGeneric.model) (s : string)
    (tmp h : Z) (tmps : list Z) (b : string) (hours : Z -> Q)
    (ch_eff dis_eff : Q) :
  StorageGeneric.horizon m !! tmp = Some h ->
  Temporal.TIMEPOINTS_ON_HORIZON (StorageGeneric.tix m) !! h = Some tmps ->
  tmp ∈ tmps ->
  Temporal.boundary (StorageGeneric.tix m) !! h = Some b ->
  b = "circular" \/ b = "linear" ->
  (forall t, t ∈ tmps ->
     (s, t) ∈ StorageGeneric.STORAGE_GENERIC_PROJECT_OPERATIONAL_TIMEPOINTS m) ->
  (forall t, t ∈ tmps ->
     Temporal.number_of_hours_in_timepoint (StorageGeneric.tix m) !! t
     = Some (hours t)) ->
  StorageGeneric.storage_generic_charging_efficiency m !! s = Some ch_eff ->
  StorageGeneric.storage_generic_discharging_efficiency m !! s = Some dis_eff ->
  ~ (dis_eff == 0)%Q ->
  exists first last_,
    head tmps = Some first /\ last tmps = Some last_ /\
    (StorageGeneric.energy_tracking_rule m s tmp = Ok Skip
     <-> tmp = first /\ b = "linear") /\
    (~ (tmp = first /\ b = "linear") ->
     exists prev c,
       StorageGeneric.previous_timepoint m tmp = Ok prev /\
       (tmp = first -> prev = last_) /\
       (tmp <> first -> Temporal.predecessor tmps tmp = Some prev) /\
       StorageGeneric.energy_tracking_rule m s tmp = Ok (Enforce c) /\
       (forall v,
          holds v c <->
          (v (Item "Starting_Energy_in_Generic_Storage_MWh" (s, tmp))
           == v (Item "Starting_Energy_in_Generic_Storage_MWh" (s, prev))
              + v (Item "Generic_Storage_Charge_MW" (s, prev))
                * hours prev * ch_eff
              - v (Item "Generic_Storage_Discharge_MW" (s, prev))
                * hours prev / dis_eff)%Q) /\
       (forall d cm,
          StorageGeneric.add_module_specific_components m d = Ok cm ->
          c ∈ constraints cm /\
          forall v,
            feasible v cm ->
            (v (Item "Starting_Energy_in_Generic_Storage_MWh" (s, tmp))
             == v (Item "Starting_Energy_in_Generic_Storage_MWh" (s, prev))
                + v (Item "Generic_Storage_Charge_MW" (s, prev))
                  * hours prev * ch_eff
                - v (Item "Generic_Storage_Discharge_MW" (s, prev))
                  * hours prev / dis_eff)%Q)).
Proof.
  intros Hhz Htmps Hin Hb Hmode Hop Hhours Hch Hdis Hnz.
  destruct (horizon_first_last m tmp h tmps Htmps Hin)
    as (first & last_ & Hh & Hl & _ & _).
  exists first, last_. split; [done|]. split; [done|].
  assert (~ (tmp = first /\ b = "linear") ->
          exists prev,
            StorageGeneric.previous_timepoint m tmp = Ok prev /\
            (tmp = first -> prev = last_) /\
            (tmp <> first -> Temporal.predecessor tmps tmp = Some prev) /\
            StorageGeneric.energy_tracking_rule m s tmp =
              Ok (Enforce
                    (Eq (Ref (Item "Starting_Energy_in_Generic_Storage_MWh"
                                (s, tmp)))
                       (Sub (Add (Ref (Item "Starting_Energy_in_Generic_Storage_MWh"
                                         (s, prev)))
                               (Mul (Mul (Ref (Item "Generic_Storage_Charge_MW"
                                                 (s, prev)))
                                       (Num (hours prev)))
                                  (Num ch_eff)))
                          (Div (Mul (Ref (Item "Generic_Storage_Discharge_MW"
                                            (s, prev)))
                                  (Num (hours prev)))
                             (Num dis_eff)))))) as Henf.
  { intros Hn.
    destruct (previous_timepoint_defined m tmp h tmps b Hhz Htmps Hin Hb
                first last_ Hh Hl Hmode Hn) as (prev & Hprev & Hpin & H1 & H2).
    exists prev. split; [done|]. split; [done|]. split; [done|].
    by apply (energy_tracking_rule_enforced m s tmp h tmps b hours ch_eff dis_eff
                Hhz Htmps Hin Hb Hop Hhours Hch Hdis Hnz first prev). }
  split.
  - split.
    + intros Hskip.
      destruct (decide (tmp = first /\ b = "linear")) as [|Hn]; [done|].
      destruct (Henf Hn) as (prev & _ & _ & _ & Hrule).
      rewrite Hrule in Hskip. discriminate.
    + intros [-> ->]. unfold StorageGeneric.energy_tracking_rule.
      rewrite (first_of_linear_horizon_eq m first h tmps "linear"
                 Hhz Htmps Hin Hb first Hh).
      by rewrite !bool_decide_eq_true_2.
  - intros Hn. destruct (Henf Hn) as (prev & Hprev & H1 & H2 & Hrule).
    eexists prev, _. split; [done|]. split; [done|]. split; [done|].
    split; [exact Hrule|].
    split; [intros v; simpl; reflexivity|].
    intros d cm Hbuilt.
    destruct (storage_built m d cm Hbuilt)
      as (c1 & c2 & c3 & c4 & c5 & c6 & c7 & c8 & H7 & _ & ->).
    destruct (Constraint_elem _ _ _ (s, tmp) H7 (Hop tmp Hin)) as (o & Ho & Hmem).
    simpl in Ho. rewrite Hrule in Ho. injection Ho as <-.
    specialize (Hmem _ eq_refl).
    assert (Eq (Ref (Item "Starting_Energy_in_Generic_Storage_MWh" (s, tmp)))
              (Sub (Add (Ref (Item "Starting_Energy_in_Generic_Storage_MWh"
                                (s, prev)))
                      (Mul (Mul (Ref (Item "Generic_Storage_Charge_MW" (s, prev)))
                              (Num (hours prev)))
                         (Num ch_eff)))
                 (Div (Mul (Ref (Item "Generic_Storage_Discharge_MW" (s, prev)))
                         (Num (hours prev)))
                    (Num dis_eff)))
            ∈ c1 ++ c2 ++ c3 ++ c4 ++ c5 ++ c6 ++ c7 ++ c8) as Hc.
    { rewrite !elem_of_app. tauto. }
    split; [exact Hc|].
    intros v [_ Hcons]. simpl in Hcons. rewrite Forall_forall in Hcons.
    exact (Hcons _ Hc).
Qed.

Lemma energy_tracking_recurrence_witness :
  exists cm c,
    StorageGeneric.add_module_specific_components (Examples.battery "circular")
      Examples.battery_reserves = Ok cm /\
    StorageGeneric.previous_timepoint (Examples.battery "circular") 1 = Ok 4 /\
    StorageGeneric.energy_tracking_rule (Examples.battery "circular") "Battery" 1
    = Ok (Enforce c) /\
    c ∈ constraints cm /\
    forall v,
      feasible v cm ->
      (v (Item "Starting_Energy_in_Generic_Storage_MWh" ("Battery", 1%Z))
       == v (Item "Starting_Energy_in_Generic_Storage_MWh" ("Battery", 4%Z))
          + v (Item "Generic_Storage_Charge_MW" ("Battery", 4%Z)) * 1 * 0.9
          - v (Item "Generic_Storage_Discharge_MW" ("Battery", 4%Z)) * 1 / 0.9)%Q.
Proof.
  assert (exists cm,
            StorageGeneric.add_module_specific_components
              (Examples.battery "circular") Examples.battery_reserves = Ok cm)
    as (cm & Hcm).
  { vm_compute. eexists. reflexivity. }
  exists cm.
  destruct (energy_tracking_recurrence (Examples.battery "circular") "Battery" 1 1
              [1; 2; 3; 4] "circular" (fun _ => 1%Q) 0.9%Q 0.9%Q)
    as (first & last_ & Hh & Hl & _ & Henf).
  - vm_compute. reflexivity.
  - vm_compute. reflexivity.
  - decide_elem.
  - vm_compute. reflexivity.
  - by left.
  - intros t Ht.
    repeat (apply elem_of_cons in Ht as [->|Ht]; [decide_elem|]).
    inversion Ht.
  - intros t Ht.
    repeat (apply elem_of_cons in Ht as [->|Ht]; [vm_compute; reflexivity|]).
    inversion Ht.
  - vm_compute. reflexivity.
  - vm_compute. reflexivity.
  - intros H. vm_compute in H. discriminate H.
  - injection Hh as <-. injection Hl as <-.
    destruct Henf as (prev & c & Hprev & H1 & _ & Hrule & _ & Hbuilt).
    { intros [_ H]. discriminate H. }
    rewrite (H1 eq_refl) in Hprev, Hbuilt.
    destruct (Hbuilt _ cm Hcm) as [Hc Hsol].
    exists c. split; [exact Hcm|]. split; [exact Hprev|].
    split; [exact Hrule|]. split; [exact Hc | exact Hsol].
Defined.

Section Feasibility.

Lemma withinb_sound (d : domain) (q : Q) : withinb d q = true -> within d q.
Proof.
  destruct d; simpl.
  - apply Qle_bool_iff.
  - intros H. apply orb_true_iff in H as [H|H]; apply Qeq_bool_eq in H; auto.
Qed.

Lemma holdsb_sound (v : valuation) (c : relation) : holdsb v c = true -> holds v c.
Proof.
  destruct c; simpl; first [apply Qle_bool_iff | apply Qeq_bool_eq].
Qed.

Lemma feasibleb_sound (v : valuation) (c : components) :
  feasibleb v c = true -> feasible v c.
Proof.
  unfold feasibleb, feasible. intros H.
  apply andb_true_iff in H as [Hv Hc].
  rewrite forallb_forall in Hv, Hc. split; apply Forall_forall.
  - intros x Hx i Hi. apply list_elem_of_In in Hx, Hi.
    specialize (Hv x Hx). unfold respectsb in Hv.
    rewrite forallb_forall in Hv. by apply withinb_sound, Hv.
  - intros r Hr. apply list_elem_of_In in Hr. by apply holdsb_sound, Hc.
Qed.

End Feasibility.

(** C6.  In every feasible solution of a storage model that was built, the
    state of charge of every storage project in every operational timepoint
    is nonnegative and at most the project's energy capacity in the period
    of the timepoint; the bound is the relation that
    [max_energy_in_storage_rule] returns. *)
Theorem state_of_charge_bounds (m : StorageGeneric.model)
    (d : StorageGeneric.dynamic_components) (cm : components) (v : valuation)
    (s : string) (tmp : Z) :
  StorageGeneric.add_module_specific_components m d = Ok cm ->
  feasible v cm ->
  (s, tmp) ∈ StorageGeneric.STORAGE_GENERIC_PROJECT_OPERATIONAL_TIMEPOINTS m ->
  exists prd,
    Temporal.period (StorageGeneric.tix m) !! tmp = Some prd /\
    StorageGeneric.max_energy_in_storage_rule m s tmp =
      Ok (Enforce (Le (Ref (Item "Starting_Energy_in_Generic_Storage_MWh" (s, tmp)))
                      (Ref (Item "Energy_Capacity_MWh" (s, prd))))) /\
    (0 <= v (Item "Starting_Energy_in_Generic_Storage_MWh" (s, tmp)))%Q /\
    (v (Item "Starting_Energy_in_Generic_Storage_MWh" (s, tmp))
     <= v (Item "Energy_Capacity_MWh" (s, prd)))%Q.
Proof.
  intros Hb [Hvars Hcons] Hin.
  unfold StorageGeneric.add_module_specific_components in Hb.
  apply bind_Ok in Hb as (c1 & _ & Hb). apply bind_Ok in Hb as (c2 & _ & Hb).
  apply bind_Ok in Hb as (c3 & _ & Hb). apply bind_Ok in Hb as (c4 & _ & Hb).
  apply bind_Ok in Hb as (c5 & _ & Hb). apply bind_Ok in Hb as (c6 & _ & Hb).
  apply bind_Ok in Hb as (c7 & _ & Hb). apply bind_Ok in Hb as (c8 & H8 & Hb).
  injection Hb as <-. simpl in Hvars, Hcons.
  destruct (Constraint_elem _ _ _ (s, tmp) H8 Hin) as (o & Ho & Hmem).
  simpl in Ho. unfold StorageGeneric.max_energy_in_storage_rule in Ho |- *.
  unfold var_getitem in Ho |- *. simpl in Ho |- *.
  rewrite getitem_Ok in Ho |- * by done. simpl in Ho |- *.
  apply bind_Ok in Ho as (prd & Hprd & Ho). rewrite Hprd. simpl.
  apply bind_Ok in Ho as (cap & Hcap & Ho). rewrite Hcap. simpl.
  apply getitem_Ok_inv in Hcap as [_ ->].
  injection Ho as <-.
  exists prd. split; [by apply param_Ok in Hprd|]. split; [done|]. split.
  - apply Forall_cons_1 in Hvars as [_ Hvars].
    apply Forall_cons_1 in Hvars as [_ Hvars].
    apply Forall_cons_1 in Hvars as [Hsoc _].
    exact (Hsoc (s, tmp) Hin).
  - rewrite Forall_forall in Hcons.
    apply (Hcons (Le (Ref (Item "Starting_Energy_in_Generic_Storage_MWh" (s, tmp)))
                     (Ref (Item "Energy_Capacity_MWh" (s, prd))))).
    rewrite !elem_of_app. do 7 right. by apply Hmem.
Qed.

Lemma state_of_charge_bounds_witness :
  exists prd,
    Temporal.period (StorageGeneric.tix (Examples.battery "linear")) !! 2 = Some prd /\
    StorageGeneric.max_energy_in_storage_rule (Examples.battery "linear") "Battery" 2 =
      Ok (Enforce (Le (Ref (Item "Starting_Energy_in_Generic_Storage_MWh" ("Battery", 2)))
                      (Ref (Item "Energy_Capacity_MWh" ("Battery", prd))))) /\
    (0 <= Examples.idle (Item "Starting_Energy_in_Generic_Storage_MWh" ("Battery", 2%Z)))%Q /\
    (Examples.idle (Item "Starting_Energy_in_Generic_Storage_MWh" ("Battery", 2%Z))
     <= Examples.idle (Item "Energy_Capacity_MWh" ("Battery", prd)))%Q.
Proof.
  assert (exists cm,
            StorageGeneric.add_module_specific_components
              (Examples.battery "linear") Examples.battery_reserves = Ok cm /\
            feasibleb Examples.idle cm = true) as (cm & Hcm & Hf).
  { vm_compute. eexists. split; reflexivity. }
  apply (state_of_charge_bounds (Examples.battery "linear")
           Examples.battery_reserves cm Examples.idle "Battery" 2).
  - exact Hcm.
  - by apply feasibleb_sound.
  - decide_elem.
Defined.

(** C5.  [max_footroom_energy_rule] sums the project's headroom variables,
    not its footroom variables, and bounds them by the power capacity
    [Capacity_MW], not by the energy capacity.  For a battery with the
    upward reserve [Reg_Up] and the downward reserve [Reg_Down], the
    relation it returns does not mention [Reg_Down]; it holds for an empty,
    idle battery of 4 MWh that offers 100 MW of downward reserve for one
    hour, although 100 * 1 * 0.9 MWh exceeds the room that is left. *)
Theorem footroom_energy_rule_sums_headroom :
  exists c,
    StorageGeneric.max_footroom_energy_rule (Examples.battery "linear")
      Examples.battery_reserves "Battery" 2 = Ok (Enforce c) /\
    c = Le (Mul (Mul (Add (Num 0) (Ref (Item "Reg_Up" ("Battery", 2))))
                   (Num 1))
              (Num 0.9))
           (Add (Sub (Sub (Ref (Item "Capacity_MW" ("Battery", 2020)))
                        (Ref (Item "Starting_Energy_in_Generic_Storage_MWh"
                                ("Battery", 2))))
                   (Mul (Mul (Ref (Item "Generic_Storage_Charge_MW"
                                     ("Battery", 2)))
                           (Num 1))
                      (Num 0.9)))
              (Div (Mul (Ref (Item "Generic_Storage_Discharge_MW"
                                ("Battery", 2)))
                      (Num 1))
                 (Num 0.9))) /\
    holds Examples.overcommitted c /\
    ~ (Examples.overcommitted (Item "Reg_Down" ("Battery", 2%Z)) * 1 * 0.9
       <= Examples.overcommitted (Item "Energy_Capacity_MWh" ("Battery", 2020%Z))
          - Examples.overcommitted
              (Item "Starting_Energy_in_Generic_Storage_MWh" ("Battery", 2%Z))
          - Examples.overcommitted
              (Item "Generic_Storage_Charge_MW" ("Battery", 2%Z)) * 1 * 0.9
          + Examples.overcommitted
              (Item "Generic_Storage_Discharge_MW" ("Battery", 2%Z)) * 1 / 0.9)%Q.
Proof.
  eexists. split; [vm_compute; reflexivity|].
  split; [reflexivity|]. split.
  - vm_compute. discriminate.
  - intros H. vm_compute in H. by apply H.
Qed.


(* ================================================================== *)
(** * Demand response *)
(* ================================================================== *)

Section DRFacts.

Import DR.

Lemma append_assoc (a b c : string) : (a +:+ b) +:+ c = a +:+ (b +:+ c).
Proof.
  induction a as [|x a IH]; [reflexivity|].
  change (String x ((a +:+ b) +:+ c) = String x (a +:+ (b +:+ c))).
  by rewrite IH.
Qed.

(** What a demand-response module that was built consists of. *)
Lemma dr_built (m : model) (cm : components) :
  add_module_specific_components m = Ok cm ->
  exists hrzs c1 c2 c3 c4,
    DR_OPR_HRZS m = Ok hrzs /\
    Constraint (DR_OPR_TMPS m) (fun pt : index => max_shift_up_rule m pt.1 pt.2)
    = Ok c1 /\
    Constraint (DR_OPR_TMPS m) (fun pt : index => max_shift_down_rule m pt.1 pt.2)
    = Ok c2 /\
    Constraint hrzs (fun ph : index => energy_balance_rule m ph.1 ph.2) = Ok c3 /\
    Constraint hrzs (fun ph : index => energy_budget_rule m ph.1 ph.2) = Ok c4 /\
    cm = Components [DR_Shift_Up_MW m; DR_Shift_Down_MW m] (c1 ++ c2 ++ c3 ++ c4).
Proof.
  intros Hb. unfold add_module_specific_components in Hb.
  apply bind_Ok in Hb as (hrzs & Hh & Hb).
  apply bind_Ok in Hb as (c1 & H1 & Hb). apply bind_Ok in Hb as (c2 & H2 & Hb).
  apply bind_Ok in Hb as (c3 & H3 & Hb). apply bind_Ok in Hb as (c4 & H4 & Hb).
  injection Hb as <-. by exists hrzs, c1, c2, c3, c4.
Qed.

(** A horizon on which a demand-response project has an operational
    timepoint is one of its horizons in [DR_OPR_HRZS]. *)
Lemma elem_of_DR_OPR_HRZS (m : model) (hrzs : list index) (g : string)
    (tmp : Z) (bt : string) (h : Z) :
  DR_OPR_HRZS m = Ok hrzs ->
  g ∈ DR m -> (g, tmp) ∈ PROJECT_OPERATIONAL_TIMEPOINTS m ->
  balancing_type_project m !! g = Some bt ->
  horizon m !! (tmp, bt) = Some h ->
  (g, h) ∈ hrzs.
Proof.
  unfold DR_OPR_HRZS. intros H Hdr Hgt Hbt Hh.
  apply bind_Ok in H as (hs & Hhs & H). injection H as <-.
  rewrite elem_of_remove_dups.
  assert ((g, tmp) ∈ filter (fun gt : index => gt.1 ∈ DR m)
                       (PROJECT_OPERATIONAL_TIMEPOINTS m)) as Hin
    by (by apply list_elem_of_filter).
  destruct (mapM_Ok_elem _ _ _ _ Hhs Hin) as (y & Hy & Hyin).
  simpl in Hy.
  rewrite (proj2 (param_Ok _ _ _ _) Hbt) in Hy. cbn [bind] in Hy.
  rewrite (proj2 (param_Ok _ _ _ _) Hh) in Hy. cbn [bind] in Hy.
  by injection Hy as <-.
Qed.

Variable m : model.
Variable p : string.
Variable h : Z.
Variable tmps : list Z.
Variable hours : Z -> Q.

Hypothesis timepoints_of_h :
  Temporal.TIMEPOINTS_ON_HORIZON (tix m) !! h = Some tmps.
Hypothesis operational_on_h : forall t, t ∈ tmps -> (p, t) ∈ DR_OPR_TMPS m.

Lemma energy_balance_rule_enforced :
  energy_balance_rule m p h =
    Ok (Enforce
          (Eq (py_sum ((fun t => Ref (Item "DR_Shift_Up_MW" (p, t))) <$> tmps))
              (py_sum ((fun t => Ref (Item "DR_Shift_Down_MW" (p, t))) <$> tmps)))).
Proof using timepoints_of_h operational_on_h.
  unfold energy_balance_rule, TIMEPOINTS_ON_HORIZON.
  rewrite (proj2 (param_Ok _ _ _ _) timepoints_of_h). cbn [bind].
  rewrite (mapM_Ok_fmap _ (fun t => Ref (Item "DR_Shift_Up_MW" (p, t)))).
  2: { intros t Ht. unfold var_getitem. simpl. by rewrite getitem_Ok by auto. }
  cbn [bind].
  rewrite (mapM_Ok_fmap _ (fun t => Ref (Item "DR_Shift_Down_MW" (p, t)))).
  2: { intros t Ht. unfold var_getitem. simpl. by rewrite getitem_Ok by auto. }
  done.
Qed.

Hypothesis hours_on_h :
  forall t, t ∈ tmps ->
    Temporal.number_of_hours_in_timepoint (tix m) !! t = Some (hours t).

Lemma energy_budget_rule_enforced (first prd : Z) :
  head tmps = Some first ->
  Temporal.period (tix m) !! first = Some prd ->
  (p, prd) ∈ PROJECT_OPERATIONAL_PERIODS m ->
  energy_budget_rule m p h =
    Ok (Enforce
          (Eq (py_sum ((fun t => Mul (Ref (Item "DR_Shift_Up_MW" (p, t)))
                                   (Num (hours t))) <$> tmps))
              (Ref (Item "Energy_Capacity_MWh" (p, prd))))).
Proof using timepoints_of_h operational_on_h hours_on_h.
  intros Hh Hprd Hin.
  unfold energy_budget_rule, TIMEPOINTS_ON_HORIZON,
    Temporal.first_horizon_timepoint.
  rewrite (proj2 (param_Ok _ _ _ _) timepoints_of_h). cbn [bind].
  rewrite (mapM_Ok_fmap _ (fun t => Mul (Ref (Item "DR_Shift_Up_MW" (p, t)))
                                      (Num (hours t)))).
  2: { intros t Ht. unfold var_getitem, number_of_hours_in_timepoint. simpl.
       rewrite getitem_Ok by auto. cbn [bind].
       by rewrite (proj2 (param_Ok _ _ _ _) (hours_on_h t Ht)). }
  cbn [bind]. destruct tmps as [|t ts]; [discriminate|].
  injection Hh as ->. cbn [bind].
  unfold period. rewrite (proj2 (param_Ok _ _ _ _) Hprd). cbn [bind].
  unfold Energy_Capacity_MWh. by rewrite getitem_Ok by done.
Qed.

End DRFacts.

(** C4.  For a demand-response project [p] and a horizon [h] it operates on
    ([h] is the horizon, for the balancing type of [p], of an operational
    timepoint of [p]), with [p] operational on the whole horizon:
    [energy_balance_rule] returns a relation that holds exactly when the sum
    of shift-up over the timepoints of [h] equals the sum of shift-down over
    the same timepoints, and [energy_budget_rule] one that holds exactly
    when the sum of shift-up times the timepoint's hours equals the budget
    of the horizon, the project's energy capacity in the period of the first
    timepoint of [h].  A demand-response module that was built has both
    relations among its constraints, so both equations hold in every
    feasible solution. *)
Theorem dr_energy_balance_and_budget (m : DR.model) (p : string) (tmp : Z)
    (bt : string) (h : Z) (tmps : list Z) (hours : Z -> Q) (first prd : Z) :
  p ∈ DR.DR m ->
  (p, tmp) ∈ DR.PROJECT_OPERATIONAL_TIMEPOINTS m ->
  DR.balancing_type_project m !! p = Some bt ->
  DR.horizon m !! (tmp, bt) = Some h ->
  Temporal.TIMEPOINTS_ON_HORIZON (DR.tix m) !! h = Some tmps ->
  (forall t, t ∈ tmps -> (p, t) ∈ DR.DR_OPR_TMPS m) ->
  (forall t, t ∈ tmps ->
     Temporal.number_of_hours_in_timepoint (DR.tix m) !! t = Some (hours t)) ->
  head tmps = Some first ->
  Temporal.period (DR.tix m) !! first = Some prd ->
  (p, prd) ∈ DR.PROJECT_OPERATIONAL_PERIODS m ->
  exists balance budget,
    DR.energy_balance_rule m p h = Ok (Enforce balance) /\
    DR.energy_budget_rule m p h = Ok (Enforce budget) /\
    (forall v,
       (holds v balance <->
        (Qsum ((fun t => v (Item "DR_Shift_Up_MW" (p, t))) <$> tmps)
         == Qsum ((fun t => v (Item "DR_Shift_Down_MW" (p, t))) <$> tmps))%Q) /\
       (holds v budget <->
        (Qsum ((fun t => v (Item "DR_Shift_Up_MW" (p, t)) * hours t) <$> tmps)
         == v (Item "Energy_Capacity_MWh" (p, prd)))%Q)) /\
    (forall cm,
       DR.add_module_specific_components m = Ok cm ->
       balance ∈ constraints cm /\ budget ∈ constraints cm /\
       forall v,
         feasible v cm ->
         (Qsum ((fun t => v (Item "DR_Shift_Up_MW" (p, t))) <$> tmps)
          == Qsum ((fun t => v (Item "DR_Shift_Down_MW" (p, t))) <$> tmps))%Q /\
         (Qsum ((fun t => v (Item "DR_Shift_Up_MW" (p, t)) * hours t) <$> tmps)
          == v (Item "Energy_Capacity_MWh" (p, prd)))%Q).
Proof.
  intros Hdr Hop0 Hbt Hhz Htmps Hop Hhours Hh Hprd Hin.
  pose proof (energy_balance_rule_enforced m p h tmps Htmps Hop) as Hbal.
  pose proof (energy_budget_rule_enforced m p h tmps hours Htmps Hop Hhours
                first prd Hh Hprd Hin) as Hbud.
  eexists _, _. split; [exact Hbal|]. split; [exact Hbud|].
  assert (forall v,
            (holds v (Eq (py_sum ((fun t => Ref (Item "DR_Shift_Up_MW" (p, t)))
                                    <$> tmps))
                         (py_sum ((fun t => Ref (Item "DR_Shift_Down_MW" (p, t)))
                                    <$> tmps))) <->
             (Qsum ((fun t => v (Item "DR_Shift_Up_MW" (p, t))) <$> tmps)
              == Qsum ((fun t => v (Item "DR_Shift_Down_MW" (p, t))) <$> tmps))%Q) /\
            (holds v (Eq (py_sum ((fun t => Mul (Ref (Item "DR_Shift_Up_MW" (p, t)))
                                              (Num (hours t))) <$> tmps))
                         (Ref (Item "Energy_Capacity_MWh" (p, prd)))) <->
             (Qsum ((fun t => v (Item "DR_Shift_Up_MW" (p, t)) * hours t) <$> tmps)
              == v (Item "Energy_Capacity_MWh" (p, prd)))%Q)) as Hsem.
  { intros v. simpl. rewrite !eval_py_sum, <- !list_fmap_compose.
    split; reflexivity. }
  split; [exact Hsem|].
  intros cm Hb.
  apply dr_built in Hb as (hrzs & c1 & c2 & c3 & c4 & Hhrzs & _ & _ & H3 & H4 & ->).
  pose proof (elem_of_DR_OPR_HRZS m hrzs p tmp bt h Hhrzs Hdr Hop0 Hbt Hhz) as Hph.
  destruct (Constraint_elem _ _ _ (p, h) H3 Hph) as (o3 & Ho3 & Hm3).
  destruct (Constraint_elem _ _ _ (p, h) H4 Hph) as (o4 & Ho4 & Hm4).
  simpl in Ho3, Ho4. rewrite Hbal in Ho3. rewrite Hbud in Ho4.
  injection Ho3 as <-. injection Ho4 as <-.
  specialize (Hm3 _ eq_refl). specialize (Hm4 _ eq_refl). simpl.
  assert (forall c, c ∈ c3 \/ c ∈ c4 -> c ∈ c1 ++ c2 ++ c3 ++ c4) as Hany.
  { intros c Hc. rewrite !elem_of_app. tauto. }
  split; [apply Hany; by left|]. split; [apply Hany; by right|].
  intros v [_ Hcons]. simpl in Hcons. rewrite Forall_forall in Hcons.
  split.
  - apply (proj1 (Hsem v)), Hcons, Hany. by left.
  - apply (proj2 (Hsem v)), Hcons, Hany. by right.
Qed.

Lemma dr_energy_balance_and_budget_witness :
  exists cm balance budget,
    DR.add_module_specific_components Examples.shifter = Ok cm /\
    DR.energy_balance_rule Examples.shifter "Shift" 1 = Ok (Enforce balance) /\
    DR.energy_budget_rule Examples.shifter "Shift" 1 = Ok (Enforce budget) /\
    balance ∈ constraints cm /\ budget ∈ constraints cm /\
    forall v,
      feasible v cm ->
      (Qsum ((fun t => v (Item "DR_Shift_Up_MW" ("Shift", t)))
               <$> [1%Z; 2%Z; 3%Z; 4%Z])
       == Qsum ((fun t => v (Item "DR_Shift_Down_MW" ("Shift", t)))
                  <$> [1%Z; 2%Z; 3%Z; 4%Z]))%Q /\
      (Qsum ((fun t => v (Item "DR_Shift_Up_MW" ("Shift", t)) * 1)
               <$> [1%Z; 2%Z; 3%Z; 4%Z])
       == v (Item "Energy_Capacity_MWh" ("Shift", 2020%Z)))%Q.
Proof.
  assert (exists cm, DR.add_module_specific_components Examples.shifter = Ok cm)
    as (cm & Hcm).
  { vm_compute. eexists. reflexivity. }
  exists cm.
  destruct (dr_energy_balance_and_budget Examples.shifter "Shift" 3 "day" 1
              [1; 2; 3; 4] (fun _ => 1%Q) 1 2020)
    as (balance & budget & Hbal & Hbud & _ & Hbuilt).
  - decide_elem.
  - decide_elem.
  - vm_compute. reflexivity.
  - vm_compute. reflexivity.
  - vm_compute. reflexivity.
  - intros t Ht.
    repeat (apply elem_of_cons in Ht as [->|Ht]; [decide_elem|]).
    inversion Ht.
  - intros t Ht.
    repeat (apply elem_of_cons in Ht as [->|Ht]; [vm_compute; reflexivity|]).
    inversion Ht.
  - reflexivity.
  - vm_compute. reflexivity.
  - decide_elem.
  - exists balance, budget.
    destruct (Hbuilt cm Hcm) as (H3 & H4 & Hsol).
    split; [exact Hcm|]. split; [exact Hbal|]. split; [exact Hbud|].
    split; [exact H3|]. split; [exact H4 | exact Hsol].
Defined.

(** C10.  [fuel_burn_rule] and [startup_shutdown_rule] never return a value:
    [fuel_burn_rule] raises a [ValueError] whose message names the project
    when the project is a fuel project and is the caller's message
    otherwise; [startup_shutdown_rule] raises a [ValueError] whose message
    names the project, whatever the model, project and timepoint. *)
Theorem dr_rules_always_raise (m : DR.model) (p : string) (tmp : Z)
    (error_message : string) :
  DR.fuel_burn_rule m p tmp error_message =
    Raise (ValueError (if bool_decide (p ∈ DR.FUEL_PROJECTS m)
                       then DR.fuel_message p else error_message)) /\
  DR.startup_shutdown_rule m p tmp =
    Raise (ValueError (DR.startup_shutdown_message p)) /\
  (forall e, DR.fuel_burn_rule m p tmp error_message <> Ok e) /\
  (forall e, DR.startup_shutdown_rule m p tmp <> Ok e) /\
  (exists before after, DR.fuel_message p = before +:+ p +:+ after) /\
  (exists before after, DR.startup_shutdown_message p = before +:+ p +:+ after).
Proof.
  split; [|split; [|split; [|split; [|split]]]].
  - unfold DR.fuel_burn_rule. by case_bool_decide.
  - done.
  - intros e. unfold DR.fuel_burn_rule. by case_bool_decide.
  - done.
  - exists ("ERROR! Shiftable load projects should not use fuel."
            +:+ DR.newline +:+ "Check input data for project '"),
      ("'" +:+ DR.newline +:+ "and change its fuel to '.' (no value).").
    unfold DR.fuel_message, DR.check_input_data.
    by rewrite !append_assoc.
  - exists ("ERROR! Shiftable load projects should not incur startup/shutdown costs."
            +:+ DR.newline +:+ "Check input data for project '"),
      ("'" +:+ DR.newline
       +:+ "and change its startup/shutdown costs to '.' (no value).").
    unfold DR.startup_shutdown_message, DR.check_input_data.
    by rewrite !append_assoc.
Qed.


(* ================================================================== *)
(** * Local capacity balance *)
(* ================================================================== *)

Section LocalCapacityFacts.

Import LocalCapacityBalance.

Lemma Qsum_fmap_le {A : Type} (f g : A -> Q) (l : list A) :
  (forall x, (f x <= g x)%Q) -> (Qsum (f <$> l) <= Qsum (g <$> l))%Q.
Proof.
  intros Hfg. induction l as [|a l IH]; [by compute|].
  rewrite !fmap_cons, !Qsum_cons. by apply Qplus_le_compat.
Qed.

Lemma total_local_capacity_rule_Ok (m : model) (d : list string) (i : index) :
  (forall c, c ∈ d -> exists idx, indexed_components m !! c = Some idx /\ i ∈ idx) ->
  total_local_capacity_rule m d i = Ok (py_sum ((fun c => Ref (Item c i)) <$> d)).
Proof.
  intros Hd. unfold total_local_capacity_rule.
  rewrite (mapM_Ok_fmap _ (fun c => Ref (Item c i))); [done|].
  intros c Hc. destruct (Hd c Hc) as (idx & Hidx & Hin).
  unfold getattr_item. rewrite Hidx. by apply getitem_Ok.
Qed.

(** What a local capacity balance that was built consists of. *)
Lemma local_capacity_built (m : model) (d : list string) (cm : components) :
  add_model_components m d = Ok cm ->
  Param "local_capacity_shortage_penalty_per_mw" (LOCAL_CAPACITY_ZONES m)
    NonNegativeReals (local_capacity_shortage_penalty_per_mw m) = Ok tt /\
  exists totals cs,
    mapM (total_local_capacity_rule m d)
      (LOCAL_CAPACITY_ZONE_PERIODS_WITH_REQUIREMENT m) = Ok totals /\
    Constraint (LOCAL_CAPACITY_ZONE_PERIODS_WITH_REQUIREMENT m)
      (fun zp : index => local_capacity_requirement_rule m d zp.1 zp.2) = Ok cs /\
    cm = Components [Local_Capacity_Shortage_MW m] cs.
Proof.
  intros Hb. unfold add_model_components in Hb.
  apply bind_Ok in Hb as ([] & Hpen & Hb).
  apply bind_Ok in Hb as (totals & Htot & Hb).
  apply bind_Ok in Hb as (cs & Hcs & Hb).
  injection Hb as <-. split; [done|]. by exists totals, cs.
Qed.

End LocalCapacityFacts.

(** C7.  For a zone [z] and a period [p] with a requirement, when every
    registered provision component has an item at [(z, p)]:
    [local_capacity_requirement_rule] returns a relation that holds exactly
    when the sum of the registered components at [(z, p)] plus the shortage
    is at least the requirement; the shortage variable is declared at
    [(z, p)] and is nonnegative; and whatever the other values are, some
    nonnegative shortage satisfies the relation.  A local capacity balance
    that was built declares the shortage variable and has that relation
    among its constraints, so in every feasible solution the shortage is
    nonnegative and the provision plus the shortage covers the
    requirement. *)
Theorem local_capacity_balance (m : LocalCapacityBalance.model) (d : list string)
    (z : string) (p : Z) (req : Q) :
  (z, p) ∈ LocalCapacityBalance.LOCAL_CAPACITY_ZONE_PERIODS_WITH_REQUIREMENT m ->
  LocalCapacityBalance.local_capacity_requirement_mw m !! (z, p) = Some req ->
  (forall c, c ∈ d ->
     exists idx, LocalCapacityBalance.indexed_components m !! c = Some idx /\
                 (z, p) ∈ idx) ->
  exists c,
    LocalCapacityBalance.local_capacity_requirement_rule m d z p = Ok (Enforce c) /\
    (forall v,
       holds v c <->
       (req <= Qsum ((fun name => v (Item name (z, p))) <$> d)
               + v (Item "Local_Capacity_Shortage_MW" (z, p)))%Q) /\
    (forall v,
       respects v (LocalCapacityBalance.Local_Capacity_Shortage_MW m) ->
       (0 <= v (Item "Local_Capacity_Shortage_MW" (z, p)))%Q) /\
    (forall v,
       exists shortage,
         (0 <= shortage)%Q /\
         holds (update v (Item "Local_Capacity_Shortage_MW" (z, p)) shortage) c) /\
    (forall cm,
       LocalCapacityBalance.add_model_components m d = Ok cm ->
       Var "Local_Capacity_Shortage_MW"
         (LocalCapacityBalance.LOCAL_CAPACITY_ZONE_PERIODS_WITH_REQUIREMENT m)
         NonNegativeReals ∈ variables cm /\
       c ∈ constraints cm /\
       forall v,
         feasible v cm ->
         (0 <= v (Item "Local_Capacity_Shortage_MW" (z, p)))%Q /\
         (req <= Qsum ((fun name => v (Item name (z, p))) <$> d)
                 + v (Item "Local_Capacity_Shortage_MW" (z, p)))%Q).
Proof.
  intros Hin Hreq Hd.
  exists (Ge (Add (py_sum ((fun c => Ref (Item c (z, p))) <$> d))
                (Ref (Item "Local_Capacity_Shortage_MW" (z, p))))
            (Num req)).
  assert (forall v,
            holds v (Ge (Add (py_sum ((fun c => Ref (Item c (z, p))) <$> d))
                           (Ref (Item "Local_Capacity_Shortage_MW" (z, p))))
                       (Num req)) <->
            (req <= Qsum ((fun name => v (Item name (z, p))) <$> d)
                    + v (Item "Local_Capacity_Shortage_MW" (z, p)))%Q) as Hsem.
  { intros v. simpl. rewrite eval_py_sum, <- list_fmap_compose. reflexivity. }
  assert (LocalCapacityBalance.local_capacity_requirement_rule m d z p
          = Ok (Enforce
                  (Ge (Add (py_sum ((fun c => Ref (Item c (z, p))) <$> d))
                         (Ref (Item "Local_Capacity_Shortage_MW" (z, p))))
                     (Num req)))) as Hrule.
  { unfold LocalCapacityBalance.local_capacity_requirement_rule,
      LocalCapacityBalance.Total_Local_Capacity_from_All_Sources_Expression_MW.
    rewrite bool_decide_eq_true_2 by done.
    rewrite (total_local_capacity_rule_Ok m d (z, p) Hd). cbn [bind].
    unfold var_getitem. simpl. rewrite getitem_Ok by done. cbn [bind].
    by rewrite (proj2 (param_Ok _ _ _ _) Hreq). }
  split; [exact Hrule|]. split; [exact Hsem|].
  split; [intros v Hv; exact (Hv (z, p) Hin)|].
  split.
  - intros v.
    set (r := Item "Local_Capacity_Shortage_MW" (z, p)).
    set (base := Qsum ((fun name => update v r 0 (Item name (z, p))) <$> d)).
    assert (forall q, (0 <= q)%Q ->
              (base <= Qsum ((fun name => update v r q (Item name (z, p))) <$> d))%Q)
      as Hmono.
    { intros q Hq. apply Qsum_fmap_le. intros name. unfold update.
      case_bool_decide; [done | apply Qle_refl]. }
    assert (forall q, update v r q r = q) as Hr.
    { intros q. unfold update. by rewrite bool_decide_eq_true_2. }
    destruct (Qlt_le_dec base req) as [Hlt|Hge].
    + exists (req - base)%Q.
      assert (0 <= req - base)%Q as Hpos.
      { apply (proj1 (Qle_minus_iff base req)). by apply Qlt_le_weak. }
      split; [done|]. apply Hsem. fold r. rewrite Hr.
      apply Qle_trans with (base + (req - base))%Q.
      * assert (req == base + (req - base))%Q as Heq by ring.
        rewrite <- Heq. apply Qle_refl.
      * apply Qplus_le_compat; [by apply Hmono | apply Qle_refl].
    + exists 0%Q. split; [apply Qle_refl|]. apply Hsem. fold r. rewrite Hr.
      apply Qle_trans with base; [done|].
      rewrite Qplus_0_r. apply Hmono, Qle_refl.
  - intros cm Hb.
    destruct (local_capacity_built m d cm Hb) as (_ & totals & cs & _ & Hcs & ->).
    destruct (Constraint_elem _ _ _ (z, p) Hcs Hin) as (o & Ho & Hmem).
    simpl in Ho. rewrite Hrule in Ho. injection Ho as <-.
    specialize (Hmem _ eq_refl). simpl.
    split; [apply list_elem_of_here|]. split; [exact Hmem|].
    intros v [Hvars Hcons]. simpl in Hvars, Hcons.
    apply Forall_cons_1 in Hvars as [Hshort _].
    rewrite Forall_forall in Hcons.
    split; [exact (Hshort (z, p) Hin)|].
    apply Hsem. exact (Hcons _ Hmem).
Qed.

Lemma local_capacity_balance_witness :
  exists cm c,
    LocalCapacityBalance.add_model_components Examples.zone Examples.zone_provision
    = Ok cm /\
    LocalCapacityBalance.local_capacity_requirement_rule Examples.zone
      Examples.zone_provision "Basin" 2020 = Ok (Enforce c) /\
    Var "Local_Capacity_Shortage_MW" [("Basin", 2020)] NonNegativeReals
    ∈ variables cm /\
    c ∈ constraints cm /\
    forall v,
      feasible v cm ->
      (0 <= v (Item "Local_Capacity_Shortage_MW" ("Basin", 2020%Z)))%Q /\
      (50 <= Qsum ((fun name => v (Item name ("Basin", 2020%Z)))
                     <$> Examples.zone_provision)
              + v (Item "Local_Capacity_Shortage_MW" ("Basin", 2020%Z)))%Q.
Proof.
  assert (exists cm,
            LocalCapacityBalance.add_model_components Examples.zone
              Examples.zone_provision = Ok cm) as (cm & Hcm).
  { vm_compute. eexists. reflexivity. }
  exists cm.
  destruct (local_capacity_balance Examples.zone Examples.zone_provision
              "Basin" 2020 50) as (c & Hrule & _ & _ & _ & Hbuilt).
  - decide_elem.
  - vm_compute. reflexivity.
  - intros c Hc. unfold Examples.zone_provision in Hc.
    repeat (apply elem_of_cons in Hc as [->|Hc];
            [exists [("Basin", 2020)];
             split; [vm_compute; reflexivity | decide_elem]|]).
    inversion Hc.
  - exists c. destruct (Hbuilt cm Hcm) as (Hvar & Hc & Hsol).
    split; [exact Hcm|]. split; [exact Hrule|].
    split; [exact Hvar|]. split; [exact Hc | exact Hsol].
Defined.


(* ================================================================== *)
(** * The objective *)
(* ================================================================== *)

Section ObjectiveFacts.

Import Objective.

Lemma total_cost_rule_Ok (s : state) :
  (forall c, c ∈ total_cost_components s -> c ∈ expressions s) ->
  total_cost_rule s =
    Ok (py_sum ((fun c => Ref (Attr c)) <$> total_cost_components s)).
Proof.
  intros Hs. unfold total_cost_rule.
  rewrite (mapM_Ok_fmap _ (fun c => Ref (Attr c))); [done|].
  intros c Hc. unfold getattr. by rewrite bool_decide_eq_true_2 by auto.
Qed.

(** Registering an expression keeps every registered name defined. *)
Lemma register_defined (name : string) (s : state) :
  (forall c, c ∈ total_cost_components s -> c ∈ expressions s) ->
  forall c,
    c ∈ total_cost_components (append_cost_component name (add_expression name s)) ->
    c ∈ expressions (append_cost_component name (add_expression name s)).
Proof.
  intros Hs c. simpl. rewrite !elem_of_app. intros [Hc|Hc]; auto.
Qed.

End ObjectiveFacts.

(** C8.  When every registered name is an expression of the model, the
    objective [Total_Cost] is built, its sense is [minimize], and its value
    is the sum of the expressions named in [total_cost_components] at that
    time.  [min_total_cost] registers its four expressions and
    [frequency_response] its partial-penalty expression by appending their
    names to that list, and every name they register is defined. *)
Theorem objective_sums_registered_costs
    (generic_add_model_components :
       Objective.state -> string -> string -> string -> string -> string
       -> Objective.state)
    (s : Objective.state) :
  (forall c, c ∈ Objective.total_cost_components s -> c ∈ Objective.expressions s) ->
  (exists obj,
     Objective.Total_Cost s = Ok obj /\
     Objective.objective_sense obj = Objective.minimize /\
     forall v,
       eval v (Objective.objective_expr obj)
       = Qsum ((fun c => v (Attr c)) <$> Objective.total_cost_components s)) /\
  (Objective.total_cost_components (Objective.min_total_cost_add_model_components s)
   = Objective.total_cost_components s
     ++ ["Penalty_Costs"; "Total_Generation_Cost"; "Total_Startup_Cost";
         "Total_Shutdown_Cost"] /\
   forall c,
     c ∈ Objective.total_cost_components
           (Objective.min_total_cost_add_model_components s) ->
     c ∈ Objective.expressions (Objective.min_total_cost_add_model_components s)) /\
  (Objective.total_cost_components
     (Objective.frequency_response_add_model_components
        generic_add_model_components s)
   = Objective.total_cost_components
       (generic_add_model_components s
          "FREQUENCY_RESPONSE_BAS" "FREQUENCY_RESPONSE_BA_TIMEPOINTS"
          "Frequency_Response_Violation_MW"
          "frequency_response_violation_penalty_per_mw"
          "Frequency_Response_Penalty_Costs")
     ++ ["Frequency_Response_Partial_Penalty_Costs"] /\
   "Frequency_Response_Partial_Penalty_Costs"
   ∈ Objective.expressions
       (Objective.frequency_response_add_model_components
          generic_add_model_components s)).
Proof.
  intros Hs. split; [|split].
  - exists (Objective.Objective
              (py_sum ((fun c => Ref (Attr c)) <$> Objective.total_cost_components s))
              Objective.minimize).
    unfold Objective.Total_Cost. rewrite (total_cost_rule_Ok s Hs).
    split; [done|]. split; [done|].
    intros v. simpl. by rewrite eval_py_sum, <- list_fmap_compose.
  - split.
    + unfold Objective.min_total_cost_add_model_components. simpl.
      by rewrite <- !app_assoc.
    + unfold Objective.min_total_cost_add_model_components.
      by do 4 apply register_defined.
  - split; [done|].
    unfold Objective.frequency_response_add_model_components. simpl.
    rewrite elem_of_app. right. apply list_elem_of_here.
Qed.

Lemma objective_sums_registered_costs_witness :
  exists obj,
    Objective.Total_Cost
      (Objective.min_total_cost_add_model_components (Objective.State [] [] ∅))
    = Ok obj /\
    Objective.objective_sense obj = Objective.minimize /\
    forall v,
      eval v (Objective.objective_expr obj)
      = Qsum ((fun c => v (Attr c))
                <$> ["Penalty_Costs"; "Total_Generation_Cost";
                     "Total_Startup_Cost"; "Total_Shutdown_Cost"]).
Proof.
  refine (proj1 (objective_sums_registered_costs
                   (fun s _ _ _ _ _ => s)
                   (Objective.min_total_cost_add_model_components
                      (Objective.State [] [] ∅)) _)).
  intros c Hc. simpl in Hc |- *. exact Hc.
Defined.


(* ================================================================== *)
(** * Loading the inputs of binary retirement *)
(* ================================================================== *)

Section InputFacts.

Import GenRetBin.

Lemma foldl_gen_ret_bin_projects (acc : list string) (projects : list project_row) :
  foldl (fun acc row =>
           if bool_decide (pr_capacity_type row = "gen_ret_bin")
           then acc ++ [pr_project row] else acc) acc projects
  = acc ++ (pr_project <$>
              filter (fun row => pr_capacity_type row = "gen_ret_bin") projects).
Proof.
  revert acc. induction projects as [|row projects IH]; intros acc; simpl.
  - by rewrite app_nil_r.
  - rewrite IH. case_bool_decide.
    + rewrite filter_cons_True by done. by rewrite <- app_assoc.
    + by rewrite filter_cons_False by done.
Qed.

Lemma elem_of_determine_gen_ret_bin_projects (projects : list project_row) (g : string) :
  g ∈ determine_gen_ret_bin_projects projects <->
  exists row, row ∈ projects /\ pr_project row = g /\
              pr_capacity_type row = "gen_ret_bin".
Proof.
  unfold determine_gen_ret_bin_projects.
  rewrite foldl_gen_ret_bin_projects. simpl.
  rewrite list_elem_of_fmap. split.
  - intros (row & -> & Hrow). apply list_elem_of_filter in Hrow as [? ?].
    by exists row.
  - intros (row & Hrow & <- & Hty). exists row. split; [done|].
    by apply list_elem_of_filter.
Qed.

Lemma foldl_period_params_step (gens : list string) (acc : period_params)
    (rows : list period_params_row) :
  generator_period_list (foldl (period_params_step gens) acc rows)
  = generator_period_list acc
      ++ ((fun row => (pp_project row, pp_period row))
            <$> filter (fun row => pp_project row ∈ gens) rows).
Proof.
  revert acc. induction rows as [|row rows IH]; intros acc; simpl.
  - by rewrite app_nil_r.
  - rewrite IH. unfold period_params_step. case_bool_decide.
    + rewrite filter_cons_True by done. simpl. by rewrite <- app_assoc.
    + by rewrite filter_cons_False by done.
Qed.

Lemma elem_of_missing_projects (gens gen_w_params : list string) (g : string) :
  g ∈ missing_projects gens gen_w_params <-> g ∈ gens /\ g ∉ gen_w_params.
Proof.
  unfold missing_projects. rewrite elem_of_remove_dups, list_elem_of_filter.
  tauto.
Qed.

Lemma elem_of_gen_w_params (gens : list string) (rows : list period_params_row)
    (g : string) :
  g ∈ gens ->
  (g ∈ ((fun row => (pp_project row, pp_period row))
          <$> filter (fun row => pp_project row ∈ gens) rows).*1
   <-> exists row, row ∈ rows /\ pp_project row = g).
Proof.
  intros Hg. rewrite list_elem_of_fmap. split.
  - intros ([g' p'] & -> & Hgp). apply list_elem_of_fmap in Hgp as (row & E & Hrow).
    apply list_elem_of_filter in Hrow as [_ Hrow].
    injection E as -> ->. by exists row.
  - intros (row & Hrow & <-). exists (pp_project row, pp_period row).
    split; [done|]. apply list_elem_of_fmap. exists row. split; [done|].
    by apply list_elem_of_filter.
Qed.

End InputFacts.

(** C9, as the code has it.  [determine_period_params] raises exactly when
    some [gen_ret_bin] project has no row at all in the period parameters;
    the error lists those projects and names no period.  Otherwise the
    inputs load, and the operational periods of a project are the periods
    of its rows. *)
Theorem missing_inputs_reported_by_project
    (projects : list GenRetBin.project_row)
    (rows : list GenRetBin.period_params_row) :
  match GenRetBin.determine_period_params projects rows with
  | GenRetBin.MissingInputs message diff =>
      message = GenRetBin.missing_inputs_message /\ diff <> [] /\
      forall g,
        g ∈ diff <->
        g ∈ GenRetBin.determine_gen_ret_bin_projects projects /\
        forall row, row ∈ rows -> GenRetBin.pp_project row <> g
  | GenRetBin.Loaded r =>
      (forall g,
         g ∈ GenRetBin.determine_gen_ret_bin_projects projects ->
         exists row, row ∈ rows /\ GenRetBin.pp_project row = g) /\
      GenRetBin.generator_period_list r
      = (fun row => (GenRetBin.pp_project row, GenRetBin.pp_period row))
          <$> filter (fun row =>
                        GenRetBin.pp_project row
                        ∈ GenRetBin.determine_gen_ret_bin_projects projects)
                rows
  end.
Proof.
  unfold GenRetBin.determine_period_params.
  set (gens := GenRetBin.determine_gen_ret_bin_projects projects).
  set (acc := foldl (GenRetBin.period_params_step gens)
                (GenRetBin.PeriodParams [] ∅ ∅) rows).
  assert (GenRetBin.generator_period_list acc
          = (fun row => (GenRetBin.pp_project row, GenRetBin.pp_period row))
              <$> filter (fun row => GenRetBin.pp_project row ∈ gens) rows) as Hacc.
  { unfold acc. by rewrite foldl_period_params_step. }
  assert (forall g,
            g ∈ GenRetBin.missing_projects gens
                  (GenRetBin.generator_period_list acc).*1 <->
            g ∈ gens /\ forall row, row ∈ rows -> GenRetBin.pp_project row <> g)
    as Hdiff.
  { intros g. rewrite elem_of_missing_projects, Hacc. split.
    - intros [Hg Hn]. split; [done|]. intros row Hrow E.
      apply Hn. apply elem_of_gen_w_params; [done|]. by exists row.
    - intros [Hg Hn]. split; [done|]. intros Hin.
      apply elem_of_gen_w_params in Hin as (row & Hrow & E); [|done].
      by apply (Hn row). }
  destruct (GenRetBin.missing_projects gens
              (GenRetBin.generator_period_list acc).*1) as [|g0 diff].
  - split; [|done]. intros g Hg.
    destruct (decide (g ∈ ((fun row => (GenRetBin.pp_project row,
                                        GenRetBin.pp_period row))
                             <$> filter (fun row => GenRetBin.pp_project row ∈ gens)
                                   rows).*1)) as [Hin|Hnin].
    + by apply elem_of_gen_w_params in Hin.
    + exfalso. assert (g ∈ @nil string) as Hnil; [|inversion Hnil].
      apply Hdiff. split; [done|]. intros row Hrow E.
      apply Hnin. apply elem_of_gen_w_params; [done|]. by exists row.
  - split; [done|]. split; [done|]. exact Hdiff.
Qed.

(** The claim C9 as stated fails: in a scenario with the periods 2020 and
    2030, the [gen_ret_bin] project Coal has period parameters for 2020
    only, and the inputs load without an error. *)
Lemma missing_period_inputs_not_reported :
  ~ (forall g p,
       g ∈ GenRetBin.determine_gen_ret_bin_projects Examples.portfolio ->
       p ∈ [2020; 2030] ->
       (forall row, row ∈ Examples.only_2020 ->
          ~ (GenRetBin.pp_project row = g /\ GenRetBin.pp_period row = p)) ->
       exists message diff,
         GenRetBin.determine_period_params Examples.portfolio Examples.only_2020
         = GenRetBin.MissingInputs message diff).
Proof.
  intros H. destruct (H "Coal" 2030) as (message & diff & E).
  - decide_elem.
  - decide_elem.
  - intros row Hrow [_ Hp]. unfold Examples.only_2020 in Hrow.
    apply list_elem_of_singleton in Hrow. subst row. discriminate Hp.
  - vm_compute in E. discriminate E.
Qed.


(* ================================================================== *)
(** * More about building a model *)
(* ================================================================== *)


Section GenRetBinBuild.

Import GenRetBin.

Variable m : model.

Hypothesis periods_ordered : Temporal.valid_periods (PERIODS m).
Hypothesis operational_periods_are_periods :
  forall g q, (g, q) ∈ GEN_RET_BIN_OPR_PRDS m -> q ∈ PERIODS m.

(** What [retire_forever_rule] returns at any operational period. *)
Lemma retire_forever_rule_cases (g : string) (p : Z) :
  (g, p) ∈ GEN_RET_BIN_OPR_PRDS m ->
  (retire_forever_rule m g p = Ok Skip /\
   forall k, (g, k) ∈ GEN_RET_BIN_OPR_PRDS m -> p <= k) \/
  (exists prev,
     Temporal.predecessor (PERIODS m) p = Some prev /\
     (exists k, (g, k) ∈ GEN_RET_BIN_OPR_PRDS m /\ k < p) /\
     retire_forever_rule m g p =
       (rhs <- var_getitem (GenRetBin_Retire m) (g, prev) ;;
        Ok (Enforce (Ge (Ref (Item "GenRetBin_Retire" (g, p))) rhs)))).
Proof using periods_ordered operational_periods_are_periods.
  intros Hp.
  destruct (gen_ret_bin_first_period_least m g p Hp) as (gfirst & Hg & Hgin & Hgle).
  destruct (first_period_least (PERIODS m) p periods_ordered
              (operational_periods_are_periods _ _ Hp)) as (first & Hf & Hhd & _).
  destruct (decide (p = gfirst)) as [->|Hng].
  - left. split; [|done]. unfold retire_forever_rule.
    rewrite Hf. simpl. case_bool_decide; [done|].
    rewrite Hg. simpl. by rewrite bool_decide_eq_true_2.
  - right.
    assert (p <> first) as Hnf.
    { intros E. apply Hng.
      eapply (first_period_is_project_first m g); eauto. }
    destruct (predecessor_sorted (PERIODS m) p periods_ordered
                (operational_periods_are_periods _ _ Hp))
      as (prev & Hprev & _).
    { rewrite Hhd. congruence. }
    exists prev. split; [done|]. split.
    + exists gfirst. split; [done|]. specialize (Hgle p Hp). lia.
    + by apply (retire_forever_rule_enforced m g p first gfirst prev).
Qed.

End GenRetBinBuild.

(** X3.  With operational periods taken from a strictly ordered temporal
    index, the binary-retirement module builds exactly when every value
    given for the capacity and for the fixed cost is nonnegative and belongs
    to an operational period, and the operational periods of every project
    have no gap: each operational period that is not the project's first has
    the previous period of the index among the project's operational
    periods.  With valid parameter values, a module that does not build
    raises the [KeyError] of the retirement variable. *)
Theorem gen_ret_bin_builds_iff_no_gap (m : GenRetBin.model) (d : list string) :
  Temporal.valid_periods (GenRetBin.PERIODS m) ->
  (forall g q, (g, q) ∈ GenRetBin.GEN_RET_BIN_OPR_PRDS m -> q ∈ GenRetBin.PERIODS m) ->
  ((exists r, GenRetBin.add_model_components m d = Ok r) <->
   (forall gp q,
      GenRetBin.gen_ret_bin_capacity_mw m !! gp = Some q ->
      gp ∈ GenRetBin.GEN_RET_BIN_OPR_PRDS m /\ (0 <= q)%Q) /\
   (forall gp q,
      GenRetBin.gen_ret_bin_fixed_cost_per_mw_yr m !! gp = Some q ->
      gp ∈ GenRetBin.GEN_RET_BIN_OPR_PRDS m /\ (0 <= q)%Q) /\
   (forall g p k,
      (g, p) ∈ GenRetBin.GEN_RET_BIN_OPR_PRDS m ->
      (g, k) ∈ GenRetBin.GEN_RET_BIN_OPR_PRDS m -> k < p ->
      exists prev,
        Temporal.predecessor (GenRetBin.PERIODS m) p = Some prev /\
        (g, prev) ∈ GenRetBin.GEN_RET_BIN_OPR_PRDS m)) /\
  ((forall gp q,
      GenRetBin.gen_ret_bin_capacity_mw m !! gp = Some q ->
      gp ∈ GenRetBin.GEN_RET_BIN_OPR_PRDS m /\ (0 <= q)%Q) ->
   (forall gp q,
      GenRetBin.gen_ret_bin_fixed_cost_per_mw_yr m !! gp = Some q ->
      gp ∈ GenRetBin.GEN_RET_BIN_OPR_PRDS m /\ (0 <= q)%Q) ->
   forall e,
     GenRetBin.add_model_components m d = Raise e ->
     e = KeyError "GenRetBin_Retire").
Proof.
  intros Hs Hsub. split; [split|].
  - intros ([cm d'] & Hb).
    destruct (gen_ret_bin_built m d d' cm Hb) as (Hcap & Hcost & cs & Hcs & _).
    split; [exact (proj1 (Param_Ok _ _ _ _) Hcap)|].
    split; [exact (proj1 (Param_Ok _ _ _ _) Hcost)|].
    intros g p k Hp Hk Hlt.
    destruct (Constraint_elem _ _ _ (g, p) Hcs Hp) as (o & Ho & _).
    simpl in Ho.
    destruct (retire_forever_rule_cases m Hs Hsub g p Hp)
      as [[_ Hmin]|(prev & Hprev & _ & Hrule)].
    + specialize (Hmin k Hk). lia.
    + rewrite Hrule in Ho. apply bind_Ok in Ho as (rhs & Hrhs & _).
      apply getitem_Ok_inv in Hrhs as [Hin _]. by exists prev.
  - intros (Hcap & Hcost & Hgap). unfold GenRetBin.add_model_components.
    rewrite (proj2 (Param_Ok "gen_ret_bin_capacity_mw" _ NonNegativeReals _) Hcap).
    rewrite (proj2 (Param_Ok "gen_ret_bin_fixed_cost_per_mw_yr" _
                      NonNegativeReals _) Hcost).
    cbn [bind].
    destruct (Constraint_Ok_all (GenRetBin.GEN_RET_BIN_OPR_PRDS m)
                (fun gp => GenRetBin.retire_forever_rule m gp.1 gp.2))
      as (cs & ->); [|simpl; eauto].
    intros [g p] Hp. simpl.
    destruct (retire_forever_rule_cases m Hs Hsub g p Hp)
      as [[Hskip _]|(prev & Hprev & (k & Hk & Hlt) & Hrule)]; [eauto|].
    destruct (Hgap g p k Hp Hk Hlt) as (prev' & Hprev' & Hin).
    assert (prev' = prev) as -> by congruence.
    rewrite Hrule. unfold var_getitem. simpl.
    rewrite getitem_Ok by done. simpl. eauto.
  - intros Hcap Hcost e Hb. unfold GenRetBin.add_model_components in Hb.
    rewrite (proj2 (Param_Ok "gen_ret_bin_capacity_mw" _ NonNegativeReals _) Hcap)
      in Hb.
    rewrite (proj2 (Param_Ok "gen_ret_bin_fixed_cost_per_mw_yr" _
                      NonNegativeReals _) Hcost) in Hb.
    cbn [bind] in Hb.
    destruct (Constraint (GenRetBin.GEN_RET_BIN_OPR_PRDS m)
                (fun gp => GenRetBin.retire_forever_rule m gp.1 gp.2))
      as [cs|e'] eqn:E; simpl in Hb; [discriminate|].
    injection Hb as <-.
    apply Constraint_Raise in E as ([g p] & Hp & Hr). simpl in Hr.
    destruct (retire_forever_rule_cases m Hs Hsub g p Hp)
      as [[Hskip _]|(prev & _ & _ & Hrule)]; [congruence|].
    rewrite Hrule in Hr. unfold var_getitem, getitem in Hr. simpl in Hr.
    case_bool_decide; simpl in Hr; [discriminate|]. by injection Hr as <-.
Qed.

Lemma gen_ret_bin_builds_iff_no_gap_witness :
  ((exists r, GenRetBin.add_model_components Examples.fleet [] = Ok r) <->
   (forall gp q,
      GenRetBin.gen_ret_bin_capacity_mw Examples.fleet !! gp = Some q ->
      gp ∈ GenRetBin.GEN_RET_BIN_OPR_PRDS Examples.fleet /\ (0 <= q)%Q) /\
   (forall gp q,
      GenRetBin.gen_ret_bin_fixed_cost_per_mw_yr Examples.fleet !! gp = Some q ->
      gp ∈ GenRetBin.GEN_RET_BIN_OPR_PRDS Examples.fleet /\ (0 <= q)%Q) /\
   (forall g p k,
      (g, p) ∈ GenRetBin.GEN_RET_BIN_OPR_PRDS Examples.fleet ->
      (g, k) ∈ GenRetBin.GEN_RET_BIN_OPR_PRDS Examples.fleet -> k < p ->
      exists prev,
        Temporal.predecessor (GenRetBin.PERIODS Examples.fleet) p = Some prev /\
        (g, prev) ∈ GenRetBin.GEN_RET_BIN_OPR_PRDS Examples.fleet)) /\
  ((forall gp q,
      GenRetBin.gen_ret_bin_capacity_mw Examples.fleet !! gp = Some q ->
      gp ∈ GenRetBin.GEN_RET_BIN_OPR_PRDS Examples.fleet /\ (0 <= q)%Q) ->
   (forall gp q,
      GenRetBin.gen_ret_bin_fixed_cost_per_mw_yr Examples.fleet !! gp = Some q ->
      gp ∈ GenRetBin.GEN_RET_BIN_OPR_PRDS Examples.fleet /\ (0 <= q)%Q) ->
   forall e,
     GenRetBin.add_model_components Examples.fleet [] = Raise e ->
     e = KeyError "GenRetBin_Retire").
Proof.
  apply (gen_ret_bin_builds_iff_no_gap Examples.fleet []).
  - repeat constructor.
  - intros g q Hq. simpl in Hq.
    repeat (apply elem_of_cons in Hq as [Hq|Hq];
            [injection Hq as -> ->; decide_elem|]).
    inversion Hq.
Defined.

(** X1.  In every feasible solution of a binary-retirement model that was
    built, the capacity of a project in an operational period is either its
    whole specified capacity or zero, and its capacity cost is accordingly
    the whole fixed cost or zero: nothing in between. *)
Theorem capacity_all_or_nothing (m : GenRetBin.model) (d d' : list string)
    (cm : components) (v : valuation) (g : string) (p : Z) (cap cost : Q) :
  GenRetBin.add_model_components m d = Ok (cm, d') ->
  feasible v cm ->
  (g, p) ∈ GenRetBin.GEN_RET_BIN_OPR_PRDS m ->
  GenRetBin.gen_ret_bin_capacity_mw m !! (g, p) = Some cap ->
  GenRetBin.gen_ret_bin_fixed_cost_per_mw_yr m !! (g, p) = Some cost ->
  exists capacity capacity_cost,
    GenRetBin.capacity_rule m g p = Ok capacity /\
    GenRetBin.capacity_cost_rule m g p = Ok capacity_cost /\
    (((eval v capacity == cap)%Q /\ (eval v capacity_cost == cost * cap)%Q) \/
     ((eval v capacity == 0)%Q /\ (eval v capacity_cost == 0)%Q)).
Proof.
  intros Hb Hsol Hp Hcap Hcost.
  exists (Mul (Num cap) (Sub (Num 1) (Ref (Item "GenRetBin_Retire" (g, p))))),
    (Mul (Mul (Num cost) (Num cap))
       (Sub (Num 1) (Ref (Item "GenRetBin_Retire" (g, p))))).
  unfold GenRetBin.capacity_rule, GenRetBin.capacity_cost_rule, var_getitem.
  rewrite (proj2 (param_Ok _ _ _ _) Hcap), (proj2 (param_Ok _ _ _ _) Hcost).
  simpl. rewrite getitem_Ok by done. simpl.
  split; [done|]. split; [done|].
  destruct (retire_binary m g cm d d' v Hb Hsol p Hp) as [H0|H1].
  - left. rewrite H0. split; ring.
  - right. rewrite H1. split; ring.
Qed.

Lemma capacity_all_or_nothing_witness :
  exists capacity capacity_cost,
    GenRetBin.capacity_rule Examples.fleet "Coal" 2030 = Ok capacity /\
    GenRetBin.capacity_cost_rule Examples.fleet "Coal" 2030 = Ok capacity_cost /\
    (((eval Examples.idle capacity == 100)%Q /\
      (eval Examples.idle capacity_cost == 10 * 100)%Q) \/
     ((eval Examples.idle capacity == 0)%Q /\
      (eval Examples.idle capacity_cost == 0)%Q)).
Proof.
  assert (exists cm,
            GenRetBin.add_model_components Examples.fleet []
            = Ok (cm, ["GEN_RET_BIN_OPR_PRDS"]) /\
            feasibleb Examples.idle cm = true) as (cm & Hcm & Hf).
  { vm_compute. eexists. split; reflexivity. }
  apply (capacity_all_or_nothing Examples.fleet [] ["GEN_RET_BIN_OPR_PRDS"] cm
           Examples.idle "Coal" 2030 100 10).
  - exact Hcm.
  - by apply feasibleb_sound.
  - decide_elem.
  - vm_compute. reflexivity.
  - vm_compute. reflexivity.
Defined.

(** X2.  In every feasible solution of a binary-retirement model that was
    built on a strictly ordered temporal index, a project retired in an
    operational period has no capacity and no capacity cost in any later
    operational period. *)
Theorem no_capacity_after_retirement (m : GenRetBin.model) (d d' : list string)
    (cm : components) (v : valuation) (g : string) (k k' : Z) (cap cost : Q) :
  Temporal.valid_periods (GenRetBin.PERIODS m) ->
  (forall q, (g, q) ∈ GenRetBin.GEN_RET_BIN_OPR_PRDS m -> q ∈ GenRetBin.PERIODS m) ->
  GenRetBin.add_model_components m d = Ok (cm, d') ->
  feasible v cm ->
  (g, k) ∈ GenRetBin.GEN_RET_BIN_OPR_PRDS m ->
  (g, k') ∈ GenRetBin.GEN_RET_BIN_OPR_PRDS m ->
  k < k' ->
  GenRetBin.gen_ret_bin_capacity_mw m !! (g, k') = Some cap ->
  GenRetBin.gen_ret_bin_fixed_cost_per_mw_yr m !! (g, k') = Some cost ->
  (v (Item "GenRetBin_Retire" (g, k)) == 1)%Q ->
  exists capacity capacity_cost,
    GenRetBin.capacity_rule m g k' = Ok capacity /\
    GenRetBin.capacity_cost_rule m g k' = Ok capacity_cost /\
    (eval v capacity == 0)%Q /\ (eval v capacity_cost == 0)%Q.
Proof.
  intros Hs Hsub Hb Hsol Hk Hk' Hlt Hcap Hcost Hret.
  exists (Mul (Num cap) (Sub (Num 1) (Ref (Item "GenRetBin_Retire" (g, k'))))),
    (Mul (Mul (Num cost) (Num cap))
       (Sub (Num 1) (Ref (Item "GenRetBin_Retire" (g, k'))))).
  unfold GenRetBin.capacity_rule, GenRetBin.capacity_cost_rule, var_getitem.
  rewrite (proj2 (param_Ok _ _ _ _) Hcap), (proj2 (param_Ok _ _ _ _) Hcost).
  simpl. rewrite getitem_Ok by done. simpl.
  split; [done|]. split; [done|].
  pose proof (retired_stays_retired m g Hs Hsub cm d d' v Hb Hsol k k'
                Hk Hk' Hlt Hret) as H1.
  rewrite H1. split; ring.
Qed.

Lemma no_capacity_after_retirement_witness :
  exists capacity capacity_cost,
    GenRetBin.capacity_rule Examples.fleet "Coal" 2040 = Ok capacity /\
    GenRetBin.capacity_cost_rule Examples.fleet "Coal" 2040 = Ok capacity_cost /\
    (eval (fun _ => 1%Q) capacity == 0)%Q /\
    (eval (fun _ => 1%Q) capacity_cost == 0)%Q.
Proof.
  assert (exists cm,
            GenRetBin.add_model_components Examples.fleet []
            = Ok (cm, ["GEN_RET_BIN_OPR_PRDS"]) /\
            feasibleb (fun _ => 1%Q) cm = true) as (cm & Hcm & Hf).
  { vm_compute. eexists. split; reflexivity. }
  apply (no_capacity_after_retirement Examples.fleet [] ["GEN_RET_BIN_OPR_PRDS"]
           cm (fun _ => 1%Q) "Coal" 2020 2040 100 10).
  - repeat constructor.
  - intros q Hq. simpl in Hq.
    repeat (apply elem_of_cons in Hq as [Hq|Hq];
            [injection Hq as ->; decide_elem|]).
    inversion Hq.
  - exact Hcm.
  - by apply feasibleb_sound.
  - decide_elem.
  - decide_elem.
  - lia.
  - vm_compute. reflexivity.
  - vm_compute. reflexivity.
  - reflexivity.
Defined.


(* ================================================================== *)
(** * More about loading inputs *)
(* ================================================================== *)

Section LoadFacts.

Import GenRetBin.

Lemma elem_of_GEN_RET_BIN_iff (m : model) (g : string) :
  g ∈ GEN_RET_BIN m <-> exists p, (g, p) ∈ GEN_RET_BIN_OPR_PRDS m.
Proof.
  unfold GEN_RET_BIN. rewrite elem_of_remove_dups, list_elem_of_fmap. split.
  - intros ([g' p] & -> & H). by exists p.
  - intros (p & H). by exists (g, p).
Qed.

(** The rows that write the key [k] of the two dicts. *)
Local Abbreviation writes gens k :=
  (fun row : period_params_row =>
     pp_project row ∈ gens /\ (pp_project row, pp_period row) = k).

Lemma foldl_period_params_dicts (gens : list string) (acc : period_params)
    (rows : list period_params_row) (k : index) :
  gen_ret_bin_capacity_mw_dict (foldl (period_params_step gens) acc rows) !! k
  = match last (filter (writes gens k) rows) with
    | Some row => Some (pp_specified_capacity_mw row)
    | None => gen_ret_bin_capacity_mw_dict acc !! k
    end /\
  gen_ret_bin_fixed_cost_per_mw_yr_dict
    (foldl (period_params_step gens) acc rows) !! k
  = match last (filter (writes gens k) rows) with
    | Some row => Some (pp_fixed_cost_per_mw_yr row)
    | None => gen_ret_bin_fixed_cost_per_mw_yr_dict acc !! k
    end.
Proof.
  revert acc. induction rows as [|row rows IH]; intros acc; [done|].
  simpl. destruct (IH (period_params_step gens acc row)) as [IH1 IH2].
  rewrite IH1, IH2. clear IH IH1 IH2.
  rewrite filter_cons. case_decide as Hn; [destruct Hn as [Hg Hk]|].
  - rewrite last_cons.
    destruct (last (filter (writes gens k) rows)); [done|].
    unfold period_params_step. rewrite bool_decide_eq_true_2 by done.
    simpl. rewrite Hk. by rewrite !lookup_insert_eq.
  - destruct (last (filter (writes gens k) rows)); [done|].
    unfold period_params_step. case_bool_decide as Hg; [|done].
    simpl. rewrite !lookup_insert_ne; [done| |]; intros E; apply Hn; by split.
Qed.

Lemma determine_period_params_Loaded (projects : list project_row)
    (rows : list period_params_row) (r : period_params) :
  determine_period_params projects rows = Loaded r ->
  r = foldl (period_params_step (determine_gen_ret_bin_projects projects))
        (PeriodParams [] ∅ ∅) rows /\
  forall g, g ∈ determine_gen_ret_bin_projects projects ->
            exists row, row ∈ rows /\ pp_project row = g.
Proof.
  unfold determine_period_params.
  set (gens := determine_gen_ret_bin_projects projects).
  set (acc := foldl (period_params_step gens) (PeriodParams [] ∅ ∅) rows).
  destruct (missing_projects gens (generator_period_list acc).*1) eqn:E;
    [|discriminate].
  intros H. injection H as <-. split; [done|].
  intros g Hg.
  destruct (decide (g ∈ (generator_period_list acc).*1)) as [Hin|Hnin].
  - unfold acc in Hin. rewrite foldl_period_params_step in Hin.
    by apply elem_of_gen_w_params in Hin.
  - assert (g ∈ missing_projects gens (generator_period_list acc).*1) as Hm
      by (by apply elem_of_missing_projects).
    rewrite E in Hm. inversion Hm.
Qed.

End LoadFacts.

(** X5.  When the period parameters load, the capacity and the fixed cost of
    a (project, period) are those of the last row for that project and
    period: later rows overwrite earlier ones, and rows of projects of other
    capacity types are ignored.  A (project, period) is operational exactly
    when the two parameters are defined for it. *)
Theorem last_period_row_wins (projects : list GenRetBin.project_row)
    (rows : list GenRetBin.period_params_row) (r : GenRetBin.period_params)
    (g : string) (p : Z) :
  GenRetBin.determine_period_params projects rows = GenRetBin.Loaded r ->
  let last_row :=
    last (filter (fun row =>
                    GenRetBin.pp_project row
                    ∈ GenRetBin.determine_gen_ret_bin_projects projects /\
                    (GenRetBin.pp_project row, GenRetBin.pp_period row) = (g, p))
            rows) in
  GenRetBin.gen_ret_bin_capacity_mw_dict r !! (g, p)
  = GenRetBin.pp_specified_capacity_mw <$> last_row /\
  GenRetBin.gen_ret_bin_fixed_cost_per_mw_yr_dict r !! (g, p)
  = GenRetBin.pp_fixed_cost_per_mw_yr <$> last_row /\
  ((g, p) ∈ GenRetBin.generator_period_list r <-> is_Some last_row).
Proof.
  intros Hl last_row.
  apply determine_period_params_Loaded in Hl as [-> _].
  set (gens := GenRetBin.determine_gen_ret_bin_projects projects) in *.
  destruct (foldl_period_params_dicts gens (GenRetBin.PeriodParams [] ∅ ∅)
              rows (g, p)) as [H1 H2].
  split.
  { etrans; [exact H1|]. unfold last_row.
    destruct (last (filter _ rows)); [done | apply lookup_empty]. }
  split.
  { etrans; [exact H2|]. unfold last_row.
    destruct (last (filter _ rows)); [done | apply lookup_empty]. }
  clear H1 H2. rewrite foldl_period_params_step. simpl.
  rewrite list_elem_of_fmap. split.
  - intros (row & E & Hrow). apply list_elem_of_filter in Hrow as [Hg Hrow].
    destruct last_row as [row'|] eqn:El; [eauto|].
    apply last_None in El.
    assert (row ∈ @nil GenRetBin.period_params_row) as Hin; [|inversion Hin].
    rewrite <- El. apply list_elem_of_filter. by repeat split.
  - intros [row Hrow].
    apply last_Some_elem_of, list_elem_of_filter in Hrow as [[Hg Hk] Hrow].
    exists row. split; [done|]. by apply list_elem_of_filter.
Qed.

Lemma last_period_row_wins_witness :
  exists r,
    GenRetBin.determine_period_params Examples.portfolio
      (GenRetBin.PeriodParamsRow "Coal" 2020 80 9 :: Examples.only_2020)
    = GenRetBin.Loaded r /\
    GenRetBin.gen_ret_bin_capacity_mw_dict r !! ("Coal", 2020) = Some 100%Q /\
    GenRetBin.gen_ret_bin_fixed_cost_per_mw_yr_dict r !! ("Coal", 2020)
    = Some 10%Q.
Proof.
  assert (exists r,
            GenRetBin.determine_period_params Examples.portfolio
              (GenRetBin.PeriodParamsRow "Coal" 2020 80 9 :: Examples.only_2020)
            = GenRetBin.Loaded r) as (r & Hr).
  { vm_compute. eexists. reflexivity. }
  exists r. split; [exact Hr|].
  destruct (last_period_row_wins Examples.portfolio _ r "Coal" 2020 Hr)
    as (H1 & H2 & _).
  split; [exact H1 | exact H2].
Defined.

(** X4.  When [load_module_specific_data] succeeds, the projects of the
    loaded model are exactly the [gen_ret_bin] projects of the portfolio,
    each with at least one operational period, and [capacity_rule] and
    [capacity_cost_rule] return an expression at every operational period:
    the loaded parameters cover the loaded set. *)
Theorem loaded_model_is_complete (m m' : GenRetBin.model)
    (projects : list GenRetBin.project_row)
    (rows : list GenRetBin.period_params_row) :
  GenRetBin.load_module_specific_data m projects rows = inr m' ->
  (forall g,
     g ∈ GenRetBin.GEN_RET_BIN m' <->
     g ∈ GenRetBin.determine_gen_ret_bin_projects projects) /\
  (forall g p,
     (g, p) ∈ GenRetBin.GEN_RET_BIN_OPR_PRDS m' ->
     exists capacity capacity_cost,
       GenRetBin.capacity_rule m' g p = Ok capacity /\
       GenRetBin.capacity_cost_rule m' g p = Ok capacity_cost).
Proof.
  unfold GenRetBin.load_module_specific_data.
  destruct (GenRetBin.determine_period_params projects rows) as [r|] eqn:Hl;
    [|discriminate].
  intros E. injection E as <-.
  pose proof (determine_period_params_Loaded projects rows r Hl) as [Hr Hall].
  set (gens := GenRetBin.determine_gen_ret_bin_projects projects) in *.
  assert (forall g p,
            (g, p) ∈ GenRetBin.generator_period_list r ->
            exists row, row ∈ rows /\ GenRetBin.pp_project row = g /\
                        GenRetBin.pp_period row = p /\ g ∈ gens) as Hrows.
  { intros g p Hin. rewrite Hr, foldl_period_params_step in Hin. simpl in Hin.
    apply list_elem_of_fmap in Hin as (row & E & Hrow).
    apply list_elem_of_filter in Hrow as [Hg Hrow].
    injection E as -> ->. by exists row. }
  split.
  - intros g. rewrite elem_of_GEN_RET_BIN_iff. simpl. split.
    + intros (p & Hin). by destruct (Hrows g p Hin) as (_ & _ & _ & _ & Hg).
    + intros Hg. destruct (Hall g Hg) as (row & Hrow & <-).
      exists (GenRetBin.pp_period row).
      rewrite Hr, foldl_period_params_step. simpl.
      apply list_elem_of_fmap. exists row. split; [done|].
      by apply list_elem_of_filter.
  - intros g p Hin. simpl in Hin.
    destruct (last_period_row_wins projects rows r g p Hl) as (H1 & H2 & H3).
    apply H3 in Hin as [row Hrow]. rewrite Hrow in H1, H2. simpl in H1, H2.
    unfold GenRetBin.capacity_rule, GenRetBin.capacity_cost_rule, var_getitem.
    simpl.
    rewrite (proj2 (param_Ok _ _ _ _) H1), (proj2 (param_Ok _ _ _ _) H2).
    simpl. rewrite getitem_Ok by (by apply H3; eauto). simpl. eauto.
Qed.

Lemma loaded_model_is_complete_witness :
  exists m',
    GenRetBin.load_module_specific_data Examples.fleet Examples.portfolio
      Examples.only_2020 = inr m' /\
    (forall g,
       g ∈ GenRetBin.GEN_RET_BIN m' <->
       g ∈ GenRetBin.determine_gen_ret_bin_projects Examples.portfolio) /\
    (forall g p,
       (g, p) ∈ GenRetBin.GEN_RET_BIN_OPR_PRDS m' ->
       exists capacity capacity_cost,
         GenRetBin.capacity_rule m' g p = Ok capacity /\
         GenRetBin.capacity_cost_rule m' g p = Ok capacity_cost).
Proof.
  assert (exists m',
            GenRetBin.load_module_specific_data Examples.fleet Examples.portfolio
              Examples.only_2020 = inr m') as (m' & Hm).
  { vm_compute. eexists. reflexivity. }
  exists m'. split; [exact Hm|].
  exact (loaded_model_is_complete Examples.fleet m' Examples.portfolio
           Examples.only_2020 Hm).
Defined.


(* ================================================================== *)
(** * More about generic storage *)
(* ================================================================== *)

Section StorageSolutions.

Import StorageGeneric.

Lemma Qsum_snoc (qs : list Q) (q : Q) : (Qsum (qs ++ [q]) == Qsum qs + q)%Q.
Proof. unfold Qsum. rewrite foldl_snoc. reflexivity. Qed.

(** In a sequence without repetition the predecessor of an element is the
    element just before it. *)
Lemma predecessor_consecutive (l1 : list Z) (x y : Z) (l2 : list Z) :
  NoDup (l1 ++ x :: y :: l2) ->
  Temporal.predecessor (l1 ++ x :: y :: l2) y = Some x.
Proof.
  induction l1 as [|a l1 IH]; intros Hnd.
  - simpl. by rewrite bool_decide_eq_true_2.
  - apply NoDup_cons in Hnd as [_ Hnd].
    change ((a :: l1) ++ x :: y :: l2) with (a :: (l1 ++ x :: y :: l2)).
    specialize (IH Hnd).
    destruct l1 as [|c l1].
    + simpl in *. apply NoDup_cons in Hnd as [Hx _].
      rewrite bool_decide_eq_false_2; [done|].
      intros ->. apply Hx, list_elem_of_here.
    + simpl in *. apply NoDup_cons in Hnd as [Hc _].
      rewrite bool_decide_eq_false_2; [done|].
      intros ->. apply Hc. rewrite elem_of_app. right.
      apply list_elem_of_further, list_elem_of_here.
Qed.

(** A quantity that grows by [g x] from each element [x] to the next. *)
Lemma telescope (f g : Z -> Q) (a : Z) (l : list Z) (z : Z) :
  last (a :: l) = Some z ->
  (forall l1 x y l2, a :: l = l1 ++ x :: y :: l2 -> (f y == f x + g x)%Q) ->
  (f z == f a + Qsum (g <$> a :: l) - g z)%Q.
Proof.
  revert a. induction l as [|b l IH]; intros a Hl Hstep.
  - injection Hl as <-. rewrite fmap_cons, Qsum_cons. unfold Qsum. simpl. lra.
  - rewrite last_cons_cons in Hl.
    pose proof (Hstep [] a b l eq_refl) as Hab.
    assert (f z == f b + Qsum (g <$> b :: l) - g z)%Q as Hz.
    { apply IH; [done|]. intros l1 x y l2 E.
      apply (Hstep (a :: l1) x y l2). simpl. by rewrite E. }
    rewrite (fmap_cons g a), Qsum_cons. lra.
Qed.

Variable m : model.
Variable d : dynamic_components.
Variable cm : components.
Variable v : valuation.

Hypothesis built : add_module_specific_components m d = Ok cm.
Hypothesis solution : feasible v cm.

(** Every rule returned at every operational timepoint, and what it
    returned holds in the solution. *)
Lemma storage_rules_hold (s : string) (tmp : Z) :
  (s, tmp) ∈ STORAGE_GENERIC_PROJECT_OPERATIONAL_TIMEPOINTS m ->
  Forall (fun rule : string -> Z -> result outcome =>
            exists o, rule s tmp = Ok o /\ forall c, o = Enforce c -> holds v c)
    [max_discharge_rule m; max_charge_rule m; max_headroom_power_rule m d;
     max_footroom_power_rule m d; max_headroom_energy_rule m d;
     max_footroom_energy_rule m d; energy_tracking_rule m;
     max_energy_in_storage_rule m].
Proof using built solution.
  intros Hin. pose proof built as Hb.
  unfold add_module_specific_components in Hb.
  apply bind_Ok in Hb as (c1 & H1 & Hb). apply bind_Ok in Hb as (c2 & H2 & Hb).
  apply bind_Ok in Hb as (c3 & H3 & Hb). apply bind_Ok in Hb as (c4 & H4 & Hb).
  apply bind_Ok in Hb as (c5 & H5 & Hb). apply bind_Ok in Hb as (c6 & H6 & Hb).
  apply bind_Ok in Hb as (c7 & H7 & Hb). apply bind_Ok in Hb as (c8 & H8 & Hb).
  injection Hb as Hcm. destruct solution as [_ Hcons].
  rewrite <- Hcm in Hcons. simpl in Hcons. rewrite Forall_forall in Hcons.
  repeat constructor.
  all: match goal with
       | H : Constraint _ (fun st => ?r st.1 st.2) = Ok ?cs
         |- exists o, ?r _ _ = Ok o /\ _ =>
           destruct (Constraint_elem _ _ _ (s, tmp) H Hin) as (o & Ho & Hmem);
           exists o; split; [exact Ho|];
           intros c Hc; apply Hcons; rewrite !elem_of_app;
           specialize (Hmem c Hc)
       end.
  all: tauto.
Qed.

Lemma storage_variables_nonnegative (s : string) (tmp : Z) :
  (s, tmp) ∈ STORAGE_GENERIC_PROJECT_OPERATIONAL_TIMEPOINTS m ->
  (0 <= v (Item "Generic_Storage_Discharge_MW" (s, tmp)))%Q /\
  (0 <= v (Item "Generic_Storage_Charge_MW" (s, tmp)))%Q /\
  (0 <= v (Item "Starting_Energy_in_Generic_Storage_MWh" (s, tmp)))%Q.
Proof using built solution.
  intros Hin. pose proof built as Hb.
  unfold add_module_specific_components in Hb.
  repeat (let c := fresh "c" in apply bind_Ok in Hb as (c & _ & Hb)).
  injection Hb as Hcm. destruct solution as [Hvars _].
  rewrite <- Hcm in Hvars. simpl in Hvars.
  apply Forall_cons_1 in Hvars as [Hd Hvars].
  apply Forall_cons_1 in Hvars as [Hc Hvars].
  apply Forall_cons_1 in Hvars as [Hs _].
  split; [exact (Hd (s, tmp) Hin)|].
  split; [exact (Hc (s, tmp) Hin) | exact (Hs (s, tmp) Hin)].
Qed.

End StorageSolutions.

Section HorizonEnergy.

Import StorageGeneric.

Variable m : model.
Variable d : dynamic_components.
Variable cm : components.
Variable v : valuation.
Variable s : string.
Variable h : Z.
Variable tmps : list Z.
Variable b : string.
Variable hours : Z -> Q.
Variable ch_eff dis_eff : Q.

Hypothesis built : add_module_specific_components m d = Ok cm.
Hypothesis solution : feasible v cm.
Hypothesis timepoints_of_h :
  Temporal.TIMEPOINTS_ON_HORIZON (tix m) !! h = Some tmps.
Hypothesis distinct : NoDup tmps.
Hypothesis horizon_of_tmps : forall t, t ∈ tmps -> horizon m !! t = Some h.
Hypothesis boundary_of_h : Temporal.boundary (tix m) !! h = Some b.
Hypothesis mode : b = "circular" \/ b = "linear".
Hypothesis operational_on_h :
  forall t, t ∈ tmps -> (s, t) ∈ STORAGE_GENERIC_PROJECT_OPERATIONAL_TIMEPOINTS m.
Hypothesis hours_on_h :
  forall t, t ∈ tmps ->
    Temporal.number_of_hours_in_timepoint (tix m) !! t = Some (hours t).
Hypothesis charging :
  storage_generic_charging_efficiency m !! s = Some ch_eff.
Hypothesis discharging :
  storage_generic_discharging_efficiency m !! s = Some dis_eff.
Hypothesis discharging_nonzero : ~ (dis_eff == 0)%Q.

Let soc (t : Z) : Q := v (Item "Starting_Energy_in_Generic_Storage_MWh" (s, t)).

(** The energy a timepoint adds to the storage. *)
Let net (t : Z) : Q :=
  (v (Item "Generic_Storage_Charge_MW" (s, t)) * hours t * ch_eff
   - v (Item "Generic_Storage_Discharge_MW" (s, t)) * hours t / dis_eff)%Q.

Lemma tracking_step (first last_ t : Z) :
  head tmps = Some first -> last tmps = Some last_ -> t ∈ tmps ->
  ~ (t = first /\ b = "linear") ->
  exists prev,
    (t = first -> prev = last_) /\
    (t <> first -> Temporal.predecessor tmps t = Some prev) /\
    (soc t == soc prev + net prev)%Q.
Proof using All.
  intros Hh Hl Ht Hn.
  destruct (previous_timepoint_defined m t h tmps b (horizon_of_tmps t Ht)
              timepoints_of_h Ht boundary_of_h first last_ Hh Hl mode Hn)
    as (prev & Hprev & Hpin & H1 & H2).
  exists prev. split; [done|]. split; [done|].
  pose proof (energy_tracking_rule_enforced m s t h tmps b hours ch_eff dis_eff
                (horizon_of_tmps t Ht) timepoints_of_h Ht boundary_of_h
                operational_on_h hours_on_h charging discharging
                discharging_nonzero first prev Hh Hn Hprev Hpin) as Hrule.
  pose proof (storage_rules_hold m d cm v built solution s t
                (operational_on_h t Ht)) as Hr.
  do 6 apply Forall_cons_1 in Hr as [_ Hr].
  apply Forall_cons_1 in Hr as [(o & Ho & Hholds) _].
  rewrite Hrule in Ho. injection Ho as <-.
  specialize (Hholds _ eq_refl). simpl in Hholds.
  unfold soc, net. rewrite Hholds. ring.
Qed.

Lemma tracking_consecutive (l1 : list Z) (x y : Z) (l2 : list Z) :
  tmps = l1 ++ x :: y :: l2 -> (soc y == soc x + net x)%Q.
Proof using All.
  intros E.
  assert (y ∈ tmps) as Hy.
  { rewrite E, elem_of_app. right.
    apply list_elem_of_further, list_elem_of_here. }
  assert (exists first, head tmps = Some first /\ y <> first) as (first & Hh & Hne).
  { pose proof distinct as Hnd. rewrite E in Hnd |- *.
    destruct l1 as [|c l1]; simpl in *.
    - exists x. split; [done|]. apply NoDup_cons in Hnd as [Hx _].
      intros ->. apply Hx, list_elem_of_here.
    - exists c. split; [done|]. apply NoDup_cons in Hnd as [Hc _].
      intros ->. apply Hc. rewrite elem_of_app. right.
      apply list_elem_of_further, list_elem_of_here. }
  assert (exists last_, last tmps = Some last_) as (last_ & Hl).
  { destruct (last tmps) eqn:El; [eauto|].
    apply last_None in El. rewrite El in Hy. inversion Hy. }
  destruct (tracking_step first last_ y Hh Hl Hy) as (prev & _ & Hp & Hsoc);
    [tauto|].
  specialize (Hp Hne).
  assert (prev = x) as ->; [|done].
  pose proof distinct as Hnd. rewrite E in Hnd, Hp.
  rewrite (predecessor_consecutive l1 x y l2 Hnd) in Hp. congruence.
Qed.

(** The net energy stored over a circular horizon is zero. *)
Lemma circular_energy_balance :
  b = "circular" -> (Qsum (net <$> tmps) == 0)%Q.
Proof using All.
  intros Hc.
  assert (tmps = [] \/ exists a l, tmps = a :: l) as [E|(a & l & E)]
    by (clear; destruct tmps; eauto).
  { rewrite E. reflexivity. }
  assert (exists z, last tmps = Some z) as (z & El).
  { rewrite E. destruct (last (a :: l)) eqn:El; [eauto|].
    by apply last_None in El. }
  assert (soc z == soc a + Qsum (net <$> tmps) - net z)%Q as Htel.
  { rewrite E. apply telescope; [by rewrite <- E|]. intros l1 x y l2 E'.
    apply (tracking_consecutive l1 x y l2). by rewrite E. }
  destruct (tracking_step a z a) as (prev & Hp & _ & Hwrap).
  { by rewrite E. }
  { done. }
  { rewrite E. apply list_elem_of_here. }
  { intros [_ ->]. discriminate. }
  rewrite (Hp eq_refl) in Hwrap. lra.
Qed.

(** The state of charge after a run of timepoints from the start of the
    horizon. *)
Lemma prefix_energy_balance (pre : list Z) (t : Z) (post : list Z) (first : Z) :
  tmps = pre ++ t :: post -> head tmps = Some first ->
  (soc t == soc first + Qsum (net <$> pre))%Q.
Proof using All.
  intros E Hh. destruct pre as [|a pre].
  - rewrite E in Hh. injection Hh as ->. unfold Qsum. simpl. lra.
  - rewrite E in Hh. injection Hh as ->.
    assert (soc t == soc first + Qsum (net <$> first :: (pre ++ [t])) - net t)%Q
      as Htel.
    { apply telescope.
      - change (first :: pre ++ [t]) with ((first :: pre) ++ [t]).
        apply last_snoc.
      - intros l1 x y l2 E'.
        apply (tracking_consecutive l1 x y (l2 ++ post)).
        rewrite E.
        change ((first :: pre) ++ t :: post)
          with (first :: (pre ++ [t] ++ post)).
        rewrite app_assoc.
        change (first :: (pre ++ [t]) ++ post)
          with ((first :: pre ++ [t]) ++ post).
        rewrite E'. by rewrite <- app_assoc. }
    assert (Qsum (net <$> first :: (pre ++ [t]))
            == Qsum (net <$> first :: pre) + net t)%Q as Hs.
    { change (first :: (pre ++ [t])) with ((first :: pre) ++ [t]).
      rewrite fmap_app. apply Qsum_snoc. }
    lra.
Qed.

End HorizonEnergy.

(** X7.  On a circular horizon whose timepoints are distinct, every
    feasible solution of a storage model that was built stores no net
    energy: the energy charged over the horizon, after the charging loss,
    equals the energy taken out for discharging. *)
Theorem circular_horizon_energy_neutral (m : StorageGeneric.model)
    (d : StorageGeneric.dynamic_components) (cm : components) (v : valuation)
    (s : string) (h : Z) (tmps : list Z) (hours : Z -> Q) (ch_eff dis_eff : Q) :
  StorageGeneric.add_module_specific_components m d = Ok cm ->
  feasible v cm ->
  Temporal.TIMEPOINTS_ON_HORIZON (StorageGeneric.tix m) !! h = Some tmps ->
  NoDup tmps ->
  (forall t, t ∈ tmps -> StorageGeneric.horizon m !! t = Some h) ->
  Temporal.boundary (StorageGeneric.tix m) !! h = Some "circular" ->
  (forall t, t ∈ tmps ->
     (s, t) ∈ StorageGeneric.STORAGE_GENERIC_PROJECT_OPERATIONAL_TIMEPOINTS m) ->
  (forall t, t ∈ tmps ->
     Temporal.number_of_hours_in_timepoint (StorageGeneric.tix m) !! t
     = Some (hours t)) ->
  StorageGeneric.storage_generic_charging_efficiency m !! s = Some ch_eff ->
  StorageGeneric.storage_generic_discharging_efficiency m !! s = Some dis_eff ->
  ~ (dis_eff == 0)%Q ->
  (Qsum ((fun t =>
            v (Item "Generic_Storage_Charge_MW" (s, t)) * hours t * ch_eff
            - v (Item "Generic_Storage_Discharge_MW" (s, t)) * hours t / dis_eff)
           <$> tmps) == 0)%Q.
Proof.
  intros Hb Hsol Htmps Hnd Hhz Hbd Hop Hhours Hch Hdis Hnz.
  by apply (circular_energy_balance m d cm v s h tmps "circular" hours
              ch_eff dis_eff Hb Hsol Htmps Hnd Hhz Hbd (or_introl eq_refl)
              Hop Hhours Hch Hdis Hnz).
Qed.

Lemma circular_horizon_energy_neutral_witness :
  (Qsum ((fun t =>
            Examples.cycling (Item "Generic_Storage_Charge_MW" ("Battery", t)) * 1 * 0.9
            - Examples.cycling (Item "Generic_Storage_Discharge_MW" ("Battery", t))
              * 1 / 0.9)
           <$> [1%Z; 2%Z; 3%Z; 4%Z]) == 0)%Q.
Proof.
  assert (exists cm,
            StorageGeneric.add_module_specific_components
              (Examples.battery "circular") Examples.battery_reserves = Ok cm /\
            feasibleb Examples.cycling cm = true) as (cm & Hcm & Hf).
  { vm_compute. eexists. split; reflexivity. }
  apply (circular_horizon_energy_neutral (Examples.battery "circular")
           Examples.battery_reserves cm Examples.cycling "Battery" 1 [1; 2; 3; 4]
           (fun _ => 1%Q) 0.9%Q 0.9%Q).
  - exact Hcm.
  - by apply feasibleb_sound.
  - vm_compute. reflexivity.
  - decide_elem.
  - intros t Ht.
    repeat (apply elem_of_cons in Ht as [->|Ht]; [vm_compute; reflexivity|]).
    inversion Ht.
  - vm_compute. reflexivity.
  - intros t Ht.
    repeat (apply elem_of_cons in Ht as [->|Ht]; [decide_elem|]).
    inversion Ht.
  - intros t Ht.
    repeat (apply elem_of_cons in Ht as [->|Ht]; [vm_compute; reflexivity|]).
    inversion Ht.
  - vm_compute. reflexivity.
  - vm_compute. reflexivity.
  - intros H. vm_compute in H. discriminate H.
Defined.

(** X8.  On a horizon whose timepoints are distinct, in every feasible
    solution of a storage model that was built, the state of charge at a
    timepoint is the state of charge at the first timepoint of the horizon
    plus the net energy stored in the timepoints before it. *)
Theorem state_of_charge_accumulates (m : StorageGeneric.model)
    (d : StorageGeneric.dynamic_components) (cm : components) (v : valuation)
    (s : string) (h : Z) (pre : list Z) (t : Z) (post : list Z) (first : Z)
    (b : string) (hours : Z -> Q) (ch_eff dis_eff : Q) :
  StorageGeneric.add_module_specific_components m d = Ok cm ->
  feasible v cm ->
  Temporal.TIMEPOINTS_ON_HORIZON (StorageGeneric.tix m) !! h
  = Some (pre ++ t :: post) ->
  NoDup (pre ++ t :: post) ->
  head (pre ++ t :: post) = Some first ->
  (forall x, x ∈ pre ++ t :: post -> StorageGeneric.horizon m !! x = Some h) ->
  Temporal.boundary (StorageGeneric.tix m) !! h = Some b ->
  b = "circular" \/ b = "linear" ->
  (forall x, x ∈ pre ++ t :: post ->
     (s, x) ∈ StorageGeneric.STORAGE_GENERIC_PROJECT_OPERATIONAL_TIMEPOINTS m) ->
  (forall x, x ∈ pre ++ t :: post ->
     Temporal.number_of_hours_in_timepoint (StorageGeneric.tix m) !! x
     = Some (hours x)) ->
  StorageGeneric.storage_generic_charging_efficiency m !! s = Some ch_eff ->
  StorageGeneric.storage_generic_discharging_efficiency m !! s = Some dis_eff ->
  ~ (dis_eff == 0)%Q ->
  (v (Item "Starting_Energy_in_Generic_Storage_MWh" (s, t))
   == v (Item "Starting_Energy_in_Generic_Storage_MWh" (s, first))
      + Qsum ((fun x =>
                 v (Item "Generic_Storage_Charge_MW" (s, x)) * hours x * ch_eff
                 - v (Item "Generic_Storage_Discharge_MW" (s, x)) * hours x
                   / dis_eff)
                <$> pre))%Q.
Proof.
  intros Hb Hsol Htmps Hnd Hh Hhz Hbd Hmode Hop Hhours Hch Hdis Hnz.
  by apply (prefix_energy_balance m d cm v s h (pre ++ t :: post) b hours
              ch_eff dis_eff Hb Hsol Htmps Hnd Hhz Hbd Hmode Hop Hhours Hch
              Hdis Hnz pre t post first).
Qed.

Lemma state_of_charge_accumulates_witness :
  (Examples.cycling (Item "Starting_Energy_in_Generic_Storage_MWh" ("Battery", 3%Z))
   == Examples.cycling (Item "Starting_Energy_in_Generic_Storage_MWh" ("Battery", 1%Z))
      + Qsum ((fun x =>
                 Examples.cycling (Item "Generic_Storage_Charge_MW" ("Battery", x))
                 * 1 * 0.9
                 - Examples.cycling (Item "Generic_Storage_Discharge_MW" ("Battery", x))
                   * 1 / 0.9)
                <$> [1%Z; 2%Z]))%Q.
Proof.
  assert (exists cm,
            StorageGeneric.add_module_specific_components
              (Examples.battery "linear") Examples.battery_reserves = Ok cm /\
            feasibleb Examples.cycling cm = true) as (cm & Hcm & Hf).
  { vm_compute. eexists. split; reflexivity. }
  apply (state_of_charge_accumulates (Examples.battery "linear")
           Examples.battery_reserves cm Examples.cycling "Battery" 1 [1; 2] 3 [4] 1
           "linear" (fun _ => 1%Q) 0.9%Q 0.9%Q).
  - exact Hcm.
  - by apply feasibleb_sound.
  - vm_compute. reflexivity.
  - decide_elem.
  - reflexivity.
  - intros t Ht. simpl in Ht.
    repeat (apply elem_of_cons in Ht as [->|Ht]; [vm_compute; reflexivity|]).
    inversion Ht.
  - vm_compute. reflexivity.
  - by right.
  - intros t Ht. simpl in Ht.
    repeat (apply elem_of_cons in Ht as [->|Ht]; [decide_elem|]).
    inversion Ht.
  - intros t Ht. simpl in Ht.
    repeat (apply elem_of_cons in Ht as [->|Ht]; [vm_compute; reflexivity|]).
    inversion Ht.
  - vm_compute. reflexivity.
  - vm_compute. reflexivity.
  - intros H. vm_compute in H. discriminate H.
Defined.

(** X6.  In every feasible solution of a storage model that was built, the
    power a storage project provides in an operational timepoint, discharge
    minus charge, lies between minus its power capacity and its power
    capacity in the period of the timepoint. *)
Theorem storage_power_within_capacity (m : StorageGeneric.model)
    (d : StorageGeneric.dynamic_components) (cm : components) (v : valuation)
    (s : string) (tmp : Z) :
  StorageGeneric.add_module_specific_components m d = Ok cm ->
  feasible v cm ->
  (s, tmp) ∈ StorageGeneric.STORAGE_GENERIC_PROJECT_OPERATIONAL_TIMEPOINTS m ->
  exists prd provision,
    Temporal.period (StorageGeneric.tix m) !! tmp = Some prd /\
    StorageGeneric.power_provision_rule m s tmp = Ok provision /\
    (- v (Item "Capacity_MW" (s, prd)) <= eval v provision)%Q /\
    (eval v provision <= v (Item "Capacity_MW" (s, prd)))%Q.
Proof.
  intros Hb Hsol Hin.
  pose proof (storage_rules_hold m d cm v Hb Hsol s tmp Hin) as Hr.
  apply Forall_cons_1 in Hr as [(o1 & Ho1 & Hh1) Hr].
  apply Forall_cons_1 in Hr as [(o2 & Ho2 & Hh2) _].
  destruct (storage_variables_nonnegative m d cm v Hb Hsol s tmp Hin)
    as (Hd0 & Hc0 & _).
  unfold StorageGeneric.max_discharge_rule, var_getitem in Ho1.
  unfold StorageGeneric.max_charge_rule, var_getitem in Ho2.
  simpl in Ho1, Ho2. rewrite getitem_Ok in Ho1, Ho2 by done.
  simpl in Ho1, Ho2.
  apply bind_Ok in Ho1 as (prd & Hprd & Ho1).
  apply bind_Ok in Ho1 as (cap & Hcap & Ho1).
  rewrite Hprd in Ho2. simpl in Ho2. rewrite Hcap in Ho2. simpl in Ho2.
  apply getitem_Ok_inv in Hcap as [_ ->].
  injection Ho1 as <-. injection Ho2 as <-.
  specialize (Hh1 _ eq_refl). specialize (Hh2 _ eq_refl).
  simpl in Hh1, Hh2.
  exists prd, (Sub (Ref (Item "Generic_Storage_Discharge_MW" (s, tmp)))
                   (Ref (Item "Generic_Storage_Charge_MW" (s, tmp)))).
  split; [by apply param_Ok in Hprd|]. split.
  - unfold StorageGeneric.power_provision_rule, var_getitem. simpl.
    by rewrite !getitem_Ok by done.
  - simpl. split; lra.
Qed.

Lemma storage_power_within_capacity_witness :
  exists prd provision,
    Temporal.period (StorageGeneric.tix (Examples.battery "linear")) !! 2 = Some prd /\
    StorageGeneric.power_provision_rule (Examples.battery "linear") "Battery" 2
    = Ok provision /\
    (- Examples.cycling (Item "Capacity_MW" ("Battery", prd))
     <= eval Examples.cycling provision)%Q /\
    (eval Examples.cycling provision
     <= Examples.cycling (Item "Capacity_MW" ("Battery", prd)))%Q.
Proof.
  assert (exists cm,
            StorageGeneric.add_module_specific_components
              (Examples.battery "linear") Examples.battery_reserves = Ok cm /\
            feasibleb Examples.cycling cm = true) as (cm & Hcm & Hf).
  { vm_compute. eexists. split; reflexivity. }
  apply (storage_power_within_capacity (Examples.battery "linear")
           Examples.battery_reserves cm Examples.cycling "Battery" 2).
  - exact Hcm.
  - by apply feasibleb_sound.
  - decide_elem.
Defined.

Section ReserveFacts.

Import StorageGeneric.

Lemma Qsum_nonneg (qs : list Q) :
  (forall q, q ∈ qs -> (0 <= q)%Q) -> (0 <= Qsum qs)%Q.
Proof.
  induction qs as [|q qs IH]; intros H; [by compute|].
  rewrite Qsum_cons.
  assert (0 <= q)%Q by apply H, list_elem_of_here.
  assert (0 <= Qsum qs)%Q by (apply IH; intros q' Hq'; by apply H, list_elem_of_further).
  lra.
Qed.

(** The value of a sum of registered components that are all nonnegative. *)
Lemma sum_of_components_nonneg (m : model) (names : list string) (i : index)
    (e : expr) (v : valuation) :
  sum_of_components m names i = Ok e ->
  (forall c, c ∈ names -> (0 <= v (Item c i))%Q) ->
  (0 <= eval v e)%Q.
Proof.
  unfold sum_of_components. intros H Hnn.
  apply bind_Ok in H as (es & Hes & H). injection H as <-.
  rewrite eval_py_sum. apply Qsum_nonneg. intros q Hq.
  apply list_elem_of_fmap in Hq as (x & -> & Hx).
  destruct (mapM_Ok_elem_inv _ _ _ _ Hes Hx) as (c & Hc & Hget).
  unfold getattr_item in Hget.
  destruct (indexed_components m !! c); [|discriminate].
  apply getitem_Ok_inv in Hget as [_ ->]. simpl. by apply Hnn.
Qed.

End ReserveFacts.

(** X10.  In every feasible solution of a storage model that was built, if
    the headroom reserves registered for a project are nonnegative, the
    energy the project discharges in a timepoint, before the discharging
    loss, is at most the energy stored at the start of the timepoint plus
    the energy charged in it. *)
Theorem discharge_limited_by_stored_energy (m : StorageGeneric.model)
    (d : StorageGeneric.dynamic_components) (cm : components) (v : valuation)
    (s : string) (tmp : Z) (names : list string) (hours ch_eff dis_eff : Q) :
  StorageGeneric.add_module_specific_components m d = Ok cm ->
  feasible v cm ->
  (s, tmp) ∈ StorageGeneric.STORAGE_GENERIC_PROJECT_OPERATIONAL_TIMEPOINTS m ->
  StorageGeneric.headroom_variables d !! s = Some names ->
  (forall c, c ∈ names -> (0 <= v (Item c (s, tmp)))%Q) ->
  Temporal.number_of_hours_in_timepoint (StorageGeneric.tix m) !! tmp = Some hours ->
  (0 <= hours)%Q ->
  StorageGeneric.storage_generic_charging_efficiency m !! s = Some ch_eff ->
  StorageGeneric.storage_generic_discharging_efficiency m !! s = Some dis_eff ->
  (0 < dis_eff)%Q ->
  (v (Item "Generic_Storage_Discharge_MW" (s, tmp)) * hours / dis_eff
   <= v (Item "Starting_Energy_in_Generic_Storage_MWh" (s, tmp))
      + v (Item "Generic_Storage_Charge_MW" (s, tmp)) * hours * ch_eff)%Q.
Proof.
  intros Hb Hsol Hin Hnames Hnn Hhours Hh0 Hch Hdis Hd0.
  pose proof (storage_rules_hold m d cm v Hb Hsol s tmp Hin) as Hr.
  do 4 apply Forall_cons_1 in Hr as [_ Hr].
  apply Forall_cons_1 in Hr as [(o & Ho & Hholds) _].
  unfold StorageGeneric.max_headroom_energy_rule in Ho.
  rewrite (proj2 (param_Ok _ _ _ _) Hnames) in Ho. cbn [bind] in Ho.
  apply bind_Ok in Ho as (reserves & Hres & Ho).
  unfold StorageGeneric.number_of_hours_in_timepoint,
    StorageGeneric.discharging_efficiency,
    StorageGeneric.charging_efficiency in Ho.
  rewrite (proj2 (param_Ok _ _ _ _) Hhours) in Ho. cbn [bind] in Ho.
  rewrite (proj2 (param_Ok _ _ _ _) Hdis) in Ho. cbn [bind] in Ho.
  assert (~ (dis_eff == 0)%Q) as Hnz by lra.
  rewrite !div_by_Ok in Ho by done. cbn [bind] in Ho.
  unfold var_getitem in Ho. simpl in Ho.
  rewrite !getitem_Ok in Ho by done. cbn [bind] in Ho.
  rewrite (proj2 (param_Ok _ _ _ _) Hch) in Ho. cbn [bind] in Ho.
  rewrite div_by_Ok in Ho by done. cbn [bind] in Ho.
  injection Ho as <-. specialize (Hholds _ eq_refl). simpl in Hholds.
  pose proof (sum_of_components_nonneg m names (s, tmp) reserves v Hres Hnn)
    as Hres0.
  assert (0 <= eval v reserves * hours / dis_eff)%Q as Hlhs.
  { unfold Qdiv. apply Qmult_le_0_compat.
    - by apply Qmult_le_0_compat.
    - apply Qinv_le_0_compat. lra. }
  lra.
Qed.

Lemma discharge_limited_by_stored_energy_witness :
  (Examples.cycling (Item "Generic_Storage_Discharge_MW" ("Battery", 2%Z)) * 1 / 0.9
   <= Examples.cycling (Item "Starting_Energy_in_Generic_Storage_MWh" ("Battery", 2%Z))
      + Examples.cycling (Item "Generic_Storage_Charge_MW" ("Battery", 2%Z)) * 1 * 0.9)%Q.
Proof.
  assert (exists cm,
            StorageGeneric.add_module_specific_components
              (Examples.battery "linear") Examples.battery_reserves = Ok cm /\
            feasibleb Examples.cycling cm = true) as (cm & Hcm & Hf).
  { vm_compute. eexists. split; reflexivity. }
  apply (discharge_limited_by_stored_energy (Examples.battery "linear")
           Examples.battery_reserves cm Examples.cycling "Battery" 2 ["Reg_Up"]
           1 0.9%Q 0.9%Q).
  - exact Hcm.
  - by apply feasibleb_sound.
  - decide_elem.
  - vm_compute. reflexivity.
  - intros c Hc. apply list_elem_of_singleton in Hc as ->. by compute.
  - vm_compute. reflexivity.
  - by compute.
  - vm_compute. reflexivity.
  - vm_compute. reflexivity.
  - reflexivity.
Defined.

(** X11.  A storage project with an operational timepoint but no entry in
    the headroom variables or no entry in the footroom variables of the
    dynamic components makes [add_module_specific_components] raise: the
    storage module does not build. *)
Theorem storage_needs_reserve_entries (m : StorageGeneric.model)
    (d : StorageGeneric.dynamic_components) (s : string) (tmp : Z) :
  (s, tmp) ∈ StorageGeneric.STORAGE_GENERIC_PROJECT_OPERATIONAL_TIMEPOINTS m ->
  StorageGeneric.headroom_variables d !! s = None \/
  StorageGeneric.footroom_variables d !! s = None ->
  exists e, StorageGeneric.add_module_specific_components m d = Raise e.
Proof.
  intros Hin Hmissing.
  destruct (StorageGeneric.add_module_specific_components m d) as [cm|e] eqn:Hb;
    [exfalso | by exists e].
  unfold StorageGeneric.add_module_specific_components in Hb.
  apply bind_Ok in Hb as (c1 & _ & Hb). apply bind_Ok in Hb as (c2 & _ & Hb).
  apply bind_Ok in Hb as (c3 & H3 & Hb). apply bind_Ok in Hb as (c4 & H4 & _).
  destruct (Constraint_elem _ _ _ (s, tmp) H3 Hin) as (o3 & Ho3 & _).
  destruct (Constraint_elem _ _ _ (s, tmp) H4 Hin) as (o4 & Ho4 & _).
  simpl in Ho3, Ho4.
  unfold StorageGeneric.max_headroom_power_rule, param in Ho3.
  unfold StorageGeneric.max_footroom_power_rule, param in Ho4.
  destruct Hmissing as [E|E]; rewrite E in *; discriminate.
Qed.

Lemma storage_needs_reserve_entries_witness :
  exists e,
    StorageGeneric.add_module_specific_components (Examples.battery "linear")
      (StorageGeneric.Dynamic ∅ ∅) = Raise e.
Proof.
  apply (storage_needs_reserve_entries (Examples.battery "linear")
           (StorageGeneric.Dynamic ∅ ∅) "Battery" 1).
  - decide_elem.
  - left. reflexivity.
Defined.

Section EfficiencyFacts.

Import StorageGeneric.

Lemma foldl_efficiencies (acc : gmap string Q * gmap string Q)
    (rows : list projects_row) (s : string) :
  let step := fun (acc : gmap string Q * gmap string Q) row =>
    if bool_decide (sp_operational_type row = "storage_generic")
    then (<[sp_project row := sp_charging_efficiency row]> acc.1,
          <[sp_project row := sp_discharging_efficiency row]> acc.2)
    else acc in
  let last_row :=
    last (filter (fun row =>
                    sp_operational_type row = "storage_generic" /\
                    sp_project row = s) rows) in
  (foldl step acc rows).1 !! s
  = match last_row with
    | Some row => Some (sp_charging_efficiency row)
    | None => acc.1 !! s
    end /\
  (foldl step acc rows).2 !! s
  = match last_row with
    | Some row => Some (sp_discharging_efficiency row)
    | None => acc.2 !! s
    end.
Proof.
  intros step. revert acc. induction rows as [|row rows IH]; intros acc; [done|].
  simpl. destruct (IH (step acc row)) as [IH1 IH2].
  rewrite IH1, IH2. clear IH IH1 IH2.
  rewrite filter_cons. case_decide as Hn; [destruct Hn as [Hty Hs]|].
  - rewrite last_cons.
    destruct (last (filter _ rows)); [done|].
    unfold step. rewrite bool_decide_eq_true_2 by done.
    simpl. rewrite Hs. by rewrite !lookup_insert_eq.
  - destruct (last (filter _ rows)); [done|].
    unfold step. case_bool_decide as Hty; [|done].
    simpl. rewrite !lookup_insert_ne; [done| |]; intros E; apply Hn; by split.
Qed.

End EfficiencyFacts.

(** X9.  [determine_efficiencies] gives a project the charging and the
    discharging efficiency of its last row of type [storage_generic], and
    gives no efficiency to a project without such a row; after
    [load_module_specific_data] both parameters are defined for exactly the
    same projects. *)
Theorem last_efficiency_row_wins (m : StorageGeneric.model)
    (rows : list StorageGeneric.projects_row) (s : string) :
  let last_row :=
    last (filter (fun row =>
                    StorageGeneric.sp_operational_type row = "storage_generic" /\
                    StorageGeneric.sp_project row = s) rows) in
  let m' := StorageGeneric.load_module_specific_data m rows in
  StorageGeneric.storage_generic_charging_efficiency m' !! s
  = StorageGeneric.sp_charging_efficiency <$> last_row /\
  StorageGeneric.storage_generic_discharging_efficiency m' !! s
  = StorageGeneric.sp_discharging_efficiency <$> last_row /\
  (is_Some (StorageGeneric.storage_generic_charging_efficiency m' !! s) <->
   is_Some (StorageGeneric.storage_generic_discharging_efficiency m' !! s)).
Proof.
  intros last_row m'.
  destruct (foldl_efficiencies (∅, ∅) rows s) as [H1 H2].
  assert (StorageGeneric.storage_generic_charging_efficiency m' !! s
          = StorageGeneric.sp_charging_efficiency <$> last_row) as E1.
  { etrans; [exact H1|]. unfold last_row.
    destruct (last (filter _ rows)); [done | apply lookup_empty]. }
  assert (StorageGeneric.storage_generic_discharging_efficiency m' !! s
          = StorageGeneric.sp_discharging_efficiency <$> last_row) as E2.
  { etrans; [exact H2|]. unfold last_row.
    destruct (last (filter _ rows)); [done | apply lookup_empty]. }
  split; [done|]. split; [done|].
  rewrite E1, E2, !fmap_is_Some. done.
Qed.


(* ================================================================== *)
(** * More about demand response *)
(* ================================================================== *)

Section DRSolutions.

Import DR.

Lemma Qsum_fmap_minus {A : Type} (f g : A -> Q) (l : list A) :
  (Qsum ((fun x => f x - g x) <$> l) == Qsum (f <$> l) - Qsum (g <$> l))%Q.
Proof.
  induction l as [|a l IH]; [by compute|].
  rewrite !fmap_cons, !Qsum_cons, IH. ring.
Qed.

(** A horizon of [DR_OPR_HRZS] in a model that was built: the project is
    operational at every timepoint of the horizon. *)
Lemma dr_operational_on_horizon (m : model) (cm : components) (hrzs : list index)
    (p : string) (h : Z) (tmps : list Z) :
  add_module_specific_components m = Ok cm ->
  DR_OPR_HRZS m = Ok hrzs -> (p, h) ∈ hrzs ->
  Temporal.TIMEPOINTS_ON_HORIZON (tix m) !! h = Some tmps ->
  forall t, t ∈ tmps -> (p, t) ∈ DR_OPR_TMPS m.
Proof.
  intros Hb Hh Hph Htmps t Ht.
  apply dr_built in Hb as (hrzs' & c1 & c2 & c3 & c4 & Hh' & _ & _ & H3 & _).
  assert (hrzs' = hrzs) as -> by congruence.
  destruct (Constraint_elem _ _ _ (p, h) H3 Hph) as (o & Ho & _).
  simpl in Ho. unfold energy_balance_rule, TIMEPOINTS_ON_HORIZON in Ho.
  rewrite (proj2 (param_Ok _ _ _ _) Htmps) in Ho. cbn [bind] in Ho.
  apply bind_Ok in Ho as (ups & Hups & _).
  destruct (mapM_Ok_elem _ _ _ t Hups Ht) as (e & He & _).
  by apply getitem_Ok_inv in He as [? _].
Qed.

End DRSolutions.

(** X12.  In every feasible solution of a demand-response model that was
    built, the power a project provides, shift-down minus shift-up, sums to
    zero over the timepoints of each of its horizons. *)
Theorem dr_net_power_zero (m : DR.model) (cm : components) (v : valuation)
    (hrzs : list index) (p : string) (h : Z) (tmps : list Z) :
  DR.add_module_specific_components m = Ok cm ->
  feasible v cm ->
  DR.DR_OPR_HRZS m = Ok hrzs -> (p, h) ∈ hrzs ->
  Temporal.TIMEPOINTS_ON_HORIZON (DR.tix m) !! h = Some tmps ->
  exists provisions,
    mapM (DR.power_provision_rule m p) tmps = Ok provisions /\
    (Qsum (eval v <$> provisions) == 0)%Q.
Proof.
  intros Hb Hsol Hh Hph Htmps.
  pose proof (dr_operational_on_horizon m cm hrzs p h tmps Hb Hh Hph Htmps) as Hop.
  exists ((fun t => Sub (Ref (Item "DR_Shift_Down_MW" (p, t)))
                        (Ref (Item "DR_Shift_Up_MW" (p, t)))) <$> tmps).
  split.
  - apply mapM_Ok_fmap. intros t Ht.
    unfold DR.power_provision_rule, var_getitem. simpl.
    by rewrite !getitem_Ok by auto.
  - apply dr_built in Hb as (hrzs' & c1 & c2 & c3 & c4 & Hh' & _ & _ & H3 & _ & ->).
    assert (hrzs' = hrzs) as -> by congruence.
    destruct (Constraint_elem _ _ _ (p, h) H3 Hph) as (o & Ho & Hmem).
    simpl in Ho.
    rewrite (energy_balance_rule_enforced m p h tmps Htmps Hop) in Ho.
    injection Ho as <-.
    destruct Hsol as [_ Hcons]. simpl in Hcons. rewrite Forall_forall in Hcons.
    assert (holds v (Eq (py_sum ((fun t => Ref (Item "DR_Shift_Up_MW" (p, t)))
                                   <$> tmps))
                        (py_sum ((fun t => Ref (Item "DR_Shift_Down_MW" (p, t)))
                                   <$> tmps)))) as Hbal.
    { apply Hcons. rewrite !elem_of_app. do 2 right. left. by apply Hmem. }
    simpl in Hbal. rewrite !eval_py_sum, <- !list_fmap_compose in Hbal.
    rewrite <- list_fmap_compose.
    etrans; [apply (Qsum_fmap_minus
                      (fun t => v (Item "DR_Shift_Down_MW" (p, t)))
                      (fun t => v (Item "DR_Shift_Up_MW" (p, t))))|].
    unfold compose in Hbal. simpl in Hbal. lra.
Qed.

Lemma dr_net_power_zero_witness :
  exists provisions,
    mapM (DR.power_provision_rule Examples.shifter "Shift") [1; 2; 3; 4]
    = Ok provisions /\
    (Qsum (eval Examples.shifting <$> provisions) == 0)%Q.
Proof.
  assert (exists cm,
            DR.add_module_specific_components Examples.shifter = Ok cm /\
            feasibleb Examples.shifting cm = true) as (cm & Hcm & Hf).
  { vm_compute. eexists. split; reflexivity. }
  apply (dr_net_power_zero Examples.shifter cm Examples.shifting [("Shift", 1)]
           "Shift" 1 [1; 2; 3; 4]).
  - exact Hcm.
  - by apply feasibleb_sound.
  - vm_compute. reflexivity.
  - decide_elem.
  - vm_compute. reflexivity.
Defined.

(** X13.  In every feasible solution of a demand-response model that was
    built, the shift up and the shift down of a project in an operational
    timepoint are between zero and its capacity in the period of the
    timepoint, so the power it provides is between minus the capacity and
    the capacity. *)
Theorem dr_shift_within_capacity (m : DR.model) (cm : components) (v : valuation)
    (p : string) (tmp : Z) :
  DR.add_module_specific_components m = Ok cm ->
  feasible v cm ->
  (p, tmp) ∈ DR.DR_OPR_TMPS m ->
  exists prd provision,
    Temporal.period (DR.tix m) !! tmp = Some prd /\
    (0 <= v (Item "DR_Shift_Up_MW" (p, tmp)) <= v (Item "Capacity_MW" (p, prd)))%Q /\
    (0 <= v (Item "DR_Shift_Down_MW" (p, tmp)) <= v (Item "Capacity_MW" (p, prd)))%Q /\
    DR.power_provision_rule m p tmp = Ok provision /\
    (- v (Item "Capacity_MW" (p, prd)) <= eval v provision
     <= v (Item "Capacity_MW" (p, prd)))%Q.
Proof.
  intros Hb [Hvars Hcons] Hin.
  apply dr_built in Hb as (hrzs & c1 & c2 & c3 & c4 & _ & H1 & H2 & _ & _ & ->).
  simpl in Hvars, Hcons. rewrite Forall_forall in Hcons.
  apply Forall_cons_1 in Hvars as [Hup Hvars].
  apply Forall_cons_1 in Hvars as [Hdown _].
  specialize (Hup (p, tmp) Hin). specialize (Hdown (p, tmp) Hin).
  simpl in Hup, Hdown.
  destruct (Constraint_elem _ _ _ (p, tmp) H1 Hin) as (o1 & Ho1 & Hm1).
  destruct (Constraint_elem _ _ _ (p, tmp) H2 Hin) as (o2 & Ho2 & Hm2).
  simpl in Ho1, Ho2.
  unfold DR.max_shift_up_rule, var_getitem in Ho1.
  unfold DR.max_shift_down_rule, var_getitem in Ho2.
  simpl in Ho1, Ho2. rewrite getitem_Ok in Ho1, Ho2 by done.
  cbn [bind] in Ho1, Ho2.
  apply bind_Ok in Ho1 as (prd & Hprd & Ho1).
  apply bind_Ok in Ho1 as (cap & Hcap & Ho1).
  rewrite Hprd in Ho2. cbn [bind] in Ho2. rewrite Hcap in Ho2. cbn [bind] in Ho2.
  apply getitem_Ok_inv in Hcap as [_ ->].
  injection Ho1 as <-. injection Ho2 as <-.
  assert (holds v (Le (Ref (Item "DR_Shift_Up_MW" (p, tmp)))
                      (Ref (Item "Capacity_MW" (p, prd))))) as Hu.
  { apply Hcons. rewrite !elem_of_app. left. by apply Hm1. }
  assert (holds v (Le (Ref (Item "DR_Shift_Down_MW" (p, tmp)))
                      (Ref (Item "Capacity_MW" (p, prd))))) as Hd.
  { apply Hcons. rewrite !elem_of_app. right. left. by apply Hm2. }
  simpl in Hu, Hd.
  exists prd, (Sub (Ref (Item "DR_Shift_Down_MW" (p, tmp)))
                   (Ref (Item "DR_Shift_Up_MW" (p, tmp)))).
  split; [by apply param_Ok in Hprd|].
  split; [done|]. split; [done|]. split.
  - unfold DR.power_provision_rule, var_getitem. simpl.
    by rewrite !getitem_Ok by done.
  - simpl. split; lra.
Qed.

Lemma dr_shift_within_capacity_witness :
  exists prd provision,
    Temporal.period (DR.tix Examples.shifter) !! 2 = Some prd /\
    (0 <= Examples.shifting (Item "DR_Shift_Up_MW" ("Shift", 2%Z))
     <= Examples.shifting (Item "Capacity_MW" ("Shift", prd)))%Q /\
    (0 <= Examples.shifting (Item "DR_Shift_Down_MW" ("Shift", 2%Z))
     <= Examples.shifting (Item "Capacity_MW" ("Shift", prd)))%Q /\
    DR.power_provision_rule Examples.shifter "Shift" 2 = Ok provision /\
    (- Examples.shifting (Item "Capacity_MW" ("Shift", prd)) <= eval Examples.shifting provision
     <= Examples.shifting (Item "Capacity_MW" ("Shift", prd)))%Q.
Proof.
  assert (exists cm,
            DR.add_module_specific_components Examples.shifter = Ok cm /\
            feasibleb Examples.shifting cm = true) as (cm & Hcm & Hf).
  { vm_compute. eexists. split; reflexivity. }
  apply (dr_shift_within_capacity Examples.shifter cm Examples.shifting "Shift" 2).
  - exact Hcm.
  - by apply feasibleb_sound.
  - decide_elem.
Defined.

(** X14.  When [DR_OPR_HRZS] is built it has no duplicates, and it holds
    [(g, h)] exactly when [g] is a demand-response project with an
    operational timepoint whose horizon, for the balancing type of [g], is
    [h]. *)
Theorem dr_operational_horizons (m : DR.model) (hrzs : list index)
    (g : string) (h : Z) :
  DR.DR_OPR_HRZS m = Ok hrzs ->
  NoDup hrzs /\
  ((g, h) ∈ hrzs <->
   g ∈ DR.DR m /\
   exists tmp bt,
     (g, tmp) ∈ DR.PROJECT_OPERATIONAL_TIMEPOINTS m /\
     DR.balancing_type_project m !! g = Some bt /\
     DR.horizon m !! (tmp, bt) = Some h).
Proof.
  unfold DR.DR_OPR_HRZS. intros H.
  apply bind_Ok in H as (hs & Hhs & H). injection H as <-.
  split; [apply NoDup_remove_dups|].
  rewrite elem_of_remove_dups. split.
  - intros Hin.
    destruct (mapM_Ok_elem_inv _ _ _ _ Hhs Hin) as ([g' tmp] & Hgt & Hf).
    apply list_elem_of_filter in Hgt as [Hdr Hgt]. simpl in Hdr, Hf.
    apply bind_Ok in Hf as (bt & Hbt & Hf). apply bind_Ok in Hf as (h' & Hh' & Hf).
    injection Hf as -> ->.
    split; [done|]. exists tmp, bt.
    split; [done|].
    split; [by apply param_Ok in Hbt | by apply param_Ok in Hh'].
  - intros (Hdr & tmp & bt & Hgt & Hbt & Hh).
    assert ((g, tmp) ∈ filter (fun gt : index => gt.1 ∈ DR.DR m)
                         (DR.PROJECT_OPERATIONAL_TIMEPOINTS m)) as Hin
      by (by apply list_elem_of_filter).
    destruct (mapM_Ok_elem _ _ _ _ Hhs Hin) as (y & Hy & Hyin).
    simpl in Hy.
    rewrite (proj2 (param_Ok _ _ _ _) Hbt) in Hy. cbn [bind] in Hy.
    rewrite (proj2 (param_Ok _ _ _ _) Hh) in Hy. cbn [bind] in Hy.
    by injection Hy as <-.
Qed.

Lemma dr_operational_horizons_witness :
  NoDup [("Shift", 1)] /\
  (("Shift", 1) ∈ [("Shift", 1)] <->
   "Shift" ∈ DR.DR Examples.shifter /\
   exists tmp bt,
     ("Shift", tmp) ∈ DR.PROJECT_OPERATIONAL_TIMEPOINTS Examples.shifter /\
     DR.balancing_type_project Examples.shifter !! "Shift" = Some bt /\
     DR.horizon Examples.shifter !! (tmp, bt) = Some 1).
Proof.
  apply (dr_operational_horizons Examples.shifter [("Shift", 1)] "Shift" 1).
  vm_compute. reflexivity.
Defined.

Section PowerDelta.

Import DR.

Variable m : model.
Variable p : string.
Variable tmp h : Z.
Variable bt b : string.
Variable tmps : list Z.
Variable first : Z.

Hypothesis balancing_type : balancing_type_project m !! p = Some bt.
Hypothesis horizon_of_tmp : horizon m !! (tmp, bt) = Some h.
Hypothesis timepoints_of_h :
  Temporal.TIMEPOINTS_ON_HORIZON (tix m) !! h = Some tmps.
Hypothesis tmp_on_h : tmp ∈ tmps.
Hypothesis first_of_h : head tmps = Some first.
Hypothesis boundary_of_h : Temporal.boundary (tix m) !! h = Some b.
Hypothesis mode : b = "circular" \/ b = "linear".

Lemma dr_first_horizon_timepoint :
  Temporal.first_horizon_timepoint (tix m) h = Ok first.
Proof using timepoints_of_h first_of_h.
  unfold Temporal.first_horizon_timepoint.
  rewrite (proj2 (param_Ok _ _ _ _) timepoints_of_h). cbn [bind].
  assert (exists l, tmps = first :: l) as (l & E); [|by rewrite E].
  clear -first_of_h. destruct tmps as [|a l]; [discriminate|].
  injection first_of_h as ->. by exists l.
Qed.

Lemma dr_previous_timepoint :
  ~ (tmp = first /\ b = "linear") ->
  exists prev, previous_timepoint m tmp bt = Ok prev /\ prev ∈ tmps.
Proof using All.
  intros Hn. unfold previous_timepoint, Temporal.previous_timepoint.
  rewrite (proj2 (param_Ok _ _ _ _) horizon_of_tmp). cbn [bind].
  rewrite dr_first_horizon_timepoint. cbn [bind].
  case_bool_decide as Hf.
  - rewrite (proj2 (param_Ok _ _ _ _) boundary_of_h). cbn [bind].
    destruct mode as [Hb|Hb]; [|tauto].
    rewrite bool_decide_eq_true_2 by done.
    unfold Temporal.last_horizon_timepoint.
    rewrite (proj2 (param_Ok _ _ _ _) timepoints_of_h). cbn [bind].
    destruct (last tmps) as [z|] eqn:El.
    + cbn [bind]. exists z. split; [done|]. by apply last_Some_elem_of.
    + apply last_None in El. rewrite El in tmp_on_h. inversion tmp_on_h.
  - rewrite (proj2 (param_Ok _ _ _ _) timepoints_of_h). cbn [bind].
    destruct (predecessor_exists tmps tmp) as (q & Hq & Hin);
      [done | rewrite first_of_h; congruence |].
    rewrite Hq. by exists q.
Qed.

Hypothesis operational_on_h : forall t, t ∈ tmps -> (p, t) ∈ DR_OPR_TMPS m.

Lemma power_delta_rule_eq :
  power_delta_rule m p tmp =
    if bool_decide (tmp = first) && bool_decide (b = "linear") then Ok None
    else
      prev <- previous_timepoint m tmp bt ;;
      up_prev <- var_getitem (DR_Shift_Up_MW m) (p, prev) ;;
      down_prev <- var_getitem (DR_Shift_Down_MW m) (p, prev) ;;
      Ok (Some (Sub (Sub (Ref (Item "DR_Shift_Up_MW" (p, tmp)))
                       (Ref (Item "DR_Shift_Down_MW" (p, tmp))))
                  (Sub up_prev down_prev))).
Proof using All.
  unfold power_delta_rule.
  rewrite (proj2 (param_Ok _ _ _ _) balancing_type). cbn [bind].
  rewrite (proj2 (param_Ok _ _ _ _) horizon_of_tmp). cbn [bind].
  rewrite dr_first_horizon_timepoint. cbn [bind].
  assert ((if bool_decide (tmp = first)
           then b0 <- param "boundary" (Temporal.boundary (tix m)) h ;;
                Ok (bool_decide (b0 = "linear"))
           else Ok false)
          = Ok (bool_decide (tmp = first) && bool_decide (b = "linear"))) as ->.
  { case_bool_decide; [|done].
    by rewrite (proj2 (param_Ok _ _ _ _) boundary_of_h). }
  cbn [bind].
  destruct (bool_decide (tmp = first) && bool_decide (b = "linear")); [done|].
  unfold var_getitem. simpl. rewrite !getitem_Ok by auto. cbn [bind].
  destruct (previous_timepoint m tmp bt) as [prev|e]; [|done]. cbn [bind].
  destruct (getitem "DR_Shift_Up_MW" (DR_OPR_TMPS m) (p, prev)); done.
Qed.

End PowerDelta.

(** X15.  For a demand-response project operational on the whole horizon of
    a timepoint, [power_delta_rule] returns no expression exactly at the
    first timepoint of a linear horizon.  Elsewhere it returns the change of
    the net shift up from the previous timepoint, which is the power
    provided in the previous timepoint minus the power provided in this
    one. *)
Theorem power_delta_opposes_provision (m : DR.model) (p : string) (tmp h : Z)
    (bt b : string) (tmps : list Z) (first : Z) :
  DR.balancing_type_project m !! p = Some bt ->
  DR.horizon m !! (tmp, bt) = Some h ->
  Temporal.TIMEPOINTS_ON_HORIZON (DR.tix m) !! h = Some tmps ->
  tmp ∈ tmps ->
  head tmps = Some first ->
  Temporal.boundary (DR.tix m) !! h = Some b ->
  b = "circular" \/ b = "linear" ->
  (forall t, t ∈ tmps -> (p, t) ∈ DR.DR_OPR_TMPS m) ->
  (DR.power_delta_rule m p tmp = Ok None <-> tmp = first /\ b = "linear") /\
  (~ (tmp = first /\ b = "linear") ->
   exists prev delta now before,
     DR.previous_timepoint m tmp bt = Ok prev /\
     DR.power_delta_rule m p tmp = Ok (Some delta) /\
     DR.power_provision_rule m p tmp = Ok now /\
     DR.power_provision_rule m p prev = Ok before /\
     forall v, (eval v delta == eval v before - eval v now)%Q).
Proof.
  intros Hbt Hhz Htmps Hin Hh Hbd Hmode Hop.
  pose proof (power_delta_rule_eq m p tmp h bt b tmps first Hbt Hhz Htmps Hin Hh
                Hbd Hmode Hop) as Hrule.
  assert (~ (tmp = first /\ b = "linear") ->
          exists prev,
            DR.previous_timepoint m tmp bt = Ok prev /\ prev ∈ tmps /\
            DR.power_delta_rule m p tmp =
              Ok (Some (Sub (Sub (Ref (Item "DR_Shift_Up_MW" (p, tmp)))
                               (Ref (Item "DR_Shift_Down_MW" (p, tmp))))
                          (Sub (Ref (Item "DR_Shift_Up_MW" (p, prev)))
                             (Ref (Item "DR_Shift_Down_MW" (p, prev)))))))
    as Hsome.
  { intros Hn.
    destruct (dr_previous_timepoint m p tmp h bt b tmps first Hbt Hhz Htmps Hin
                Hh Hbd Hmode Hn) as (prev & Hprev & Hpin).
    exists prev. split; [done|]. split; [done|].
    rewrite Hrule.
    destruct (bool_decide (tmp = first) && bool_decide (b = "linear")) eqn:E.
    { apply andb_true_iff in E as [E1 E2].
      apply bool_decide_eq_true_1 in E1, E2. tauto. }
    rewrite Hprev. cbn [bind]. unfold var_getitem. simpl.
    by rewrite !getitem_Ok by auto. }
  split.
  - split.
    + intros Hnone.
      destruct (decide (tmp = first /\ b = "linear")) as [|Hn]; [done|].
      destruct (Hsome Hn) as (prev & _ & _ & Hr). congruence.
    + intros [-> ->]. rewrite Hrule. by rewrite !bool_decide_eq_true_2.
  - intros Hn. destruct (Hsome Hn) as (prev & Hprev & Hpin & Hr).
    exists prev. eexists _, _, _. split; [done|]. split; [exact Hr|].
    split; [|split].
    + unfold DR.power_provision_rule, var_getitem. simpl.
      by rewrite !getitem_Ok by auto.
    + unfold DR.power_provision_rule, var_getitem. simpl.
      by rewrite !getitem_Ok by auto.
    + intros v. simpl. ring.
Qed.

Lemma power_delta_opposes_provision_witness :
  (DR.power_delta_rule Examples.shifter "Shift" 1 = Ok None
   <-> 1 = 1 /\ "circular" = "linear") /\
  (~ (1 = 1 /\ "circular" = "linear") ->
   exists prev delta now before,
     DR.previous_timepoint Examples.shifter 1 "day" = Ok prev /\
     DR.power_delta_rule Examples.shifter "Shift" 1 = Ok (Some delta) /\
     DR.power_provision_rule Examples.shifter "Shift" 1 = Ok now /\
     DR.power_provision_rule Examples.shifter "Shift" prev = Ok before /\
     forall v, (eval v delta == eval v before - eval v now)%Q).
Proof.
  apply (power_delta_opposes_provision Examples.shifter "Shift" 1 1 "day"
           "circular" [1; 2; 3; 4] 1).
  - vm_compute. reflexivity.
  - vm_compute. reflexivity.
  - vm_compute. reflexivity.
  - decide_elem.
  - reflexivity.
  - vm_compute. reflexivity.
  - by left.
  - intros t Ht.
    repeat (apply elem_of_cons in Ht as [->|Ht]; [decide_elem|]).
    inversion Ht.
Defined.


(* ================================================================== *)
(** * More about the local capacity balance and the objective *)
(* ================================================================== *)

(** X16.  The local capacity balance builds exactly when every value given
    for the shortage penalty is nonnegative and belongs to a local capacity
    zone, and, at every zone and period with a requirement, the requirement
    is defined and every registered provision component is a component of
    the model with an item at that zone and period. *)
Theorem local_capacity_builds_iff (m : LocalCapacityBalance.model)
    (d : list string) :
  (exists cm, LocalCapacityBalance.add_model_components m d = Ok cm) <->
  (forall z q,
     LocalCapacityBalance.local_capacity_shortage_penalty_per_mw m !! z = Some q ->
     z ∈ LocalCapacityBalance.LOCAL_CAPACITY_ZONES m /\ (0 <= q)%Q) /\
  (forall z p,
     (z, p) ∈ LocalCapacityBalance.LOCAL_CAPACITY_ZONE_PERIODS_WITH_REQUIREMENT m ->
     is_Some (LocalCapacityBalance.local_capacity_requirement_mw m !! (z, p)) /\
     forall c, c ∈ d ->
       exists idx, LocalCapacityBalance.indexed_components m !! c = Some idx /\
                   (z, p) ∈ idx).
Proof.
  split.
  - intros (cm & Hb).
    destruct (local_capacity_built m d cm Hb) as (Hpen & totals & cs & _ & Hcs & _).
    split; [exact (proj1 (Param_Ok _ _ _ _) Hpen)|].
    intros z p Hin.
    destruct (Constraint_elem _ _ _ (z, p) Hcs Hin) as (o & Ho & _).
    simpl in Ho.
    unfold LocalCapacityBalance.local_capacity_requirement_rule,
      LocalCapacityBalance.Total_Local_Capacity_from_All_Sources_Expression_MW,
      LocalCapacityBalance.total_local_capacity_rule in Ho.
    rewrite bool_decide_eq_true_2 in Ho by done.
    apply bind_Ok in Ho as (total & Htotal & Ho).
    apply bind_Ok in Htotal as (es & Hes & _).
    apply bind_Ok in Ho as (shortage & _ & Ho).
    apply bind_Ok in Ho as (req & Hreq & _).
    split; [exists req; by apply param_Ok in Hreq|].
    intros c Hc. destruct (mapM_Ok_elem _ _ _ c Hes Hc) as (e & He & _).
    unfold LocalCapacityBalance.getattr_item in He.
    destruct (LocalCapacityBalance.indexed_components m !! c) as [idx|].
    + exists idx. split; [done|]. by apply getitem_Ok_inv in He as [? _].
    + case_bool_decide; discriminate.
  - intros [Hpen Hall]. unfold LocalCapacityBalance.add_model_components.
    rewrite (proj2 (Param_Ok "local_capacity_shortage_penalty_per_mw" _
                      NonNegativeReals _) Hpen). cbn [bind].
    destruct (mapM_Ok_all (LocalCapacityBalance.total_local_capacity_rule m d)
                (LocalCapacityBalance.LOCAL_CAPACITY_ZONE_PERIODS_WITH_REQUIREMENT m))
      as (totals & ->).
    { intros [z p] Hin. destruct (Hall z p Hin) as [_ Hd].
      rewrite (total_local_capacity_rule_Ok m d (z, p) Hd). eauto. }
    cbn [bind].
    destruct (Constraint_Ok_all
                (LocalCapacityBalance.LOCAL_CAPACITY_ZONE_PERIODS_WITH_REQUIREMENT m)
                (fun zp : index =>
                   LocalCapacityBalance.local_capacity_requirement_rule m d
                     zp.1 zp.2)) as (cs & ->); [|simpl; eauto].
    intros [z p] Hin. simpl. destruct (Hall z p Hin) as [[req Hreq] Hd].
    unfold LocalCapacityBalance.local_capacity_requirement_rule,
      LocalCapacityBalance.Total_Local_Capacity_from_All_Sources_Expression_MW.
    rewrite bool_decide_eq_true_2 by done.
    rewrite (total_local_capacity_rule_Ok m d (z, p) Hd). cbn [bind].
    unfold var_getitem. simpl. rewrite getitem_Ok by done. cbn [bind].
    rewrite (proj2 (param_Ok _ _ _ _) Hreq). cbn [bind]. eauto.
Qed.

Section ObjectiveMore.

Import Objective.

(** What one step of the sum of [total_cost_rule] does with a name. *)
Lemma getattr_cases (s : state) (c : string) :
  ((c ∈ expressions s \/ other_attributes s !! c = Some Scalar) /\
   (x <- getattr s c ;; summand x) = Ok (Ref (Attr c))) \/
  (~ c ∈ expressions s /\
   ((other_attributes s !! c = None /\
     (x <- getattr s c ;; summand x) = Raise (AttributeError c)) \/
    (other_attributes s !! c = Some NotSummable /\
     exists msg, (x <- getattr s c ;; summand x) = Raise (TypeError msg)))).
Proof.
  unfold getattr. case_bool_decide as Hc; [left; auto|].
  destruct (other_attributes s !! c) as [[]|]; simpl; [left; auto | |];
    right; split; eauto.
Qed.

Lemma Total_Cost_Ok (s : state) :
  (forall c, c ∈ total_cost_components s -> c ∈ expressions s) ->
  Total_Cost s =
    Ok (Objective (py_sum ((fun c => Ref (Attr c)) <$> total_cost_components s))
          minimize).
Proof.
  intros Hs. unfold Total_Cost. by rewrite (total_cost_rule_Ok s Hs).
Qed.

End ObjectiveMore.

(** X19.  The objective is built exactly when every name registered in
    [total_cost_components] is a scalar expression, variable or parameter
    of the model.  Otherwise building it raises the [AttributeError] of a
    registered name that is no attribute of the model, or a [TypeError] for
    a registered name whose attribute cannot be added. *)
Theorem objective_needs_registered_expressions (s : Objective.state) :
  ((exists obj, Objective.Total_Cost s = Ok obj) <->
   forall c, c ∈ Objective.total_cost_components s ->
     c ∈ Objective.expressions s \/
     Objective.other_attributes s !! c = Some Objective.Scalar) /\
  (forall e,
     Objective.Total_Cost s = Raise e ->
     exists c,
       c ∈ Objective.total_cost_components s /\
       ~ c ∈ Objective.expressions s /\
       ((e = AttributeError c /\ Objective.other_attributes s !! c = None) \/
        ((exists msg, e = TypeError msg) /\
         Objective.other_attributes s !! c = Some Objective.NotSummable))).
Proof.
  split; [split|].
  - intros (obj & Hobj) c Hc. unfold Objective.Total_Cost in Hobj.
    apply bind_Ok in Hobj as (e & He & _).
    unfold Objective.total_cost_rule in He.
    apply bind_Ok in He as (es & Hes & _).
    destruct (mapM_Ok_elem _ _ _ c Hes Hc) as (y & Hy & _). simpl in Hy.
    destruct (getattr_cases s c)
      as [[Hin _]|[_ [[_ Hr]|[_ (msg & Hr)]]]]; [done | congruence | congruence].
  - intros Hs. unfold Objective.Total_Cost, Objective.total_cost_rule.
    rewrite (mapM_Ok_fmap _ (fun c => Ref (Attr c))); [simpl; eauto|].
    intros c Hc.
    destruct (getattr_cases s c) as [[_ Hok]|[Hnin Hrest]]; [done|].
    destruct (Hs c Hc) as [Hin|Hsc]; [done|].
    destruct Hrest as [[Hn _]|[Hn _]]; congruence.
  - intros e He. unfold Objective.Total_Cost, Objective.total_cost_rule in He.
    destruct (mapM (fun c => x <- Objective.getattr s c ;; Objective.summand x)
                (Objective.total_cost_components s))
      as [es|e'] eqn:E; simpl in He; [discriminate|].
    injection He as <-. apply mapM_Raise in E as (c & Hc & Hr).
    exists c. split; [done|].
    destruct (getattr_cases s c)
      as [[_ Hok]|[Hnin [[Hn Hraise]|[Hn (msg & Hraise)]]]]; [congruence| |].
    + split; [done|]. left. split; [congruence | done].
    + split; [done|]. right. split; [exists msg; congruence | done].
Qed.

(** X18.  Defining an expression and registering its name adds exactly the
    value of that expression to the objective; a name that was already
    registered is counted once more. *)
Theorem registering_adds_a_term (s : Objective.state) (name : string) :
  (forall c, c ∈ Objective.total_cost_components s -> c ∈ Objective.expressions s) ->
  exists obj obj',
    Objective.Total_Cost s = Ok obj /\
    Objective.Total_Cost
      (Objective.append_cost_component name (Objective.add_expression name s))
    = Ok obj' /\
    forall v,
      (eval v (Objective.objective_expr obj')
       == eval v (Objective.objective_expr obj) + v (Attr name))%Q.
Proof.
  intros Hs.
  rewrite (Total_Cost_Ok s Hs).
  rewrite (Total_Cost_Ok _ (register_defined name s Hs)).
  eexists _, _. split; [done|]. split; [done|].
  intros v. simpl. rewrite !eval_py_sum, <- !list_fmap_compose.
  rewrite fmap_app. simpl.
  etrans; [apply Qsum_snoc|]. reflexivity.
Qed.

Lemma registering_adds_a_term_witness :
  exists obj obj',
    Objective.Total_Cost (Objective.State ["A"] ["A"] ∅) = Ok obj /\
    Objective.Total_Cost
      (Objective.append_cost_component "A"
         (Objective.add_expression "A" (Objective.State ["A"] ["A"] ∅)))
    = Ok obj' /\
    forall v,
      (eval v (Objective.objective_expr obj')
       == eval v (Objective.objective_expr obj) + v (Attr "A"))%Q.
Proof.
  apply (registering_adds_a_term (Objective.State ["A"] ["A"] ∅) "A").
  intros c Hc. exact Hc.
Defined.


(* ================================================================== *)
(** * The exported retirement results *)
(* ================================================================== *)

Lemma mapM_Ok_keys {A B : Type} (f : A -> result B) (key : B -> A)
    (l : list A) (ys : list B) :
  mapM f l = Ok ys ->
  (forall x y, f x = Ok y -> key y = x) ->
  key <$> ys = l.
Proof.
  intros H Hkey. revert ys H.
  induction l as [|x l IH]; intros ys H; simpl in H.
  - by injection H as <-.
  - apply bind_Ok in H as (y & Hy & H).
    apply bind_Ok in H as (ys' & Hys' & H). injection H as <-.
    by rewrite fmap_cons, (IH ys' Hys'), (Hkey x y Hy).
Qed.

(** X20.  When the retirement results are exported there is one row for
    every operational period, in the order of the set, and in every row the
    retired capacity plus the capacity [capacity_rule] leaves to the project
    is the specified capacity of the project in that period. *)
Theorem exported_rows_account_for_capacity (m : GenRetBin.model)
    (technology load_zone : gmap string string) (v : valuation)
    (rows : list GenRetBin.results_row) :
  GenRetBin.export_module_specific_results m technology load_zone v = Ok rows ->
  (fun row => (GenRetBin.rr_project row, GenRetBin.rr_period row)) <$> rows
  = GenRetBin.GEN_RET_BIN_OPR_PRDS m /\
  forall row, row ∈ rows ->
    exists cap capacity,
      GenRetBin.gen_ret_bin_capacity_mw m
        !! (GenRetBin.rr_project row, GenRetBin.rr_period row) = Some cap /\
      GenRetBin.capacity_rule m (GenRetBin.rr_project row) (GenRetBin.rr_period row)
      = Ok capacity /\
      (GenRetBin.rr_retired_mw row + eval v capacity == cap)%Q /\
      GenRetBin.rr_retired_binary row
      = v (Item "GenRetBin_Retire"
             (GenRetBin.rr_project row, GenRetBin.rr_period row)).
Proof.
  unfold GenRetBin.export_module_specific_results. intros H.
  assert (forall (gp : index) row,
            (tech <- param "technology" technology gp.1 ;;
             zone <- param "load_zone" load_zone gp.1 ;;
             retire <- var_getitem (GenRetBin.GenRetBin_Retire m) gp ;;
             cap <- param "gen_ret_bin_capacity_mw"
                      (GenRetBin.gen_ret_bin_capacity_mw m) gp ;;
             retire' <- var_getitem (GenRetBin.GenRetBin_Retire m) gp ;;
             Ok (GenRetBin.ResultsRow gp.1 gp.2 tech zone
                   (eval v (Mul retire (Num cap))) (eval v retire'))) = Ok row ->
            (GenRetBin.rr_project row, GenRetBin.rr_period row) = gp /\
            exists cap,
              GenRetBin.gen_ret_bin_capacity_mw m !! gp = Some cap /\
              gp ∈ GenRetBin.GEN_RET_BIN_OPR_PRDS m /\
              GenRetBin.rr_retired_mw row
              = (v (Item "GenRetBin_Retire" gp) * cap)%Q /\
              GenRetBin.rr_retired_binary row = v (Item "GenRetBin_Retire" gp))
    as Hrow.
  { intros [g p] row Hr. simpl in Hr.
    apply bind_Ok in Hr as (tech & _ & Hr). apply bind_Ok in Hr as (zone & _ & Hr).
    apply bind_Ok in Hr as (retire & Hret & Hr).
    apply bind_Ok in Hr as (cap & Hcap & Hr).
    rewrite Hret in Hr. cbn [bind] in Hr.
    apply getitem_Ok_inv in Hret as [Hin ->].
    injection Hr as <-. simpl. split; [done|].
    exists cap. split; [by apply param_Ok in Hcap|]. done. }
  split.
  - apply (mapM_Ok_keys _ _ _ _ H). intros gp row Hr.
    by destruct (Hrow gp row Hr) as [-> _].
  - intros row Hin.
    destruct (mapM_Ok_elem_inv _ _ _ _ H Hin) as (gp & Hgp & Hr).
    destruct (Hrow gp row Hr) as [E (cap & Hcap & Hop & Hmw & Hbin)].
    destruct gp as [g p]. injection E as E1 E2. rewrite E1, E2.
    exists cap, (Mul (Num cap) (Sub (Num 1) (Ref (Item "GenRetBin_Retire" (g, p))))).
    split; [done|]. split.
    + unfold GenRetBin.capacity_rule, var_getitem.
      rewrite (proj2 (param_Ok _ _ _ _) Hcap). simpl.
      by rewrite getitem_Ok by done.
    + split; [|done]. rewrite Hmw. simpl. ring.
Qed.

Lemma exported_rows_account_for_capacity_witness :
  exists rows,
    GenRetBin.export_module_specific_results Examples.two_periods
      {[ "Gas" := "CCGT" ]} {[ "Gas" := "Zone1" ]}
      (fun r => match r with
                | Item "GenRetBin_Retire" (_, 2) => 1%Q
                | _ => 0%Q
                end) = Ok rows /\
    (fun row => (GenRetBin.rr_project row, GenRetBin.rr_period row)) <$> rows
    = GenRetBin.GEN_RET_BIN_OPR_PRDS Examples.two_periods.
Proof.
  eexists. split; [vm_compute; reflexivity|].
  refine (proj1 (exported_rows_account_for_capacity Examples.two_periods
                   {[ "Gas" := "CCGT" ]} {[ "Gas" := "Zone1" ]}
                   (fun r => match r with
                             | Item "GenRetBin_Retire" (_, 2) => 1%Q
                             | _ => 0%Q
                             end) _ _)).
  vm_compute. reflexivity.
Defined.
